(** * Python Project MCP service: the project analysis engine

    A shallow embedding of [src/python_project_mcp.py] (class
    [PythonProjectMCP]) and the properties of its engine operations.

    Conventions of the embedding.
    - Python [str] is [string], the UTF-8 encoding of the text; white
      space is the class of [str.isspace], recognized on the encoding, and
      [str.lower] is a parameter.
    - A [pathlib.Path] is the list of its components; absolute paths are
      taken from the filesystem root, whose own component ['/'] is left
      implicit.
    - The filesystem is a tree of regular files and directories, without
      links; a file carries the byte size reported by [stat] and the text
      obtained by reading it.  Every file can be read; a directory may
      refuse to be listed, and its entries can still be reached by name.
      A path that denotes nothing is answered as absent, as the system
      does for names within its limits ([names_fit]).
    - A Python exception is a value of [exn]; a function that may raise
      returns [result].
    - Integers that Python prints are [N]. *)

From Stdlib Require Import Bool Arith NArith ZArith Lia List Ascii String.
From Stdlib Require Import DecimalString Permutation Sorted.
Import ListNotations.

Local Open Scope string_scope.
Local Open Scope list_scope.

Infix "+++" := String.append (at level 60, right associativity).

(** ** Python string operations

    A [str] is held as its UTF-8 encoding.  Prefixes, suffixes, substrings,
    splitting at a separator and the order of two strings are the same on
    the encoding as on the characters.  White space and the number of
    characters are not, and are defined on the encoding below; [str.lower]
    depends on tables of the Unicode standard and is a parameter of the
    engine. *)

Module Str.

(** [s.startswith(p)] *)
Fixpoint startswith (p s : string) : bool :=
  match p with
  | EmptyString => true
  | String a p' =>
      match s with
      | EmptyString => false
      | String b s' => Ascii.eqb a b && startswith p' s'
      end
  end.

(** [s.endswith(p)] *)
Fixpoint endswith (p s : string) : bool :=
  String.eqb p s ||
  match s with
  | EmptyString => false
  | String _ s' => endswith p s'
  end.

(** [sub in s] *)
Fixpoint contains (sub s : string) : bool :=
  startswith sub s ||
  match s with
  | EmptyString => false
  | String _ s' => contains sub s'
  end.

(** [s[n:]] *)
Fixpoint drop (n : nat) (s : string) : string :=
  match n, s with
  | O, _ => s
  | S _, EmptyString => EmptyString
  | S k, String _ s' => drop k s'
  end.

(** The string of the given bytes. *)
Definition utf8 (bytes : list nat) : string :=
  fold_right (fun b s => String (ascii_of_nat b) s) EmptyString bytes.

(** The characters for which [str.isspace] holds, which are also those
    that [strip], [split] and the class [\s] of [re] take as white space:
    U+0009..U+000D, U+001C..U+0020, U+0085, U+00A0, U+1680,
    U+2000..U+200A, U+2028, U+2029, U+202F, U+205F and U+3000, each by its
    encoding. *)
Definition WHITESPACE : list string :=
  map utf8
    [[9]; [10]; [11]; [12]; [13]; [28]; [29]; [30]; [31]; [32];
     [194; 133]; [194; 160]; [225; 154; 128];
     [226; 128; 128]; [226; 128; 129]; [226; 128; 130]; [226; 128; 131];
     [226; 128; 132]; [226; 128; 133]; [226; 128; 134]; [226; 128; 135];
     [226; 128; 136]; [226; 128; 137]; [226; 128; 138];
     [226; 128; 168]; [226; 128; 169]; [226; 128; 175]; [226; 129; 159];
     [227; 128; 128]].

(** The number of bytes of the white space character that [s] starts with;
    zero when [s] does not start with white space. *)
Definition space_width (s : string) : nat :=
  match find (fun w => startswith w s) WHITESPACE with
  | Some w => String.length w
  | None => 0
  end.

(** [s.lstrip()]; [skip] counts the bytes of a white space character that
    are still to be passed over. *)
Fixpoint lstrip_aux (skip : nat) (s : string) : string :=
  match s with
  | EmptyString => EmptyString
  | String _ s' =>
      match skip with
      | S k => lstrip_aux k s'
      | O =>
          match space_width s with
          | O => s
          | S k => lstrip_aux k s'
          end
      end
  end.

Definition lstrip (s : string) : string := lstrip_aux 0 s.

(** [s.isspace() or s == ""]: nothing is left of [s] without its leading
    white space. *)
Definition is_blank (s : string) : bool := String.eqb (lstrip s) EmptyString.

(** [s.rstrip()]: the text up to the place from which only white space
    follows. *)
Fixpoint rstrip (s : string) : string :=
  match s with
  | EmptyString => EmptyString
  | String c s' => if is_blank s then EmptyString else String c (rstrip s')
  end.

(** [s.strip()] *)
Definition strip (s : string) : string := rstrip (lstrip s).

(** [s.lstrip(chars)], [s.rstrip(chars)] and [s.strip(chars)] for an
    explicit set of characters of the ASCII range. *)
Fixpoint lstrip_chars (p : ascii -> bool) (s : string) : string :=
  match s with
  | EmptyString => EmptyString
  | String c s' => if p c then lstrip_chars p s' else s
  end.

Fixpoint rstrip_chars (p : ascii -> bool) (s : string) : string :=
  match s with
  | EmptyString => EmptyString
  | String c s' =>
      match rstrip_chars p s' with
      | EmptyString => if p c then EmptyString else String c EmptyString
      | r => String c r
      end
  end.

Definition strip_chars (p : ascii -> bool) (s : string) : string :=
  rstrip_chars p (lstrip_chars p s).

(** [s.split(sep)] for a non-empty separator. [skip] counts the characters
    of a separator occurrence that are still to be passed over. *)
Fixpoint split_aux (sep : string) (skip : nat) (s : string) : list string :=
  match s with
  | EmptyString => [EmptyString]
  | String c s' =>
      match skip with
      | S k => split_aux sep k s'
      | O =>
          if startswith sep s
          then EmptyString :: split_aux sep (String.length sep - 1) s'
          else match split_aux sep 0 s' with
               | h :: t => String c h :: t
               | [] => [String c EmptyString]
               end
      end
  end.

Definition split (sep s : string) : list string := split_aux sep 0 s.

(** [s.split()]: the maximal runs without white space.  A byte that does
    not start a white space character belongs to a run, which ends where
    the text ends or white space starts. *)
Fixpoint split_ws_aux (skip : nat) (s : string) : list string :=
  match s with
  | EmptyString => []
  | String c s' =>
      match skip with
      | S k => split_ws_aux k s'
      | O =>
          match space_width s with
          | S k => split_ws_aux k s'
          | O =>
              match s' with
              | EmptyString => [String c EmptyString]
              | String _ _ =>
                  match space_width s' with
                  | S _ => String c EmptyString :: split_ws_aux 0 s'
                  | O => match split_ws_aux 0 s' with
                         | h :: t => String c h :: t
                         | [] => [String c EmptyString]
                         end
                  end
              end
          end
      end
  end.

Definition split_ws (s : string) : list string := split_ws_aux 0 s.

(** [sep.join(l)] *)
Definition join (sep : string) (l : list string) : string := String.concat sep l.

(** [s * n] *)
Fixpoint repeat_str (s : string) (n : nat) : string :=
  match n with
  | O => EmptyString
  | S k => s +++ repeat_str s k
  end.

(** [len(s)]: the number of characters, that is of the bytes that do not
    continue a character. *)
Definition is_continuation (c : ascii) : bool :=
  let n := nat_of_ascii c in (128 <=? n)%nat && (n <? 192)%nat.

Fixpoint len (s : string) : nat :=
  match s with
  | EmptyString => 0
  | String c s' => (if is_continuation c then 0 else 1) + len s'
  end.

(** [s.isascii()] *)
Fixpoint is_ascii (s : string) : bool :=
  match s with
  | EmptyString => true
  | String c s' => (nat_of_ascii c <? 128)%nat && is_ascii s'
  end.

(** What [s.lower()] is on a string of the ASCII range: the letters [A] to
    [Z] become [a] to [z]. *)
Definition ascii_lower_char (c : ascii) : ascii :=
  let n := nat_of_ascii c in
  if (65 <=? n)%nat && (n <=? 90)%nat then ascii_of_nat (n + 32) else c.

Fixpoint ascii_lower (s : string) : string :=
  match s with
  | EmptyString => EmptyString
  | String c s' => String (ascii_lower_char c) (ascii_lower s')
  end.

(** [str(n)] *)
Definition of_N (n : N) : string := NilEmpty.string_of_uint (N.to_uint n).

Definition of_nat (n : nat) : string := of_N (N.of_nat n).

(** [x in l] for a list or set of strings. *)
Definition mem (x : string) (l : list string) : bool :=
  existsb (String.eqb x) l.

(** Comparison of two lists of strings, as Python compares lists (and
    [pathlib] compares paths): component by component. *)
Fixpoint list_compare (a b : list string) : comparison :=
  match a, b with
  | [], [] => Eq
  | [], _ :: _ => Lt
  | _ :: _, [] => Gt
  | x :: a', y :: b' =>
      match String.compare x y with
      | Eq => list_compare a' b'
      | c => c
      end
  end.

End Str.

(** ** Sorting, as [sorted] does: stable, by a "not greater" test *)

Section Sorting.
Context {A : Type} (le : A -> A -> bool).

Fixpoint insert_sorted (x : A) (l : list A) : list A :=
  match l with
  | [] => [x]
  | y :: l' => if le x y then x :: l else y :: insert_sorted x l'
  end.

Definition sorted (l : list A) : list A := fold_right insert_sorted [] l.
End Sorting.

(** ** Configuration constants

    The source keeps the names in sets; they are listed here in the order
    in which the source writes them, and the loops over a set visit them in
    that order. *)

Definition PYTHON_EXTENSIONS : list string := [".py"; ".pyx"; ".pyi"].
Definition CONFIG_EXTENSIONS : list string :=
  [".toml"; ".cfg"; ".ini"; ".yaml"; ".yml"; ".json"].
Definition DOC_EXTENSIONS : list string := [".md"; ".rst"; ".txt"].
Definition REQUIREMENTS_FILES : list string :=
  ["requirements.txt"; "requirements-dev.txt"; "pyproject.toml"; "setup.py";
   "setup.cfg"; "Pipfile"].

Definition EXCLUDE_DIRS : list string :=
  ["__pycache__"; ".git"; ".svn"; ".hg"; ".bzr";
   ".tox"; ".pytest_cache"; ".mypy_cache"; ".coverage";
   "node_modules"; ".venv"; "venv"; "env"; ".env";
   "build"; "dist"; ".egg-info"; ".eggs"; "htmlcov"].

Definition MAX_FILE_SIZE : N := 1024 * 1024.

(** ** [_format_file_size]

    The first division, of an integer by an integer, gives the float
    nearest to the quotient, and dividing by a power of two is exact: the
    quotient is the float nearest to the size, over 1024.  Up to 2^53 that
    float is the size itself, so the first round, which sees the integer,
    is not concerned.  The later divisions by 1024 are exact, and [:.1f]
    prints the float, the rational [num / den] with [den] a power of 1024,
    correctly rounded to one decimal, ties to even.  (A size from 2^1034 on
    has no float; [stat] reports sizes below 2^63.) *)

(** The float nearest to [n], ties to even: [n] itself when it has at most
    53 significant bits, and otherwise its 53 leading bits, rounded. *)
Definition float_of_N (n : N) : N :=
  if (N.log2 n <? 53)%N then n
  else
    let e := (N.log2 n - 52)%N in
    let q := (n / 2 ^ e)%N in
    let r := (n mod 2 ^ e)%N in
    let half := (2 ^ (e - 1))%N in
    let q' := if (half <? r)%N || ((r =? half)%N && N.odd q) then (q + 1)%N else q in
    (q' * 2 ^ e)%N.

Definition fmt_1f (num den : N) : string :=
  let q := (num * 10 / den)%N in
  let r := (num * 10 mod den)%N in
  let t := if (den <? 2 * r)%N then (q + 1)%N
           else if (2 * r =? den)%N then (if N.even q then q else (q + 1)%N)
           else q in
  Str.of_N (t / 10) +++ "." +++ Str.of_N (t mod 10).

Fixpoint _format_file_size_loop (units : list string) (num den : N) : string :=
  match units with
  | [] => fmt_1f num den +++ "TB"
  | u :: rest =>
      if (num <? 1024 * den)%N then fmt_1f num den +++ u
      else _format_file_size_loop rest num (den * 1024)%N
  end.

Definition _format_file_size (size_bytes : N) : string :=
  _format_file_size_loop ["B"; "KB"; "MB"; "GB"] (float_of_N size_bytes) 1.

(** ** Paths, the filesystem and exceptions *)

(** An absolute [Path]: its components below ['/']. *)
Definition path := list string.

(** [str(p)] for an absolute path. *)
Definition path_str (p : path) : string := "/" +++ Str.join "/" p.

(** [str(p)] for a relative path. *)
Definition rel_str (p : list string) : string :=
  match p with
  | [] => "."
  | _ => Str.join "/" p
  end.

(** [p.name] *)
Definition path_name (p : path) : string := last p "".

(** A path as the caller gives it: [Path(s)] is absolute or relative. *)
Inductive pure_path : Type :=
| Abs (parts : list string)
| Rel (parts : list string).

(** A file carries [stat().st_size] and the text that [open(..).read()]
    returns (decoded as UTF-8, or as Latin-1 when that fails, which never
    does).  A directory carries its [st_size], whether it can be listed
    (read permission; the permission to search it is taken as given), and
    its entries in the order the system lists them. *)
#[warnings="-register-all"]
Inductive node : Type :=
| File (size : N) (text : string)
| Dir (size : N) (listable : bool) (entries : list (string * node)).

Definition st_size (n : node) : N :=
  match n with
  | File sz _ => sz
  | Dir sz _ _ => sz
  end.

Definition node_is_dir (n : node) : bool :=
  match n with Dir _ _ _ => true | File _ _ => false end.

Definition node_is_file (n : node) : bool := negb (node_is_dir n).

Fixpoint find_entry (name : string) (es : list (string * node)) : option node :=
  match es with
  | [] => None
  | (k, n) :: es' => if String.eqb name k then Some n else find_entry name es'
  end.

(** Resolution of the components of a path from a directory, as the system
    does it; [up] holds the ancestors of [cur], nearest first, for [".."]. *)
Fixpoint resolve_from (up : list node) (cur : node) (p : list string) : option node :=
  match p with
  | [] => Some cur
  | c :: p' =>
      match cur with
      | File _ _ => None
      | Dir _ _ es =>
          if String.eqb c ".."
          then match up with
               | [] => resolve_from [] cur p'
               | par :: up' => resolve_from up' par p'
               end
          else match find_entry c es with
               | Some n => resolve_from (cur :: up) n p'
               | None => None
               end
      end
  end.

(** The node an absolute path denotes in the filesystem [fs], if any. *)
Definition lookup (fs : node) (p : path) : option node := resolve_from [] fs p.

(** [p.exists()], [p.is_dir()] *)
Definition path_exists (fs : node) (p : path) : bool :=
  match lookup fs p with Some _ => true | None => false end.

Definition path_is_dir (fs : node) (p : path) : bool :=
  match lookup fs p with Some n => node_is_dir n | None => false end.

(** [is_prefix a b]: the components [a] lead the components [b]. *)
Fixpoint is_prefix (a b : list string) : bool :=
  match a, b with
  | [], _ => true
  | _ :: _, [] => false
  | x :: a', y :: b' => String.eqb x y && is_prefix a' b'
  end.

(** The exceptions the engine meets. *)
Inductive exn : Type :=
| FileNotFoundError (msg : string)
| ValueError (msg : string)
| IsADirectoryError (p : path)
| NotADirectoryError (p : path)
| PermissionError (p : path).

(** [str(e)]; the operating system errors print as CPython prints them. *)
Definition exn_str (e : exn) : string :=
  match e with
  | FileNotFoundError msg => msg
  | ValueError msg => msg
  | IsADirectoryError p => "[Errno 21] Is a directory: '" +++ path_str p +++ "'"
  | NotADirectoryError p => "[Errno 20] Not a directory: '" +++ path_str p +++ "'"
  | PermissionError p => "[Errno 13] Permission denied: '" +++ path_str p +++ "'"
  end.

Inductive result (A : Type) : Type :=
| Ok (a : A)
| Raise (e : exn).
Arguments Ok {A} a.
Arguments Raise {A} e.

Definition bind {A B : Type} (r : result A) (k : A -> result B) : result B :=
  match r with
  | Ok a => k a
  | Raise e => Raise e
  end.

Notation "x <- r ;; k" := (bind r (fun x => k))
  (at level 61, r at next level, right associativity).

(** [p.relative_to(root)], which compares the components as they are
    written.  The message of its error is worded as Python 3.12 words it;
    earlier versions add a clause about relative and absolute paths. *)
Fixpoint strip_prefix (root p : list string) : option (list string) :=
  match root, p with
  | [], _ => Some p
  | _ :: _, [] => None
  | x :: root', y :: p' => if String.eqb x y then strip_prefix root' p' else None
  end.

Definition not_in_subpath (p root : path) : exn :=
  ValueError ("'" +++ path_str p +++ "' is not in the subpath of '" +++ path_str root +++ "'").

Definition relative_to (p root : path) : result (list string) :=
  match strip_prefix root p with
  | Some rel => Ok rel
  | None => Raise (not_in_subpath p root)
  end.

(** The engine holds one piece of state, the configured root. *)
Record engine : Type := { root_directory : option path }.

(** ** [_read_file_content] *)

Definition _read_file_content (fs : node) (file_path : path) : result string :=
  match lookup fs file_path with
  | None => Raise (FileNotFoundError ("File not found: " +++ path_str file_path))
  | Some n =>
      if (MAX_FILE_SIZE <? st_size n)%N
      then Raise (ValueError ("File too large: " +++ path_str file_path +++ " ("
                              +++ _format_file_size (st_size n) +++ ")"))
      else match n with
           | File _ text => Ok text
           | Dir _ _ _ => Raise (IsADirectoryError file_path)
           end
  end.

(** ** [_parse_requirements_txt] *)

Definition newline : string := String (ascii_of_nat 10) EmptyString.

(** The body of the loop over the lines: the dependency a line contributes,
    if any.  [line.split()] of a non-empty stripped line is never empty
    (lemma [split_ws_nonempty]), so [line.split()[0]] is its head. *)
Definition requirement_of_line (line : string) : list string :=
  let line := Str.strip line in
  if negb (String.eqb line "") && negb (Str.startswith "#" line)
     && negb (Str.startswith "-" line)
  then [hd "" (Str.split_ws line)]
  else [].

Definition _parse_requirements_txt (fs : node) (file_path : path) : result (list string) :=
  content <- _read_file_content fs file_path ;;
  Ok (flat_map requirement_of_line (Str.split newline content)).

(** ** [_parse_pyproject_toml] *)

Definition dquote : ascii := ascii_of_nat 34.
Definition squote : ascii := ascii_of_nat 39.

Definition is_quote (c : ascii) : bool := Ascii.eqb c dquote || Ascii.eqb c squote.

(** One round of the loop: the state is [(in_deps_section, deps)]. *)
Definition pyproject_step (st : bool * list string) (line : string) : bool * list string :=
  let '(in_deps_section, deps) := st in
  let line := Str.strip line in
  if Str.startswith "[tool.poetry.dependencies]" line
     || Str.startswith "dependencies = [" line
  then (true, deps)
  else if Str.startswith "[" line && in_deps_section
  then (false, deps)
  else if in_deps_section && Str.contains "=" line
  then let dep_name := Str.strip_chars is_quote (Str.strip (hd "" (Str.split "=" line))) in
       if negb (String.eqb dep_name "python")
       then (in_deps_section, deps ++ [dep_name])
       else (in_deps_section, deps)
  else (in_deps_section, deps).

Definition _parse_pyproject_toml (fs : node) (file_path : path) : result (list string) :=
  content <- _read_file_content fs file_path ;;
  Ok (snd (fold_left pyproject_step (Str.split newline content) (false, []))).

(** ** [_parse_setup_file]

    The regular expressions of the source are matched by hand.  A matcher
    takes the text at a position and returns the text of group 1 and the
    length of the whole match, as [re.match] would from there. *)

Definition matcher : Type := string -> option (string * nat).

(** The text left after the literal [p], when [s] starts with it. *)
Fixpoint drop_prefix (p s : string) : option string :=
  match p with
  | EmptyString => Some s
  | String a p' =>
      match s with
      | EmptyString => None
      | String b s' => if Ascii.eqb a b then drop_prefix p' s' else None
      end
  end.

Definition expect (c : ascii) (s : string) : option string :=
  match s with
  | String b s' => if Ascii.eqb b c then Some s' else None
  | EmptyString => None
  end.

(** The longest leading run of characters in the class [p], and the rest. *)
Fixpoint span (p : ascii -> bool) (s : string) : string * string :=
  match s with
  | EmptyString => (EmptyString, EmptyString)
  | String c s' =>
      if p c then let '(run, rest) := span p s' in (String c run, rest)
      else (EmptyString, s)
  end.

(** The text before the first [c] and the text after it. *)
Fixpoint until_char (c : ascii) (s : string) : option (string * string) :=
  match s with
  | EmptyString => None
  | String b s' =>
      if Ascii.eqb b c then Some (EmptyString, s')
      else match until_char c s' with
           | Some (g, rest) => Some (String b g, rest)
           | None => None
           end
  end.

(** [kw\s*=\s*\[(.*?)\]] with [re.DOTALL]: the lazy group stops at the
    first closing bracket. *)
Definition match_requires (kw : string) : matcher := fun s =>
  match drop_prefix kw s with
  | None => None
  | Some s1 =>
      match expect "=" (Str.lstrip s1) with
      | None => None
      | Some s2 =>
          match expect "[" (Str.lstrip s2) with
          | None => None
          | Some s3 =>
              match until_char "]" s3 with
              | None => None
              | Some (g, rest) => Some (g, String.length s - String.length rest)
              end
          end
      end
  end.

(** The pattern of the quoted strings: a quote character (single or
    double), a longest non-empty run without quote characters, a quote
    character. *)
Definition match_quoted : matcher := fun s =>
  match s with
  | EmptyString => None
  | String q s1 =>
      if is_quote q
      then match span (fun c => negb (is_quote c)) s1 with
           | (EmptyString, _) => None
           | (run, String _ _) => Some (run, String.length run + 2)
           | (_, EmptyString) => None
           end
      else None
  end.

(** [re.findall]: the matches from left to right, without overlap; [skip]
    counts the characters of the last match still to be passed over. *)
Fixpoint findall_aux (m : matcher) (skip : nat) (s : string) : list string :=
  match s with
  | EmptyString => []
  | String _ s' =>
      match skip with
      | S k => findall_aux m k s'
      | O =>
          match m s with
          | Some (g, len) => g :: findall_aux m (len - 1) s'
          | None => findall_aux m 0 s'
          end
      end
  end.

Definition findall (m : matcher) (s : string) : list string := findall_aux m 0 s.

(** [pkg.split('>=')[0].split('==')[0].split('<')[0].strip()] *)
Definition strip_version (pkg : string) : string :=
  Str.strip (hd "" (Str.split "<" (hd "" (Str.split "==" (hd "" (Str.split ">=" pkg)))))).

Definition setup_patterns : list string := ["install_requires"; "requires"].

Definition _parse_setup_file (fs : node) (file_path : path) : result (list string) :=
  content <- _read_file_content fs file_path ;;
  Ok (flat_map (fun kw =>
        flat_map (fun m => map strip_version (findall match_quoted m))
                 (findall (match_requires kw) content))
      setup_patterns).

(** ** [_analyze_requirement_files]

    The result dictionary is the list of its items in insertion order.  The
    names are visited in the order [names]; Python leaves the order in which
    a set is visited open. *)

Definition manifests : Type := list (string * list string).

(** One round of the loop: what the manifest [req_file] adds to [results]. *)
Definition analyze_manifest (fs : node) (root : path) (req_file : string) : manifests :=
  let file_path := root ++ [req_file] in
  if path_exists fs file_path
  then let parsed :=
         if Str.endswith ".txt" req_file
         then Some (_parse_requirements_txt fs file_path)
         else if String.eqb req_file "pyproject.toml"
         then Some (_parse_pyproject_toml fs file_path)
         else if Str.mem req_file ["setup.py"; "setup.cfg"]
         then Some (_parse_setup_file fs file_path)
         else None in
       match parsed with
       | Some (Ok (d :: deps)) => [(req_file, d :: deps)]
       | Some (Ok []) => []
       | Some (Raise _) => []
       | None => []
       end
  else [].

Definition analyze_manifests (names : list string) (fs : node) (root : path) : manifests :=
  flat_map (analyze_manifest fs root) names.

Definition _analyze_requirement_files (fs : node) (root : path) : manifests :=
  analyze_manifests REQUIREMENTS_FILES fs root.

(** [results.get(name)] *)
Fixpoint assoc {B : Type} (k : string) (l : list (string * B)) : option B :=
  match l with
  | [] => None
  | (k', v) :: l' => if String.eqb k k' then Some v else assoc k l'
  end.

(** ** [_get_python_files] *)

(** [dir.rglob("*" + ext)]: every entry below [dir] whose name ends in
    [ext], a directory's own entries before those of its subdirectories;
    a directory that cannot be listed yields nothing. *)
Fixpoint rglob_node (ext : string) (dir : path) (n : node) : list path :=
  match n with
  | File _ _ => []
  | Dir _ listable es =>
      if listable
      then map (fun e => dir ++ [fst e]) (filter (fun e => Str.endswith ext (fst e)) es)
           ++ flat_map (fun e => let '(name, child) := e in
                                 rglob_node ext (dir ++ [name]) child) es
      else []
  end.

Definition rglob (fs : node) (dir : path) (ext : string) : list path :=
  match lookup fs dir with
  | Some n => rglob_node ext dir n
  | None => []
  end.

(** [dir.glob("*" + ext)]: the entries of [dir] itself. *)
Definition glob (fs : node) (dir : path) (ext : string) : list path :=
  match lookup fs dir with
  | Some (Dir _ true es) =>
      map (fun e => dir ++ [fst e]) (filter (fun e => Str.endswith ext (fst e)) es)
  | _ => []
  end.

(** [a < b] on paths. *)
Definition path_lt (a b : path) : bool :=
  match Str.list_compare a b with Lt => true | _ => false end.

Definition path_le (a b : path) : bool := negb (path_lt b a).

(** [any(part in EXCLUDE_DIRS for part in file_path.parts)] *)
Definition has_excluded_part (file_path : path) : bool :=
  existsb (fun part => Str.mem part EXCLUDE_DIRS) file_path.

Definition _get_python_files (fs : node) (self : engine) : list path :=
  match root_directory self with
  | None => []
  | Some root =>
      let python_files := flat_map (rglob fs root) PYTHON_EXTENSIONS in
      let filtered_files := filter (fun file_path => negb (has_excluded_part file_path))
                                   python_files in
      sorted path_le filtered_files
  end.

(** ** [_analyze_imports] *)

(** [s] starts with white space. *)
Definition starts_with_space (s : string) : bool := negb (Str.space_width s =? 0)%nat.

(** [s] starts with white space or a comma, which the class of the module
    token refuses. *)
Definition module_stop (s : string) : bool := starts_with_space s || Str.startswith "," s.

(** The longest leading run of [s] before a place where [stop] holds, and
    the rest. *)
Fixpoint run_until (stop : string -> bool) (s : string) : string * string :=
  match s with
  | EmptyString => (EmptyString, EmptyString)
  | String c s' =>
      if stop s then (EmptyString, s)
      else let '(run, rest) := run_until stop s' in (String c run, rest)
  end.

(** [re.match(r'^import\s+([^\s,]+)', line)]: group 1. *)
Definition match_import (line : string) : option string :=
  match drop_prefix "import" line with
  | None => None
  | Some s1 =>
      if starts_with_space s1
      then match run_until module_stop (Str.lstrip s1) with
           | (EmptyString, _) => None
           | (g, _) => Some g
           end
      else None
  end.

(** [re.match(r'^from\s+([^\s,]+)\s+import', line)]: group 1. *)
Definition match_from (line : string) : option string :=
  match drop_prefix "from" line with
  | None => None
  | Some s1 =>
      if starts_with_space s1
      then match run_until module_stop (Str.lstrip s1) with
           | (EmptyString, _) => None
           | (g, s2) =>
               if starts_with_space s2 && Str.startswith "import" (Str.lstrip s2)
               then Some g else None
           end
      else None
  end.

Definition import_patterns : list (string -> option string) := [match_import; match_from].

(** The tally is a dictionary in insertion order. *)
Definition tally : Type := list (string * nat).

(** [import_counts[module] = import_counts.get(module, 0) + 1] *)
Fixpoint incr (module : string) (import_counts : tally) : tally :=
  match import_counts with
  | [] => [(module, 1)]
  | (k, v) :: rest =>
      if String.eqb module k then (k, v + 1) :: rest else (k, v) :: incr module rest
  end.

(** [match.group(1).split('.')[0]] *)
Definition top_level (group1 : string) : string := hd "" (Str.split "." group1).

Definition tally_line (import_counts : tally) (line : string) : tally :=
  let line := Str.strip line in
  fold_left (fun counts pattern =>
               match pattern line with
               | Some g => incr (top_level g) counts
               | None => counts
               end)
            import_patterns import_counts.

Definition tally_file (fs : node) (import_counts : tally) (file_path : path) : tally :=
  match _read_file_content fs file_path with
  | Ok content => fold_left tally_line (Str.split newline content) import_counts
  | Raise _ => import_counts
  end.

Definition _analyze_imports (fs : node) (self : engine) : tally :=
  fold_left (tally_file fs) (_get_python_files fs self) [].

(** ** The icons of the source, character for character *)

Definition ICON_FOLDER : string := "üìÅ".
Definition ICON_DENIED : string := "‚ùå".
Definition ICON_PYTHON : string := "üêç".
Definition ICON_CONFIG : string := "‚öôÔ∏è".
Definition ICON_DOC : string := "üìù".
Definition ICON_PACKAGE : string := "üì¶".
Definition ICON_FILE : string := "üìÑ".
Definition ICON_DEPS : string := "üìã".

(** ** The engine

    Three things come from outside the source: [str.lower], whose value on
    a text outside the ASCII range rests on the tables of the Unicode
    standard; [fnmatch.fnmatch(name, pattern)] of the standard library; and
    the working directory of the process. *)

Section Engine.

Variable lower : string -> string.
Variable fnmatch : string -> string -> bool.
Variable cwd : path.

(** ** [_get_file_icon] *)

(** The text from the last ['.'] of [s] on, if [s] has one. *)
Fixpoint from_last_dot (s : string) : option string :=
  match s with
  | EmptyString => None
  | String c s' =>
      match from_last_dot s' with
      | Some r => Some r
      | None => if Ascii.eqb c "." then Some s else None
      end
  end.

(** [p.suffix] of a path whose name is [name]: the text from the last dot
    on, unless that dot starts or ends the name. *)
Definition path_suffix (name : string) : string :=
  match name with
  | EmptyString => EmptyString
  | String _ rest =>
      match from_last_dot rest with
      | Some suf => if (1 <? String.length suf)%nat then suf else EmptyString
      | None => EmptyString
      end
  end.

Definition _get_file_icon (name : string) : string :=
  let suffix := lower (path_suffix name) in
  if Str.mem suffix PYTHON_EXTENSIONS then ICON_PYTHON
  else if Str.mem suffix CONFIG_EXTENSIONS then ICON_CONFIG
  else if Str.mem suffix DOC_EXTENSIONS then ICON_DOC
  else if Str.mem name REQUIREMENTS_FILES then ICON_PACKAGE
  else ICON_FILE.

(** ** [_build_directory_tree] *)

(** The sort key [(x.is_file(), x.name.lower())] and its order. *)
Definition tree_key_lt (a b : string * node) : bool :=
  let fa := node_is_file (snd a) in
  let fb := node_is_file (snd b) in
  if Bool.eqb fa fb
  then String.ltb (lower (fst a)) (lower (fst b))
  else negb fa.

Definition tree_key_le (a b : string * node) : bool := negb (tree_key_lt b a).

Definition folder_line (indent name : string) : string :=
  indent +++ ICON_FOLDER +++ " " +++ name +++ "/".

Definition file_line (indent name : string) (sz : N) : string :=
  indent +++ _get_file_icon name +++ " " +++ name +++ " (" +++ _format_file_size sz +++ ")".

Definition denied_line (indent : string) : string :=
  indent +++ ICON_DENIED +++ " Permission denied".

(** [item.name.startswith('.')] under [not include_hidden], and the test of
    the excluded directories. *)
Definition skipped (include_hidden : bool) (item : string * node) : bool :=
  (negb include_hidden && Str.startswith "." (fst item))
  || (node_is_dir (snd item) && Str.mem (fst item) EXCLUDE_DIRS).

(** The walk below a directory whose entries are [es].  A call goes one
    level down only while [current_depth < max_depth - 1], so the levels
    still to render, [max_depth - current_depth], bound the recursion:
    [fuel] is that number. *)
Fixpoint tree_of_dir (fuel : nat) (listable : bool) (es : list (string * node))
    (max_depth : Z) (include_hidden : bool) (current_depth : Z) {struct fuel} : string :=
  match fuel with
  | O => EmptyString
  | S fuel' =>
      if (current_depth >=? max_depth)%Z then EmptyString
      else
        let indent := Str.repeat_str "  " (Z.to_nat current_depth) in
        let tree_lines :=
          if listable
          then flat_map
                 (fun item =>
                    if skipped include_hidden item then []
                    else match snd item with
                         | Dir _ l' es' =>
                             folder_line indent (fst item) ::
                             (if (current_depth <? max_depth - 1)%Z
                              then let subtree := tree_of_dir fuel' l' es' max_depth
                                                    include_hidden (current_depth + 1) in
                                   if String.eqb subtree "" then [] else [subtree]
                              else [])
                         | File sz _ => [file_line indent (fst item) sz]
                         end)
                 (sorted tree_key_le es)
          else [denied_line indent] in
        Str.join newline tree_lines
  end.

Definition no_such_file (p : path) : exn :=
  FileNotFoundError ("[Errno 2] No such file or directory: '" +++ path_str p +++ "'").

Definition _build_directory_tree (fs : node) (p : path) (max_depth : Z)
    (include_hidden : bool) (current_depth : Z) : result string :=
  if (current_depth >=? max_depth)%Z then Ok EmptyString
  else match lookup fs p with
       | None => Raise (no_such_file p)
       | Some (File _ _) => Raise (NotADirectoryError p)
       | Some (Dir _ listable es) =>
           Ok (tree_of_dir (Z.to_nat (max_depth - current_depth)) listable es
                 max_depth include_hidden current_depth)
       end.

(** ** The operations of the engine *)

(** [p.iterdir()] *)
Definition iterdir (fs : node) (p : path) : result (list (string * node)) :=
  match lookup fs p with
  | None => Raise (no_such_file p)
  | Some (File _ _) => Raise (NotADirectoryError p)
  | Some (Dir _ false _) => Raise (PermissionError p)
  | Some (Dir _ true es) => Ok es
  end.

(** [p.stat().st_size] *)
Definition stat_size (fs : node) (p : path) : result N :=
  match lookup fs p with
  | Some n => Ok (st_size n)
  | None => Raise (no_such_file p)
  end.

(** [d.is_dir() and (d / "__init__.py").exists()] for an entry [d]. *)
Definition is_package (d : string * node) : bool :=
  match snd d with
  | Dir _ _ es => match find_entry "__init__.py" es with Some _ => true | None => false end
  | File _ _ => false
  end.

(** [Path(s)]: the components between the slashes, the empty ones and ['.']
    dropped; absolute when [s] starts with a slash.  A text that starts
    with exactly two slashes keeps them as a root of its own in [pathlib];
    the properties that depend on the root set it aside ([single_root]). *)
Definition parse_path (s : string) : pure_path :=
  let parts := filter (fun c => negb (String.eqb c "" || String.eqb c "."))
                      (Str.split "/" s) in
  if Str.startswith "/" s then Abs parts else Rel parts.

(** [p.resolve()]: made absolute from the working directory, the [".."]
    taken out. *)
Fixpoint normalize (acc : list string) (p : list string) : list string :=
  match p with
  | [] => rev acc
  | c :: p' => if String.eqb c ".." then normalize (tl acc) p' else normalize (c :: acc) p'
  end.

Definition resolve (cwd : path) (p : pure_path) : path :=
  match p with
  | Abs parts => normalize [] parts
  | Rel parts => normalize (rev cwd) parts
  end.

Fixpoint mapM {A B : Type} (f : A -> result B) (l : list A) : result (list B) :=
  match l with
  | [] => Ok []
  | x :: l' => y <- f x ;; ys <- mapM f l' ;; Ok (y :: ys)
  end.

Definition concat_str (l : list string) : string := Str.join "" l.

Definition NO_ROOT : string := "Error: No project root set".

Definition sum_nat (l : list nat) : nat := fold_right Nat.add 0 l.

Record SearchMatch : Type :=
  { match_file : string; match_line : nat; match_content : string }.

(** A pattern argument is used when it is given and not empty. *)
Definition given (pattern : option string) : option string :=
  match pattern with
  | Some EmptyString => None
  | other => other
  end.

Definition filter_pattern (pattern : option string) (files : list path) : list path :=
  match given pattern with
  | Some pat => filter (fun f => fnmatch (path_name f) pat) files
  | None => files
  end.

(** *** [_find_python_indicators] *)

Definition _find_python_indicators (fs : node) (self : engine) : result (list string) :=
  match root_directory self with
  | None => Ok []
  | Some root =>
      let python_files := glob fs root ".py" in
      let i1 := match python_files with
                | [] => []
                | _ => [Str.of_nat (List.length python_files) +++ " Python files in root"]
                end in
      let i2 := flat_map (fun file_name =>
                            if path_exists fs (root ++ [file_name])
                            then ["Found " +++ file_name] else [])
                         REQUIREMENTS_FILES in
      items <- iterdir fs root ;;
      let packages := filter is_package items in
      let i3 := match packages with
                | [] => []
                | _ => [Str.of_nat (List.length packages) +++ " Python packages found"]
                end in
      Ok (i1 ++ i2 ++ i3)
  end.

(** *** [_set_project_root]: the new state and the text returned *)

Definition _set_project_root (fs : node) (self : engine) (p : string) : engine * string :=
  let root_path := resolve cwd (parse_path p) in
  if negb (path_exists fs root_path)
  then (self, "Error: Path does not exist: " +++ p)
  else if negb (path_is_dir fs root_path)
  then (self, "Error: Path is not a directory: " +++ p)
  else
    let self' := {| root_directory := Some root_path |} in
    match _find_python_indicators fs self' with
    | Ok python_indicators =>
        let response := "Project root set to: " +++ path_str root_path +++ newline +++ newline in
        let response :=
          match python_indicators with
          | [] => response +++
                  "Warning: No clear Python project indicators found in this directory."
          | _ => response +++ "Python project indicators found:" +++ newline +++
                 concat_str (map (fun indicator => "  - " +++ indicator +++ newline)
                                 python_indicators)
          end in
        (self', response)
    | Raise e => (self', "Error setting project root: " +++ exn_str e)
    end.

(** *** [_explore_project_structure] *)

Definition _explore_project_structure (fs : node) (self : engine)
    (max_depth : Z) (include_hidden : bool) : string :=
  match root_directory self with
  | None => NO_ROOT
  | Some root =>
      match _build_directory_tree fs root max_depth include_hidden 0 with
      | Ok structure => structure
      | Raise e => "Error exploring structure: " +++ exn_str e
      end
  end.

(** *** [_read_file] *)

Definition _read_file (fs : node) (self : engine) (file_path : string) : string :=
  match root_directory self with
  | None => NO_ROOT
  | Some root =>
      let p := match parse_path file_path with
               | Abs parts => parts
               | Rel parts => root ++ parts
               end in
      match (content <- _read_file_content fs p ;;
             rel <- relative_to p root ;;
             Ok ("File: " +++ rel_str rel +++ newline +++ newline +++ content)) with
      | Ok text => text
      | Raise e => "Error reading file: " +++ exn_str e
      end
  end.

(** *** [_find_python_files] *)

Definition _find_python_files (fs : node) (self : engine)
    (pattern : option string) (include_tests : bool) : string :=
  match root_directory self with
  | None => NO_ROOT
  | Some root =>
      let python_files := _get_python_files fs self in
      let python_files := filter_pattern pattern python_files in
      let python_files :=
        if negb include_tests
        then filter (fun f => negb (existsb (Str.startswith "test") f)) python_files
        else python_files in
      match python_files with
      | [] => "No Python files found matching criteria"
      | _ =>
          let result := "Found " +++ Str.of_nat (List.length python_files)
                        +++ " Python files:" +++ newline +++ newline in
          match mapM (fun file_path =>
                        rel_path <- relative_to file_path root ;;
                        size <- stat_size fs file_path ;;
                        Ok ("  " +++ ICON_PYTHON +++ " " +++ rel_str rel_path +++ " ("
                            +++ _format_file_size size +++ ")" +++ newline))
                     python_files with
          | Ok rows => result +++ concat_str rows
          | Raise e => "Error finding Python files: " +++ exn_str e
          end
      end
  end.

(** *** [_analyze_dependencies] *)

(** [sorted(imports.items(), key=lambda x: x[1], reverse=True)] *)
Definition sorted_imports (imports : tally) : tally :=
  sorted (fun a b => (snd b <=? snd a)%nat) imports.

Definition deps_section (deps_from_files : manifests) : string :=
  match deps_from_files with
  | [] => EmptyString
  | _ =>
      "Dependencies from requirements files:" +++ newline +++
      concat_str
        (map (fun item =>
                let '(file_name, deps) := item in
                newline +++ file_name +++ ":" +++ newline +++
                concat_str (map (fun dep => "  - " +++ dep +++ newline) (firstn 10 deps)) +++
                (if (10 <? List.length deps)%nat
                 then "  ... and " +++ Str.of_nat (List.length deps - 10) +++ " more" +++ newline
                 else EmptyString))
             deps_from_files)
  end.

Definition imports_section (imports : tally) : string :=
  match imports with
  | [] => EmptyString
  | _ =>
      newline +++ "Imported modules (top 20):" +++ newline +++
      concat_str
        (map (fun item =>
                "  - " +++ fst item +++ " (used " +++ Str.of_nat (snd item) +++ " times)"
                +++ newline)
             (firstn 20 (sorted_imports imports)))
  end.

Definition _analyze_dependencies (fs : node) (self : engine) (include_imports : bool) : string :=
  match root_directory self with
  | None => NO_ROOT
  | Some root =>
      let result := "Project Dependencies Analysis" +++ newline +++ Str.repeat_str "=" 35
                    +++ newline +++ newline in
      let result := result +++ deps_section (_analyze_requirement_files fs root) in
      if include_imports
      then result +++ imports_section (_analyze_imports fs self)
      else result
  end.

(** *** [_search_code] *)

(** The matches of one file: [enumerate(lines, 1)], the substring test on
    the line and the query, both lower-cased unless [case_sensitive]. *)
Fixpoint line_matches (rel_path : string) (query : string) (case_sensitive : bool)
    (line_num : nat) (lines : list string) : list SearchMatch :=
  match lines with
  | [] => []
  | line :: rest =>
      let search_line := if case_sensitive then line else lower line in
      let search_query := if case_sensitive then query else lower query in
      (if Str.contains search_query search_line
       then [{| match_file := rel_path; match_line := line_num;
                match_content := Str.strip line |}]
       else [])
      ++ line_matches rel_path query case_sensitive (S line_num) rest
  end.

(** One round of the loop over the files; a file that cannot be read is
    passed over. *)
Definition file_matches (fs : node) (root : path) (query : string) (case_sensitive : bool)
    (file_path : path) : list SearchMatch :=
  match _read_file_content fs file_path with
  | Raise _ => []
  | Ok content =>
      match relative_to file_path root with
      | Raise _ => []
      | Ok rel_path =>
          line_matches (rel_str rel_path) query case_sensitive 1 (Str.split newline content)
      end
  end.

Definition search_matches (fs : node) (self : engine) (query : string)
    (case_sensitive : bool) (file_pattern : option string) : list SearchMatch :=
  match root_directory self with
  | None => []
  | Some root =>
      flat_map (file_matches fs root query case_sensitive)
               (filter_pattern file_pattern (_get_python_files fs self))
  end.

Definition match_row (m : SearchMatch) : string :=
  match_file m +++ ":" +++ Str.of_nat (match_line m) +++ ": " +++ match_content m +++ newline.

Definition search_report (query : string) (matches : list SearchMatch) : string :=
  match matches with
  | [] => "No matches found for '" +++ query +++ "'"
  | _ =>
      "Found " +++ Str.of_nat (List.length matches) +++ " matches for '" +++ query +++ "':"
      +++ newline +++ newline
      +++ concat_str (map match_row (firstn 50 matches))
      +++ (if (50 <? List.length matches)%nat
           then newline +++ "... and " +++ Str.of_nat (List.length matches - 50)
                +++ " more matches"
           else EmptyString)
  end.

Definition _search_code (fs : node) (self : engine) (query : string)
    (case_sensitive : bool) (file_pattern : option string) : string :=
  match root_directory self with
  | None => NO_ROOT
  | Some _ => search_report query (search_matches fs self query case_sensitive file_pattern)
  end.

(** *** [_generate_project_overview] and [_get_project_info] *)

Definition packages_section (packages : list (string * node)) : string :=
  match packages with
  | [] => EmptyString
  | _ =>
      ICON_PACKAGE +++ " Python Packages: " +++ Str.of_nat (List.length packages) +++ newline
      +++ concat_str (map (fun pkg => "    - " +++ fst pkg +++ newline) (firstn 5 packages))
      +++ (if (5 <? List.length packages)%nat
           then "    ... and " +++ Str.of_nat (List.length packages - 5) +++ " more" +++ newline
           else EmptyString)
  end.

Definition _generate_project_overview (fs : node) (self : engine) : result string :=
  match root_directory self with
  | None => Ok "No project root set"
  | Some root =>
      let name := path_name root in
      let overview := "Python Project Overview: " +++ name +++ newline in
      let overview := overview +++ Str.repeat_str "=" (25 + Str.len name)
                      +++ newline +++ newline in
      let overview := overview +++ ICON_FOLDER +++ " Project Root: " +++ path_str root
                      +++ newline in
      let python_files := _get_python_files fs self in
      let overview := overview +++ ICON_PYTHON +++ " Python Files: "
                      +++ Str.of_nat (List.length python_files) +++ newline in
      items <- iterdir fs root ;;
      let packages := filter is_package items in
      let overview := overview +++ packages_section packages in
      let config_files := filter (fun file_name => path_exists fs (root ++ [file_name]))
                                 REQUIREMENTS_FILES in
      let overview :=
        match config_files with
        | [] => overview
        | _ => overview +++ ICON_CONFIG +++ "  Configuration Files: "
               +++ Str.join ", " config_files +++ newline
        end in
      let doc_files := flat_map (glob fs root) DOC_EXTENSIONS in
      let overview :=
        match doc_files with
        | [] => overview
        | _ => overview +++ ICON_DOC +++ " Documentation: "
               +++ Str.of_nat (List.length doc_files) +++ " files" +++ newline
        end in
      let deps_info := _analyze_requirement_files fs root in
      let overview :=
        match deps_info with
        | [] => overview
        | _ =>
            let total_deps := sum_nat (map (fun item => List.length (snd item)) deps_info) in
            overview +++ ICON_DEPS +++ " Dependencies: ~" +++ Str.of_nat total_deps
            +++ " packages" +++ newline
        end in
      let overview := overview +++ newline +++ Str.repeat_str "=" 50 +++ newline in
      Ok (overview +++ "Use other tools to explore specific aspects of the project!")
  end.

Definition _get_project_info (fs : node) (self : engine) : string :=
  match root_directory self with
  | None => NO_ROOT
  | Some _ =>
      match _generate_project_overview fs self with
      | Ok info => info
      | Raise e => "Error getting project info: " +++ exn_str e
      end
  end.

End Engine.

(** * Concrete filesystems used by the examples *)

(** A project at [/srv/proj] with a requirements list of a comment, an
    include option, one pinned requirement and blank lines. *)
Definition requirements_text : string :=
  "# comment" +++ newline +++ "-r other.txt" +++ newline +++ "requests>=2.0"
  +++ newline +++ newline.

Definition fs_requirements : node :=
  Dir 4096 true
    [("srv", Dir 4096 true
       [("proj", Dir 4096 true
          [("requirements.txt", File 40 requirements_text)])])].

(** Three files around the size cap. *)
Definition fs_cap : node :=
  Dir 4096 true
    [("at_cap", File 1048576 "text at the cap");
     ("over", File 1048577 "text over the cap")].

(** A project with a Pipfile that declares a dependency. *)
Definition fs_pipfile : node :=
  Dir 4096 true
    [("proj", Dir 4096 true
       [("Pipfile", File 30 ("[packages]" +++ newline +++ "requests = '*'"))])].

(** A project at [/proj] and a readable file outside it. *)
Definition fs_outside : node :=
  Dir 4096 true
    [("proj", Dir 4096 true [("main.py", File 9 "import os")]);
     ("etc", Dir 4096 true [("motd", File 5 "hello")])].

(** A project kept below a directory named [build]: [/srv/build/proj] holds
    [main.py] and [pkg/util.py]. *)
Definition fs_build : node :=
  Dir 4096 true
    [("srv", Dir 4096 true
       [("build", Dir 4096 true
          [("proj", Dir 4096 true
             [("main.py", File 9 "import os");
              ("pkg", Dir 4096 true [("util.py", File 0 "")])])])])].

(** A project whose one source file imports [os] twice. *)
Definition fs_imports : node :=
  Dir 4096 true
    [("proj", Dir 4096 true
       [("app.py", File 34 ("import os" +++ newline +++ "from os.path import join"))])].

(** A project whose one source file has a lower-case note on its second
    line. *)
Definition fs_todo : node :=
  Dir 4096 true
    [("proj", Dir 4096 true
       [("notes.py", File 18 ("x = 1" +++ newline +++ "    # todo: fix"))])].

(** A project with files at the first and second level, an empty
    directory, and a file in a version-control directory that holds no
    file of the project. *)
Definition fs_tree : node :=
  Dir 4096 true
    [("proj", Dir 4096 true
       [("README.md", File 120 "readme");
        ("src", Dir 4096 true [("app.py", File 2048 "import os")]);
        ("empty", Dir 4096 true []);
        (".git", Dir 4096 true [])])].


(** * Notions used to state the properties *)

(** [import_counts.get(module, 0)] *)
Definition count_of (module : string) (import_counts : tally) : nat :=
  match assoc module import_counts with
  | Some v => v
  | None => 0
  end.

(** The module a trimmed line names, by one pattern or the other. *)
Definition import_group (line : string) : option string :=
  match match_import line with
  | Some g => Some g
  | None => match_from line
  end.

(** [line] is an import of a module whose top-level component is [module]. *)
Definition imports_module (module : string) (line : string) : bool :=
  match import_group (Str.strip line) with
  | Some g => String.eqb (top_level g) module
  | None => false
  end.

(** The lines of the source files that can be read, file after file. *)
Definition source_lines (fs : node) (self : engine) : list string :=
  flat_map (fun file_path =>
              match _read_file_content fs file_path with
              | Ok content => Str.split newline content
              | Raise _ => []
              end)
           (_get_python_files fs self).

(** ** Sizes, said on the numbers *)




(** The names of a path are within what the system takes: at most 255
    bytes for a name and 4095 for the path.  Within these limits a path
    that denotes nothing is answered by the system with the error that
    [exists()] takes as absence. *)
Definition names_fit (p : path) : bool :=
  forallb (fun c => (String.length c <=? 255)%nat) p
  && (String.length (path_str p) <=? 4095)%nat.

(** ** Where a file lies *)

(** The file that the absolute path of components [parts] denotes lies
    under the directory [root]: the components, each [..] taken out with
    the component before it, start with those of [root]. *)
Definition located_under (root : path) (parts : list string) : bool :=
  is_prefix root (normalize [] parts).

(** A path written with one leading slash, or with three or more, is
    rooted at [/]; written with exactly two it keeps a root of its own in
    [pathlib], which no path rooted at [/] is relative to. *)
Definition single_root (s : string) : bool :=
  negb (Str.startswith "//" s) || Str.startswith "///" s.

(** ** White space, said on the text

    The notions below are stated from the list of the white space
    characters alone, without the functions that strip and split. *)

(** A text made of white space characters only. *)
Inductive blank : string -> Prop :=
| blank_nil : blank ""
| blank_cons (w s : string) : In w Str.WHITESPACE -> blank s -> blank (w +++ s).

(** [s] starts, or ends, with a white space character. *)
Definition starts_space (s : string) : Prop :=
  exists w r, In w Str.WHITESPACE /\ s = w +++ r.

Definition ends_space (s : string) : Prop :=
  exists w r, In w Str.WHITESPACE /\ s = r +++ w.

(** [t] is [line] without the white space at its two ends. *)
Definition trimmed (line t : string) : Prop :=
  exists l r, line = l +++ t +++ r /\ blank l /\ blank r
              /\ ~ starts_space t /\ ~ ends_space t.

(** [sub] occurs in [s]. *)
Definition substring (sub s : string) : Prop := exists a b, s = a +++ sub +++ b.

(** The lines of a text: the pieces between its newline characters. *)
Definition lines_of (content : string) (lines : list string) : Prop :=
  lines <> [] /\ Str.join newline lines = content
  /\ Forall (fun line => ~ substring newline line) lines.

(** ** Import lines, said on the text *)

(** [s] starts with white space or a comma. *)
Definition token_stop (s : string) : Prop :=
  starts_space s \/ exists r, s = "," +++ r.

(** [g] is the module token in front of [rest]: a run that is not empty,
    in which no white space and no comma starts, and that ends where the
    text ends or such a character starts. *)
Definition module_token (g rest : string) : Prop :=
  g <> ""
  /\ (forall a b, g = a +++ b -> b <> "" -> ~ token_stop (b +++ rest))
  /\ (rest = "" \/ token_stop rest).

(** The trimmed line [t] is [import <module>] with the module token [g]:
    the word, white space, the token. *)
Definition import_line (t g : string) : Prop :=
  exists ws rest,
    t = "import" +++ ws +++ g +++ rest /\ ws <> "" /\ blank ws /\ module_token g rest.

(** The trimmed line [t] is [from <module> import] with the module token
    [g]: the word, white space, the token, white space, the word
    [import]. *)
Definition from_line (t g : string) : Prop :=
  exists ws ws' rest,
    t = "from" +++ ws +++ g +++ ws' +++ "import" +++ rest
    /\ ws <> "" /\ blank ws /\ ws' <> "" /\ blank ws'
    /\ module_token g (ws' +++ "import" +++ rest).

(** [m] is the top-level component of the module [g]: the text of [g]
    before its first dot, the whole of [g] when it has none. *)
Definition top_component (g m : string) : Prop :=
  (g = m \/ exists r, g = m +++ "." +++ r) /\ ~ substring "." m.

(** The test of one line against the query, as the search makes it. *)
Definition line_hits (lower : string -> string) (query : string) (case_sensitive : bool)
    (line : string) : bool :=
  Str.contains (if case_sensitive then query else lower query)
               (if case_sensitive then line else lower line).

(** What is known of [str.lower] without the tables: on a text of the
    ASCII range it turns the letters [A] to [Z] into [a] to [z] and leaves
    the rest. *)
Definition lower_on_ascii (lower : string -> string) : Prop :=
  forall s, Str.is_ascii s = true -> lower s = Str.ascii_lower s.

(** ** The tree walk, line by line *)

(** A line of the rendered tree: its depth and the path of its entry below
    the directory where the walk started ([dir] is the directory that could
    not be listed). *)
Inductive tree_line : Type :=
| FolderLine (depth : Z) (p : list string)
| FileLine (depth : Z) (p : list string) (sz : N)
| DeniedLine (depth : Z) (dir : list string).

Definition line_depth (l : tree_line) : Z :=
  match l with
  | FolderLine d _ => d
  | FileLine d _ _ => d
  | DeniedLine d _ => d
  end.

Definition line_path (l : tree_line) : list string :=
  match l with
  | FolderLine _ p => p
  | FileLine _ p _ => p
  | DeniedLine _ dir => dir
  end.

Definition tree_indent (depth : Z) : string := Str.repeat_str "  " (Z.to_nat depth).

(** The text of a line, as the walk writes it. *)
Definition line_text (lower : string -> string) (l : tree_line) : string :=
  match l with
  | FolderLine d p => folder_line (tree_indent d) (last p "")
  | FileLine d p sz => file_line lower (tree_indent d) (last p "") sz
  | DeniedLine d _ => denied_line (tree_indent d)
  end.

(** The walk of [tree_of_dir], yielding the lines one by one instead of
    their text; [dir] is the path of the directory walked. *)
Fixpoint walk_dir (lower : string -> string) (fuel : nat) (listable : bool)
    (es : list (string * node))
    (max_depth : Z) (include_hidden : bool) (current_depth : Z) (dir : list string)
    {struct fuel} : list tree_line :=
  match fuel with
  | O => []
  | S fuel' =>
      if (current_depth >=? max_depth)%Z then []
      else if listable
      then flat_map
             (fun item =>
                if skipped include_hidden item then []
                else match snd item with
                     | Dir _ l' es' =>
                         FolderLine current_depth (dir ++ [fst item]) ::
                         (if (current_depth <? max_depth - 1)%Z
                          then walk_dir lower fuel' l' es' max_depth include_hidden
                                 (current_depth + 1) (dir ++ [fst item])
                          else [])
                     | File sz _ => [FileLine current_depth (dir ++ [fst item]) sz]
                     end)
             (sorted (tree_key_le lower) es)
      else [DeniedLine current_depth dir]
  end.

(** The node at the relative path [p] below a directory of entries [es]. *)
Fixpoint find_rel (es : list (string * node)) (p : list string) : option node :=
  match p with
  | [] => None
  | c :: p' =>
      match p' with
      | [] => find_entry c es
      | _ :: _ =>
          match find_entry c es with
          | Some (Dir _ _ es') => find_rel es' p'
          | _ => None
          end
      end
  end.

Fixpoint nodupb (l : list string) : bool :=
  match l with
  | [] => true
  | x :: l' => negb (Str.mem x l') && nodupb l'
  end.

(** The names of the entries of each directory are distinct. *)
Fixpoint unique_names (n : node) : bool :=
  match n with
  | File _ _ => true
  | Dir _ _ es =>
      nodupb (map fst es) && forallb (fun e => unique_names (snd e)) es
  end.

(** [n] is a file or a directory with a file somewhere below it. *)
Fixpoint has_file (n : node) : bool :=
  match n with
  | File _ _ => true
  | Dir _ _ es => existsb (fun e => has_file (snd e)) es
  end.

(** Every file below the directory [n] lies at most [levels] levels down,
    and no entry on the way to it is hidden (when hidden entries are not
    included) or an excluded directory, or is a directory that cannot be
    listed. *)
Fixpoint files_shown (include_hidden : bool) (levels : nat) (n : node) : bool :=
  match n with
  | File _ _ => true
  | Dir _ listable es =>
      forallb (fun e =>
                 negb (has_file (snd e))
                 || (listable && (0 <? levels)%nat && negb (skipped include_hidden e)
                     && files_shown include_hidden (levels - 1) (snd e)))
              es
  end.

(** The line of the entry [n] at the depth [d] and the path [p]. *)
Definition line_at (n : node) (d : Z) (p : list string) : tree_line :=
  match n with
  | File sz _ => FileLine d p sz
  | Dir _ _ _ => FolderLine d p
  end.

(** The line of the entry [n] found at the relative path [p] from the
    directory where the walk starts, at depth zero. *)
Definition line_of (n : node) (p : list string) : tree_line :=
  line_at n (Z.of_nat (List.length p) - 1) p.

(** ** The entries that a walk shows, said on the tree *)

(** An entry that the walk passes over: a name that starts with a dot,
    unless hidden entries are asked for, or a directory whose name is in
    the exclusion list. *)
Definition is_skipped (include_hidden : bool) (name : string) (n : node) : Prop :=
  (include_hidden = false /\ exists r, name = "." +++ r)
  \/ (node_is_dir n = true /\ In name EXCLUDE_DIRS).

(** [visible include_hidden levels es p n]: the entry [n] lies at the
    relative path [p] below a directory of entries [es], at most [levels]
    levels down; no entry on the way, [n] included, is passed over, and
    every directory on the way, [n] apart, can be listed. *)
Inductive visible (include_hidden : bool) :
    nat -> list (string * node) -> list string -> node -> Prop :=
| visible_entry (levels : nat) (es : list (string * node)) (name : string) (n : node) :
    In (name, n) es -> ~ is_skipped include_hidden name n ->
    visible include_hidden (S levels) es [name] n
| visible_below (levels : nat) (es : list (string * node)) (name : string) (sz : N)
    (es' : list (string * node)) (p : list string) (n : node) :
    In (name, Dir sz true es') es -> ~ is_skipped include_hidden name (Dir sz true es') ->
    visible include_hidden levels es' p n ->
    visible include_hidden (S levels) es (name :: p) n.

(** The lines that the walk of a directory that can be listed should
    have: the line of every visible entry, and a denial line for every
    visible directory that cannot be listed and lies above the last
    level. *)
Definition expected_line (include_hidden : bool) (levels : nat)
    (es : list (string * node)) (l : tree_line) : Prop :=
  (exists p n, visible include_hidden levels es p n
               /\ l = line_at n (Z.of_nat (List.length p) - 1) p)
  \/ (exists p sz es', visible include_hidden levels es p (Dir sz false es')
                       /\ (List.length p < levels)%nat
                       /\ l = DeniedLine (Z.of_nat (List.length p)) p).

(** Every file below the directory [n] lies at most [levels] levels down,
    and no entry on the way to it is hidden (when hidden entries are not
    included) or an excluded directory. *)
Fixpoint files_within (include_hidden : bool) (levels : nat) (n : node) : bool :=
  match n with
  | File _ _ => true
  | Dir _ _ es =>
      forallb (fun e =>
                 negb (has_file (snd e))
                 || ((0 <? levels)%nat && negb (skipped include_hidden e)
                     && files_within include_hidden (levels - 1) (snd e)))
              es
  end.

(** A root with a file, a directory without any file, and a directory
    that cannot be listed and holds a file. *)
Definition es_three : list (string * node) :=
  [("a.txt", File 1 "x");
   ("empty", Dir 4096 true []);
   ("locked", Dir 4096 false [("b.txt", File 1 "y")])].

(** The project [/proj] with these entries. *)
Definition fs_three : node := Dir 4096 true [("proj", Dir 4096 true es_three)].

(** The line [l] belongs to the walk of the directory [dir] at the depth
    [current_depth]: its path continues [dir], by as many components as
    its depth tells, and its depth is below [max_depth]. *)
Definition line_below (max_depth current_depth : Z) (dir : list string)
    (l : tree_line) : Prop :=
  exists rel,
    line_path l = dir ++ rel
    /\ (current_depth <= line_depth l < max_depth)%Z
    /\ Z.of_nat (List.length rel)
       = (line_depth l - current_depth
          + match l with DeniedLine _ _ => 0 | _ => 1 end)%Z.

(** Two lists of strings that join to the same text and are empty
    together. *)
Definition same_text (R R' : list string) : Prop :=
  (R = [] <-> R' = []) /\ Str.join newline R = Str.join newline R'.

(** Two blocks that can replace each other in front of any such lists. *)
Definition same_block (B B' : list string) : Prop :=
  forall R R', same_text R R' -> same_text (B ++ R) (B' ++ R').


(** Induction on a filesystem tree, with the hypothesis for every entry of
    a directory. *)
Section NodeInduction.
Variable P : node -> Prop.
Hypothesis HFile : forall sz text, P (File sz text).
Hypothesis HDir : forall sz listable es,
  Forall (fun e => P (snd e)) es -> P (Dir sz listable es).

Fixpoint node_induction (n : node) : P n :=
  match n with
  | File sz text => HFile sz text
  | Dir sz listable es =>
      HDir sz listable es
        ((fix entries (es : list (string * node)) : Forall (fun e => P (snd e)) es :=
            match es with
            | [] => Forall_nil _
            | e :: es' => Forall_cons e (node_induction (snd e)) (entries es')
            end) es)
  end.
End NodeInduction.


(** * Notions used by the further properties *)

(** The last character of a string. *)
Fixpoint last_char (s : string) : option ascii :=
  match s with
  | EmptyString => None
  | String c s' =>
      match last_char s' with
      | Some d => Some d
      | None => Some c
      end
  end.

(** A line that opens a dependency section of a [pyproject.toml]. *)
Definition is_deps_header (line : string) : bool :=
  Str.startswith "[tool.poetry.dependencies]" line
  || Str.startswith "dependencies = [" line.

(** A project with a [pyproject.toml] that pins the language and declares
    one dependency. *)
Definition pyproject_text : string :=
  "[tool.poetry.dependencies]" +++ newline +++ "python = '^3.8'" +++ newline
  +++ "requests = '^2.0'" +++ newline +++ "[tool.poetry.dev-dependencies]" +++ newline
  +++ "pytest = '^7'".

Definition fs_pyproject : node :=
  Dir 4096 true
    [("proj", Dir 4096 true [("pyproject.toml", File 120 pyproject_text)])].

(** A project whose [pyproject.toml] has no dependency section. *)
Definition plain_text : string :=
  "[build-system]" +++ newline +++ "requires = ['setuptools']".

Definition fs_plain : node :=
  Dir 4096 true
    [("proj", Dir 4096 true [("pyproject.toml", File 42 plain_text)])].

(** A project with a [setup.py] that requires two packages with version
    constraints. *)
Definition fs_setup : node :=
  Dir 4096 true
    [("proj", Dir 4096 true
       [("setup.py",
         File 80 ("setup(name='demo'," +++ newline
                  +++ "      install_requires=['requests>=2.0', 'flask==2.1'])"))])].

(** [line] is an import line: once trimmed it matches one of the two
    patterns. *)
Definition is_import (line : string) : bool :=
  match import_group (Str.strip line) with
  | Some _ => true
  | None => false
  end.

(** What a tally keeps: distinct modules, counts of one at least. *)
Definition tally_ok (counts : tally) : Prop :=
  NoDup (map fst counts) /\ Forall (fun kv => 1 <= snd kv) counts.

(** A root with a directory that cannot be listed, and an empty project. *)
Definition fs_locked : node :=
  Dir 4096 true
    [("vault", Dir 4096 false [("secret.py", File 10 "import os")]);
     ("fresh", Dir 4096 true []);
     ("notes.txt", File 5 "hello")].

(** A path argument that the system takes as it is written: it has no
    NUL byte, which [resolve()] refuses, and is rooted at [/] when it is
    absolute. *)
Definition plain_argument (p : string) : bool :=
  negb (Str.contains (String (ascii_of_nat 0) EmptyString) p) && single_root p.

(** A project kept below a directory named [tests]. *)
Definition fs_testdir : node :=
  Dir 4096 true
    [("tests", Dir 4096 true
       [("proj", Dir 4096 true [("main.py", File 9 "import os")])])].

(** The entry reached from the directory [n] by the components [rel],
    every directory on the way being one that can be listed. *)
Fixpoint reach (n : node) (rel : list string) : option node :=
  match rel with
  | [] => Some n
  | c :: rel' =>
      match n with
      | Dir _ true es =>
          match find_entry c es with
          | Some m => reach m rel'
          | None => None
          end
      | _ => None
      end
  end.


(** * Properties *)

(** ** Strings *)

Lemma append_assoc (a b c : string) : (a +++ b) +++ c = a +++ b +++ c.
Proof. induction a as [|x a IH]; simpl; [reflexivity | now rewrite IH]. Qed.

Lemma append_nil_r (a : string) : a +++ "" = a.
Proof. induction a as [|c a IH]; simpl; [reflexivity | now rewrite IH]. Qed.

Lemma append_eq_nil (a b : string) : a +++ b = "" -> a = "" /\ b = "".
Proof. destruct a; simpl; [auto | discriminate]. Qed.

Lemma append_length (a b : string) :
  String.length (a +++ b) = String.length a + String.length b.
Proof. induction a as [|x a IH]; simpl; [reflexivity | now rewrite IH]. Qed.

Lemma drop_prefix_spec (p s r : string) :
  drop_prefix p s = Some r -> s = p +++ r.
Proof.
  revert s. induction p as [|a p IH]; intros s H; simpl in *.
  - now inversion H.
  - destruct s as [|b s]; [discriminate|].
    destruct (Ascii.eqb_spec a b) as [->|]; [|discriminate].
    now rewrite (IH _ H).
Qed.

Lemma drop_prefix_app (p r : string) : drop_prefix p (p +++ r) = Some r.
Proof.
  induction p as [|a p IH]; simpl; [reflexivity|]. now rewrite Ascii.eqb_refl.
Qed.

Lemma startswith_spec (p s : string) :
  Str.startswith p s = true -> exists r, s = p +++ r.
Proof.
  revert s. induction p as [|a p IH]; intros s H; simpl in *.
  - now exists s.
  - destruct s as [|b s]; [discriminate|].
    apply andb_prop in H. destruct H as [E H]. apply Ascii.eqb_eq in E. subst b.
    destruct (IH _ H) as [r ->]. now exists r.
Qed.

Lemma startswith_app (p r : string) : Str.startswith p (p +++ r) = true.
Proof.
  induction p as [|a p IH]; simpl; [reflexivity|]. now rewrite Ascii.eqb_refl.
Qed.

Lemma startswith_iff (p s : string) :
  Str.startswith p s = true <-> exists r, s = p +++ r.
Proof.
  split; [apply startswith_spec|]. intros [r ->]. apply startswith_app.
Qed.

Lemma drop_app (a b : string) : Str.drop (String.length a) (a +++ b) = b.
Proof. induction a as [|x a IH]; simpl; [now destruct b | exact IH]. Qed.

(** [sub in s] holds exactly when [sub] occurs in [s]. *)
Lemma contains_spec (sub s : string) :
  Str.contains sub s = true <-> substring sub s.
Proof.
  unfold substring. induction s as [|c s IH]; simpl.
  - rewrite orb_false_r. split.
    + intros H. apply startswith_spec in H. destruct H as [r H]. now exists "", r.
    + intros [a [b H]]. symmetry in H. apply append_eq_nil in H. destruct H as [-> H].
      apply append_eq_nil in H. destruct H as [-> _]. reflexivity.
  - split.
    + intros H. apply orb_prop in H. destruct H as [H | H].
      * apply startswith_spec in H. destruct H as [r H]. now exists "", r.
      * apply IH in H. destruct H as [a [b ->]]. now exists (String c a), b.
    + intros [[|x a] [b H]].
      * simpl in H. rewrite H, startswith_app. reflexivity.
      * simpl in H. inversion H; subst. apply orb_true_intro. right.
        apply IH. now exists a, b.
Qed.

(** ** White space *)

Lemma whitespace_nonempty (w : string) : In w Str.WHITESPACE -> w <> "".
Proof.
  intros H. cbv [Str.WHITESPACE Str.utf8 map fold_right] in H.
  repeat (destruct H as [<-|H]; [discriminate|]). destruct H.
Qed.

(** No white space character is the beginning of another one. *)
Lemma space_width_whitespace (w r : string) :
  In w Str.WHITESPACE -> Str.space_width (w +++ r) = String.length w.
Proof.
  intros H. cbv [Str.WHITESPACE Str.utf8 map fold_right] in H.
  repeat (destruct H as [<-|H]; [reflexivity|]). destruct H.
Qed.

Lemma space_width_inv (s : string) (k : nat) :
  Str.space_width s = S k ->
  exists w r, In w Str.WHITESPACE /\ s = w +++ r /\ String.length w = S k.
Proof.
  unfold Str.space_width.
  destruct (find (fun w => Str.startswith w s) Str.WHITESPACE) as [w|] eqn:E;
    [|discriminate].
  apply find_some in E. destruct E as [Hin Hs].
  apply startswith_spec in Hs. destruct Hs as [r ->].
  intros H. now exists w, r.
Qed.

Lemma space_width_zero (s : string) :
  Str.space_width s = 0 <-> ~ starts_space s.
Proof.
  split.
  - intros H [w [r [Hw ->]]]. rewrite (space_width_whitespace _ _ Hw) in H.
    apply (whitespace_nonempty _ Hw). now destruct w.
  - intros H. destruct (Str.space_width s) as [|k] eqn:E; [reflexivity|].
    exfalso. apply H. destruct (space_width_inv _ _ E) as [w [r [Hw [-> _]]]].
    now exists w, r.
Qed.

Lemma starts_with_space_spec (s : string) :
  starts_with_space s = true <-> starts_space s.
Proof.
  unfold starts_with_space. rewrite negb_true_iff, Nat.eqb_neq. split.
  - intros H. destruct (Str.space_width s) as [|k] eqn:E; [contradiction|].
    destruct (space_width_inv _ _ E) as [w [r [Hw [-> _]]]]. now exists w, r.
  - intros H E. now apply space_width_zero in E.
Qed.

Lemma starts_with_space_false (s : string) :
  starts_with_space s = false <-> ~ starts_space s.
Proof.
  rewrite <- starts_with_space_spec. now destruct (starts_with_space s).
Qed.

Lemma blank_app (a b : string) : blank a -> blank b -> blank (a +++ b).
Proof.
  induction 1 as [|w s Hw Hs IH]; intros Hb; [exact Hb|].
  rewrite append_assoc. constructor; auto.
Qed.

Lemma blank_one (w : string) : In w Str.WHITESPACE -> blank w.
Proof. intros H. rewrite <- (append_nil_r w). constructor; [exact H | constructor]. Qed.

(** *** [lstrip] *)

Lemma lstrip_aux_drop (s : string) :
  forall k, Str.lstrip_aux k s = Str.lstrip (Str.drop k s).
Proof.
  induction s as [|c s IH]; intros [|k]; try reflexivity.
  simpl Str.drop. apply IH.
Qed.

Lemma lstrip_eq (s : string) :
  Str.lstrip s = match Str.space_width s with
                 | O => s
                 | S k => Str.lstrip (Str.drop (S k) s)
                 end.
Proof.
  destruct s as [|c s]; [reflexivity|].
  unfold Str.lstrip at 1. cbn [Str.lstrip_aux].
  destruct (Str.space_width (String c s)); [reflexivity|].
  exact (lstrip_aux_drop s _).
Qed.

Lemma lstrip_fixed (s : string) : ~ starts_space s -> Str.lstrip s = s.
Proof. intros H. apply space_width_zero in H. now rewrite lstrip_eq, H. Qed.

Lemma lstrip_whitespace (w r : string) :
  In w Str.WHITESPACE -> Str.lstrip (w +++ r) = Str.lstrip r.
Proof.
  intros Hw. rewrite lstrip_eq, (space_width_whitespace _ _ Hw).
  destruct (String.length w) as [|k] eqn:E.
  - exfalso. apply (whitespace_nonempty _ Hw). now destruct w.
  - now rewrite <- E, drop_app.
Qed.

Lemma lstrip_blank (ws r : string) : blank ws -> Str.lstrip (ws +++ r) = Str.lstrip r.
Proof.
  induction 1 as [|w s Hw Hs IH]; [reflexivity|].
  now rewrite append_assoc, lstrip_whitespace.
Qed.

(** [lstrip] takes off a run of white space, and what it leaves does not
    start with white space. *)
Lemma lstrip_spec (s : string) :
  exists ws, s = ws +++ Str.lstrip s /\ blank ws /\ ~ starts_space (Str.lstrip s).
Proof.
  remember (String.length s) as n eqn:Hn. revert s Hn.
  induction n as [n IH] using lt_wf_ind. intros s Hn.
  rewrite lstrip_eq. destruct (Str.space_width s) as [|k] eqn:E.
  - exists "". repeat split; [constructor | now apply space_width_zero].
  - destruct (space_width_inv _ _ E) as [w [r [Hw [-> Hlen]]]].
    rewrite <- Hlen, drop_app.
    destruct (IH (String.length r)) with (s := r) as [ws [H1 [H2 H3]]];
      [rewrite Hn, append_length; lia | reflexivity |].
    exists (w +++ ws). rewrite append_assoc, <- H1.
    repeat split; [now constructor | assumption].
Qed.

Lemma is_blank_spec (s : string) : Str.is_blank s = true <-> blank s.
Proof.
  unfold Str.is_blank. rewrite String.eqb_eq. split.
  - intros H. destruct (lstrip_spec s) as [ws [H1 [H2 _]]].
    rewrite H, append_nil_r in H1. now subst.
  - intros H. rewrite <- (append_nil_r s). now rewrite lstrip_blank.
Qed.

(** *** [rstrip] and [strip] *)

(** [rstrip] takes off a run of white space, and what it leaves does not
    end with white space. *)
Lemma rstrip_spec (s : string) :
  exists r, s = Str.rstrip s +++ r /\ blank r /\ ~ ends_space (Str.rstrip s).
Proof.
  induction s as [|c s [r [H1 [H2 H3]]]].
  - exists "". repeat split; [constructor|].
    intros [w [x [Hw H]]]. symmetry in H. apply append_eq_nil in H.
    destruct H as [_ ->]. now apply (whitespace_nonempty _ Hw).
  - cbn [Str.rstrip]. destruct (Str.is_blank (String c s)) eqn:E.
    + exists (String c s). repeat split; [now apply is_blank_spec|].
      intros [w [x [Hw H]]]. symmetry in H. apply append_eq_nil in H.
      destruct H as [_ ->]. now apply (whitespace_nonempty _ Hw).
    + exists r. repeat split; [simpl; now rewrite <- H1 | assumption|].
      intros [w [x [Hw H]]]. destruct x as [|d x]; simpl in H.
      * assert (Hb : blank (String c s)).
        { rewrite H1. change (String c (Str.rstrip s +++ r))
            with (String c (Str.rstrip s) +++ r).
          rewrite H. apply blank_app; [now apply blank_one | assumption]. }
        apply is_blank_spec in Hb. congruence.
      * inversion H; subst d. apply H3. now exists w, x.
Qed.

Lemma rstrip_prefix (s : string) : Str.startswith (Str.rstrip s) s = true.
Proof.
  destruct (rstrip_spec s) as [r [H _]]. rewrite H at 2. apply startswith_app.
Qed.

(** [strip] gives the line without the white space at its two ends. *)
Lemma strip_trimmed (line : string) : trimmed line (Str.strip line).
Proof.
  unfold Str.strip.
  destruct (lstrip_spec line) as [l [H1 [H2 H3]]].
  destruct (rstrip_spec (Str.lstrip line)) as [r [H4 [H5 H6]]].
  exists l, r. repeat split; auto.
  - now rewrite <- H4.
  - intros [w [x [Hw H]]]. apply H3. rewrite H4, H, append_assoc. now exists w, (x +++ r).
Qed.

(** *** The encoding keeps the characters apart *)

Lemma append_eq_cases (a b c d : string) :
  a +++ b = c +++ d ->
  (exists e, c = a +++ e /\ b = e +++ d) \/ (exists e, a = c +++ e /\ d = e +++ b).
Proof.
  revert c. induction a as [|x a IH]; intros c H.
  - left. exists c. split; [reflexivity | exact H].
  - destruct c as [|y c].
    + right. exists (String x a). split; [reflexivity | now symmetry].
    + simpl in H. inversion H; subst y.
      destruct (IH _ H2) as [[e [-> ->]] | [e [-> ->]]].
      * left. now exists e.
      * right. now exists e.
Qed.

(** A white space character starts with a byte that starts a character. *)
Lemma whitespace_first (w : string) :
  In w Str.WHITESPACE ->
  exists c r, w = String c r /\ Str.is_continuation c = false.
Proof.
  intros H. cbv [Str.WHITESPACE Str.utf8 map fold_right] in H.
  repeat (destruct H as [<-|H]; [eexists _, _; split; reflexivity|]). destruct H.
Qed.

(** Its other bytes continue a character. *)
Lemma whitespace_continued (w a b : string) (c : ascii) :
  In w Str.WHITESPACE -> w = a +++ String c b -> a <> "" ->
  Str.is_continuation c = true.
Proof.
  intros H E Ha. cbv [Str.WHITESPACE Str.utf8 map fold_right] in H.
  destruct a as [|a0 [|a1 [|a2 [|a3 a]]]]; [contradiction| | | |];
    repeat (destruct H as [<-|H]; [simpl in E; inversion E; reflexivity|]);
    destruct H.
Qed.

Lemma blank_first (s : string) :
  blank s -> s = "" \/ exists c r, s = String c r /\ Str.is_continuation c = false.
Proof.
  intros [|w r Hw Hr]; [now left|]. right.
  destruct (whitespace_first _ Hw) as [c [w' [-> Hc]]]. now exists c, (w' +++ r).
Qed.

(** White space that follows a text cannot make it start with white
    space. *)
Lemma starts_space_app (t r : string) :
  t <> "" -> blank r -> starts_space (t +++ r) -> starts_space t.
Proof.
  intros Ht Hr [w [x [Hw E]]].
  destruct (append_eq_cases _ _ _ _ E) as [[e [-> He]] | [e [-> _]]].
  - destruct e as [|c e].
    + rewrite append_nil_r in Hw. exists t, "". now rewrite append_nil_r.
    + pose proof (whitespace_continued _ _ _ _ Hw eq_refl Ht) as Hc.
      destruct (blank_first _ Hr) as [-> | [c' [r' [-> Hc']]]]; [discriminate|].
      simpl in He. inversion He; subst. congruence.
  - now exists w, e.
Qed.

(** A text that white space completes to white space is white space. *)
Lemma blank_cancel (s : string) :
  blank s -> forall b r, s = b +++ r -> blank r -> blank b.
Proof.
  induction 1 as [|w s Hw Hs IH]; intros b r E Hr.
  - symmetry in E. apply append_eq_nil in E. destruct E as [-> _]. constructor.
  - symmetry in E. destruct (append_eq_cases _ _ _ _ E) as [[e [-> He]] | [e [-> He]]].
    + destruct b as [|b0 b]; [constructor|].
      destruct e as [|c e].
      * rewrite append_nil_r in Hw. now apply blank_one.
      * assert (Hc : Str.is_continuation c = true)
          by (apply (whitespace_continued _ _ _ _ Hw eq_refl); discriminate).
        destruct (blank_first _ Hr) as [-> | [c' [r' [-> Hc']]]]; [discriminate|].
        simpl in He. inversion He; subst. congruence.
    + constructor; [exact Hw|]. apply (IH e r); [now symmetry | exact Hr].
Qed.

Lemma blank_ends (s : string) : blank s -> s <> "" -> ends_space s.
Proof.
  induction 1 as [|w s Hw Hs IH]; intros H; [contradiction|].
  destruct s as [|c s].
  - rewrite append_nil_r. exists w, "". split; [exact Hw | reflexivity].
  - destruct IH as [w' [x [Hw' E]]]; [discriminate|].
    exists w', (w +++ x). split; [exact Hw'|]. now rewrite E, append_assoc.
Qed.

Lemma ends_space_tail (c : ascii) (t : string) :
  ~ ends_space (String c t) -> ~ ends_space t.
Proof. intros H [w [x [Hw ->]]]. apply H. now exists w, (String c x). Qed.

Lemma rstrip_unique (t r : string) :
  ~ ends_space t -> blank r -> Str.rstrip (t +++ r) = t.
Proof.
  intros Ht Hr. induction t as [|c t IH].
  - simpl. destruct r as [|d r]; [reflexivity|]. cbn [Str.rstrip].
    apply is_blank_spec in Hr. now rewrite Hr.
  - simpl append. cbn [Str.rstrip].
    destruct (Str.is_blank (String c (t +++ r))) eqn:E.
    + exfalso. apply is_blank_spec in E. apply Ht.
      apply blank_ends; [|discriminate].
      apply (blank_cancel _ E (String c t) r); [reflexivity | exact Hr].
    + rewrite IH; [reflexivity | now apply ends_space_tail in Ht].
Qed.

(** The trimmed text of a line is what [strip] returns. *)
Lemma strip_unique (line t : string) : trimmed line t -> Str.strip line = t.
Proof.
  intros [l [r [-> [Hl [Hr [H1 H2]]]]]]. unfold Str.strip.
  rewrite lstrip_blank by assumption.
  destruct t as [|c t].
  - simpl. apply is_blank_spec in Hr. unfold Str.is_blank in Hr.
    apply String.eqb_eq in Hr. now rewrite Hr.
  - rewrite lstrip_fixed; [now apply rstrip_unique|].
    intros H. apply H1. apply (starts_space_app _ r); [discriminate | assumption | assumption].
Qed.

Lemma trimmed_iff (line t : string) : trimmed line t <-> Str.strip line = t.
Proof. split; [apply strip_unique | intros <-; apply strip_trimmed]. Qed.

(** *** Runs *)

Lemma run_until_spec (stop : string -> bool) (s g rest : string) :
  run_until stop s = (g, rest) ->
  s = g +++ rest
  /\ (forall a b, g = a +++ b -> b <> "" -> stop (b +++ rest) = false)
  /\ (rest = "" \/ stop rest = true).
Proof.
  revert g rest. induction s as [|c s IH]; intros g rest H; simpl in H.
  - inversion H; subst. repeat split; [|now left].
    intros a b E. symmetry in E. apply append_eq_nil in E. tauto.
  - destruct (stop (String c s)) eqn:Hc.
    + inversion H; subst. repeat split; [|now right].
      intros a b E. symmetry in E. apply append_eq_nil in E. tauto.
    + destruct (run_until stop s) as [g' r'] eqn:Hs. inversion H; subst.
      destruct (IH _ _ eq_refl) as [H1 [H2 H3]].
      repeat split; [simpl; now rewrite <- H1 | | assumption].
      intros a b E Hb. destruct a as [|x a]; simpl in E.
      * subst b. simpl. now rewrite <- H1.
      * inversion E; subst. now apply (H2 a b).
Qed.

Lemma run_until_complete (stop : string -> bool) (g rest : string) :
  (forall a b, g = a +++ b -> b <> "" -> stop (b +++ rest) = false) ->
  (rest = "" \/ stop rest = true) ->
  run_until stop (g +++ rest) = (g, rest).
Proof.
  intros H1 H2. induction g as [|c g IH]; simpl.
  - destruct rest as [|d rest]; [reflexivity|]. simpl.
    destruct H2 as [H2 | H2]; [discriminate | now rewrite H2].
  - change (String c (g +++ rest)) with (String c g +++ rest).
    rewrite (H1 "" (String c g) eq_refl) by discriminate.
    rewrite IH; [reflexivity|].
    intros a b E Hb. apply (H1 (String c a) b); [simpl; now rewrite E | exact Hb].
Qed.

Lemma module_stop_spec (s : string) : module_stop s = true <-> token_stop s.
Proof.
  unfold module_stop, token_stop.
  rewrite orb_true_iff, starts_with_space_spec, startswith_iff. reflexivity.
Qed.

Lemma module_stop_false (s : string) : module_stop s = false <-> ~ token_stop s.
Proof. rewrite <- module_stop_spec. now destruct (module_stop s). Qed.

Lemma run_until_module (g rest : string) :
  module_token g rest -> run_until module_stop (g +++ rest) = (g, rest).
Proof.
  intros [_ [H1 H2]]. apply run_until_complete.
  - intros a b E Hb. apply module_stop_false. now apply (H1 a b).
  - destruct H2 as [H2 | H2]; [now left | right; now apply module_stop_spec].
Qed.

Lemma module_token_spec (s g rest : string) :
  run_until module_stop s = (g, rest) -> g <> "" -> s = g +++ rest /\ module_token g rest.
Proof.
  intros H Hg. destruct (run_until_spec _ _ _ _ H) as [H1 [H2 H3]].
  split; [exact H1|]. repeat split; [exact Hg | |].
  - intros a b E Hb. apply module_stop_false. now apply (H2 a b).
  - destruct H3 as [H3 | H3]; [now left | right; now apply module_stop_spec].
Qed.

(** White space, then a text that does not start with white space. *)
Lemma lstrip_blank_fixed (ws x : string) :
  blank ws -> ~ starts_space x -> Str.lstrip (ws +++ x) = x.
Proof. intros H1 H2. rewrite lstrip_blank by assumption. now apply lstrip_fixed. Qed.

Lemma starts_with_space_lstrip (s : string) :
  starts_with_space s = true ->
  exists ws, s = ws +++ Str.lstrip s /\ ws <> "" /\ blank ws.
Proof.
  intros H. destruct (lstrip_spec s) as [ws [H1 [H2 H3]]].
  exists ws. repeat split; auto. intros ->. simpl in H1.
  apply H3. rewrite <- H1. now apply starts_with_space_spec.
Qed.

Lemma token_not_space (g rest : string) : module_token g rest -> ~ starts_space (g +++ rest).
Proof.
  intros [Hg [H _]] Hs. apply (H "" g eq_refl Hg). now left.
Qed.

(** *** The two patterns of the import lines *)

(** [match_import] finds the module token exactly on the lines that are
    [import], white space and a module token. *)
Lemma match_import_spec (t g : string) :
  match_import t = Some g <-> import_line t g.
Proof.
  unfold match_import, import_line. split.
  - intros H.
    destruct (drop_prefix "import" t) as [s1|] eqn:H1; [|discriminate].
    destruct (starts_with_space s1) eqn:H2; [|discriminate].
    destruct (run_until module_stop (Str.lstrip s1)) as [g' rest] eqn:H3.
    destruct (starts_with_space_lstrip _ H2) as [ws [Hs1 [Hws1 Hws2]]].
    destruct g' as [|c g']; [discriminate|]. inversion H; subst g.
    destruct (module_token_spec _ _ _ H3) as [Hg Ht]; [discriminate|].
    exists ws, rest. rewrite (drop_prefix_spec _ _ _ H1).
    repeat split; auto; try apply Ht. now rewrite <- Hg, <- Hs1.
  - intros [ws [rest [-> [Hne [Hws Ht]]]]].
    rewrite drop_prefix_app.
    assert (Hsp : starts_with_space (ws +++ g +++ rest) = true).
    { apply starts_with_space_spec. destruct Hws as [|w s Hw Hs]; [contradiction|].
      rewrite append_assoc. now exists w, (s +++ g +++ rest). }
    rewrite Hsp, (lstrip_blank_fixed _ _ Hws (token_not_space _ _ Ht)).
    rewrite (run_until_module _ _ Ht).
    destruct Ht as [Hg _]. now destruct g.
Qed.

(** [match_from] finds the module token exactly on the lines that are
    [from], white space, a module token, white space and [import]. *)
Lemma match_from_spec (t g : string) :
  match_from t = Some g <-> from_line t g.
Proof.
  unfold match_from, from_line. split.
  - intros H.
    destruct (drop_prefix "from" t) as [s1|] eqn:H1; [|discriminate].
    destruct (starts_with_space s1) eqn:H2; [|discriminate].
    destruct (run_until module_stop (Str.lstrip s1)) as [g' s2] eqn:H3.
    destruct (starts_with_space_lstrip _ H2) as [ws [Hs1 [Hws1 Hws2]]].
    destruct g' as [|c g']; [discriminate|].
    destruct (starts_with_space s2) eqn:H4; [|discriminate]. cbn [andb] in H.
    destruct (Str.startswith "import" (Str.lstrip s2)) eqn:H5; [|discriminate].
    inversion H; subst g.
    destruct (module_token_spec _ _ _ H3) as [Hg Ht]; [discriminate|].
    destruct (starts_with_space_lstrip _ H4) as [ws' [Hs2 [Hws1' Hws2']]].
    destruct (startswith_spec _ _ H5) as [rest Hrest].
    exists ws, ws', rest. rewrite (drop_prefix_spec _ _ _ H1).
    rewrite <- Hrest, <- Hs2. repeat split; auto; try apply Ht.
    now rewrite <- Hg, <- Hs1.
  - intros [ws [ws' [rest [-> [Hne [Hws [Hne' [Hws' Ht]]]]]]]].
    rewrite drop_prefix_app.
    assert (Hsp : starts_with_space (ws +++ g +++ ws' +++ "import" +++ rest) = true).
    { apply starts_with_space_spec. destruct Hws as [|w s Hw Hs]; [contradiction|].
      rewrite append_assoc. now exists w, (s +++ g +++ ws' +++ "import" +++ rest). }
    rewrite Hsp, (lstrip_blank_fixed _ _ Hws (token_not_space _ _ Ht)).
    rewrite (run_until_module _ _ Ht).
    assert (Hsp' : starts_with_space (ws' +++ "import" +++ rest) = true).
    { apply starts_with_space_spec. destruct Hws' as [|w s Hw Hs]; [contradiction|].
      rewrite append_assoc. now exists w, (s +++ "import" +++ rest). }
    rewrite Hsp'. cbn [andb].
    rewrite lstrip_blank_fixed; [| assumption |].
    + rewrite (startswith_app "import" rest). destruct Ht as [Hg _]. now destruct g.
    + intros [w [x [Hw E]]]. cbv [Str.WHITESPACE Str.utf8 map fold_right] in Hw.
      repeat (destruct Hw as [<-|Hw]; [discriminate|]). destruct Hw.
Qed.

(** A line matches one pattern at most. *)
Lemma match_import_not_from (line g : string) :
  match_import line = Some g -> match_from line = None.
Proof.
  unfold match_import. intros H.
  destruct (drop_prefix "import" line) as [s1|] eqn:H1; [|discriminate].
  apply drop_prefix_spec in H1. subst line. reflexivity.
Qed.

(** *** Splitting at a character *)

Lemma join_cons (sep x : string) (l : list string) :
  Str.join sep (x :: l) = match l with [] => x | _ :: _ => x +++ sep +++ Str.join sep l end.
Proof. reflexivity. Qed.

Lemma split_aux_nonempty (sep : string) (s : string) :
  forall skip, Str.split_aux sep skip s <> [].
Proof.
  induction s as [|c s IH]; intros skip; simpl; [discriminate|].
  destruct skip; [|apply IH].
  destruct (Str.startswith sep (String c s)); [discriminate|].
  destruct (Str.split_aux sep 0 s); discriminate.
Qed.

Lemma split_nonempty (sep s : string) : Str.split sep s <> [].
Proof. apply split_aux_nonempty. Qed.

Lemma split_char_cons (c d : ascii) (s : string) :
  Str.split (String c "") (String d s)
  = if Ascii.eqb c d then "" :: Str.split (String c "") s
    else match Str.split (String c "") s with
         | h :: t => String d h :: t
         | [] => [String d ""]
         end.
Proof.
  unfold Str.split. cbn [Str.split_aux Str.startswith String.length Nat.sub].
  now rewrite andb_true_r.
Qed.

Lemma contains_char_cons (c d : ascii) (x : string) :
  Str.contains (String c "") (String d x) = false ->
  Ascii.eqb c d = false /\ Str.contains (String c "") x = false.
Proof.
  cbn [Str.contains Str.startswith]. rewrite andb_true_r.
  intros H. now apply orb_false_elim in H.
Qed.

Lemma split_char_one (c : ascii) (x : string) :
  Str.contains (String c "") x = false -> Str.split (String c "") x = [x].
Proof.
  induction x as [|d x IH]; intros H; [reflexivity|].
  apply contains_char_cons in H. destruct H as [Hc Hx].
  now rewrite split_char_cons, Hc, (IH Hx).
Qed.

Lemma split_char_first (c : ascii) (x s : string) :
  Str.contains (String c "") x = false ->
  Str.split (String c "") (x +++ String c "" +++ s) = x :: Str.split (String c "") s.
Proof.
  induction x as [|d x IH]; intros H.
  - simpl append. now rewrite split_char_cons, Ascii.eqb_refl.
  - apply contains_char_cons in H. destruct H as [Hc Hx].
    change (String d x +++ String c "" +++ s) with (String d (x +++ String c "" +++ s)).
    now rewrite split_char_cons, Hc, (IH Hx).
Qed.

(** Splitting at a character undoes joining with it. *)
Lemma split_char_join (c : ascii) (l : list string) :
  l <> [] -> Forall (fun x => Str.contains (String c "") x = false) l ->
  Str.split (String c "") (Str.join (String c "") l) = l.
Proof.
  induction l as [|x l IH]; intros Hne H; [contradiction|].
  inversion H as [|? ? Hx Hl]; subst. rewrite join_cons.
  destruct l as [|y l].
  - now apply split_char_one.
  - rewrite split_char_first by assumption. f_equal. apply IH; [discriminate | assumption].
Qed.

(** Joining undoes splitting, and no piece holds the character. *)
Lemma join_split_char (c : ascii) (s : string) :
  Str.join (String c "") (Str.split (String c "") s) = s
  /\ Forall (fun x => Str.contains (String c "") x = false) (Str.split (String c "") s).
Proof.
  induction s as [|d s [IH1 IH2]].
  - split; [reflexivity | repeat constructor].
  - rewrite split_char_cons. destruct (Ascii.eqb_spec c d) as [<-|Hcd].
    + split; [|constructor; [reflexivity | assumption]].
      rewrite join_cons. pose proof (split_nonempty (String c "") s) as Hne.
      destruct (Str.split (String c "") s); [contradiction|]. now rewrite IH1.
    + pose proof (split_nonempty (String c "") s) as Hne.
      destruct (Str.split (String c "") s) as [|h t]; [contradiction|].
      pose proof (Forall_inv IH2) as Hh. pose proof (Forall_inv_tail IH2) as Ht.
      simpl in Hh. split.
      * rewrite join_cons in *. destruct t as [|y t]; [now rewrite IH1|].
        change (String d h +++ String c "" +++ Str.join (String c "") (y :: t))
          with (String d (h +++ String c "" +++ Str.join (String c "") (y :: t))).
        now rewrite IH1.
      * constructor; [|assumption].
        cbn [Str.contains Str.startswith]. rewrite andb_true_r, Hh, orb_false_r.
        now apply Ascii.eqb_neq.
Qed.

Lemma not_substring (sub s : string) : Str.contains sub s = false <-> ~ substring sub s.
Proof. rewrite <- contains_spec. now destruct (Str.contains sub s). Qed.

Lemma Forall_not_substring (sub : string) (l : list string) :
  Forall (fun x => Str.contains sub x = false) l
  <-> Forall (fun x => ~ substring sub x) l.
Proof. split; apply Forall_impl; intros x; apply not_substring. Qed.

(** The lines that [split] gives are the lines of the text. *)
Lemma lines_of_split (content : string) (lines : list string) :
  lines_of content lines <-> lines = Str.split newline content.
Proof.
  unfold lines_of, newline. split.
  - intros [Hne [<- H]]. symmetry. apply split_char_join; [exact Hne|].
    now apply Forall_not_substring.
  - intros ->. destruct (join_split_char (ascii_of_nat 10) content) as [H1 H2].
    repeat split; [apply split_nonempty | exact H1 | now apply Forall_not_substring].
Qed.

(** [top_level] gives the text before the first dot. *)
Lemma top_level_spec (g m : string) : top_level g = m <-> top_component g m.
Proof.
  unfold top_level, top_component. split.
  - intros <-. destruct (join_split_char "." g) as [H1 H2].
    pose proof (split_nonempty "." g) as Hne.
    destruct (Str.split "." g) as [|h t]; [contradiction|].
    pose proof (Forall_inv H2) as Hh. simpl in Hh. simpl hd.
    split; [|now apply not_substring].
    rewrite join_cons in H1. destruct t; [now left|]. right. eexists. now rewrite H1.
  - intros [[-> | [r ->]] Hm]; apply not_substring in Hm.
    + now rewrite split_char_one.
    + now rewrite split_char_first.
Qed.
(** ** Manifests: the requirements list *)

(** A blank line, a comment line and an option line contribute nothing. *)
Lemma requirement_of_line_skipped (line : string) :
  Str.strip line = "" \/ Str.startswith "#" (Str.strip line) = true
  \/ Str.startswith "-" (Str.strip line) = true ->
  requirement_of_line line = [].
Proof.
  unfold requirement_of_line. intros [H | [H | H]]; rewrite H; simpl.
  - reflexivity.
  - now rewrite andb_false_r.
  - now rewrite andb_false_r.
Qed.

(** Any other line contributes its first whitespace-delimited token. *)
Lemma requirement_of_line_kept (line : string) :
  Str.strip line <> "" -> Str.startswith "#" (Str.strip line) = false ->
  Str.startswith "-" (Str.strip line) = false ->
  requirement_of_line line = [hd "" (Str.split_ws (Str.strip line))].
Proof.
  unfold requirement_of_line. intros H0 H1 H2.
  apply String.eqb_neq in H0. now rewrite H0, H1, H2.
Qed.

(** C1, on the manifest with the lines [# comment], [-r other.txt],
    [requests>=2.0] and blank lines: the comment, the option line and the
    blank lines are passed over, and the remaining line contributes its
    first whitespace-delimited token, which is the whole of
    [requests>=2.0].  The version constraint is kept, where the extraction
    from a build script ([strip_version]) cuts it off. *)
Theorem C1_requirements_txt_keeps_version_constraint :
  _parse_requirements_txt fs_requirements ["srv"; "proj"; "requirements.txt"]
    = Ok ["requests>=2.0"]
  /\ _analyze_requirement_files fs_requirements ["srv"; "proj"]
    = [("requirements.txt", ["requests>=2.0"])]
  /\ strip_version "requests>=2.0" = "requests".
Proof. vm_compute. repeat split. Qed.

(** ** The operations without a root *)

(** C3: with no root configured, each of the six operations returns the
    no-root error, whatever the filesystem and the arguments are: the
    answer does not depend on the filesystem. *)
Theorem C3_no_root_set :
  forall (lower : string -> string) (fnmatch : string -> string -> bool) (fs : node)
         (max_depth : Z) (include_hidden : bool) (file_path : string)
         (pattern : option string) (include_tests include_imports : bool)
         (query : string) (case_sensitive : bool) (file_pattern : option string),
    let self := {| root_directory := None |} in
    _explore_project_structure lower fs self max_depth include_hidden
      = "Error: No project root set"
    /\ _read_file fs self file_path = "Error: No project root set"
    /\ _find_python_files fnmatch fs self pattern include_tests
      = "Error: No project root set"
    /\ _analyze_dependencies fs self include_imports = "Error: No project root set"
    /\ _search_code lower fnmatch fs self query case_sensitive file_pattern
      = "Error: No project root set"
    /\ _get_project_info fs self = "Error: No project root set".
Proof. intros. repeat split. Qed.

(** ** The size of a file, as it is printed *)

Lemma float_of_N_small (n : N) : (n < 2 ^ 53)%N -> float_of_N n = n.
Proof.
  intros H. unfold float_of_N.
  replace (N.log2 n <? 53)%N with true; [reflexivity|].
  symmetry. apply N.ltb_lt. destruct (N.eq_dec n 0) as [->|Hn]; [reflexivity|].
  apply N.log2_lt_pow2; [lia | exact H].
Qed.




(** ** The safe reader *)



(** ** Setting the root twice *)

Lemma set_project_root_state (cwd : path) (fs : node) (self : engine) (p : string) :
  fst (_set_project_root cwd fs self p)
  = if path_exists fs (resolve cwd (parse_path p))
       && path_is_dir fs (resolve cwd (parse_path p))
    then {| root_directory := Some (resolve cwd (parse_path p)) |}
    else self.
Proof.
  unfold _set_project_root.
  destruct (path_exists fs (resolve cwd (parse_path p))); simpl; [|reflexivity].
  destruct (path_is_dir fs (resolve cwd (parse_path p))); simpl; [|reflexivity].
  now destruct (_find_python_indicators fs _).
Qed.

(** C8: on one filesystem, setting a root, then setting the same root
    again, leaves the engine in the same state, and the overview produced
    after the second assignment is the overview produced after the first,
    whether it is a text or an error. *)
Theorem C8_overview_same_after_resetting_root :
  forall (cwd : path) (fs : node) (self : engine) (p : string),
    let self1 := fst (_set_project_root cwd fs self p) in
    let self2 := fst (_set_project_root cwd fs self1 p) in
    self2 = self1
    /\ _generate_project_overview fs self2 = _generate_project_overview fs self1
    /\ _get_project_info fs self2 = _get_project_info fs self1.
Proof.
  intros cwd fs self p self1 self2.
  assert (H : self2 = self1).
  { unfold self2, self1. rewrite !set_project_root_state.
    now destruct (path_exists fs _ && path_is_dir fs _). }
  rewrite H. repeat split.
Qed.

(** ** Manifests: the Pipfile *)

Lemma assoc_app_none {B : Type} (k : string) (l1 l2 : list (string * B)) :
  assoc k l1 = None -> assoc k l2 = None -> assoc k (l1 ++ l2) = None.
Proof.
  induction l1 as [|[k' v] l1 IH]; simpl; [auto|].
  destruct (String.eqb k k'); [discriminate | auto].
Qed.

(** A manifest is recorded under its own name. *)
Lemma analyze_manifest_key (fs : node) (root : path) (req_file k : string) :
  k <> req_file -> assoc k (analyze_manifest fs root req_file) = None.
Proof.
  intros Hk. unfold analyze_manifest.
  destruct (path_exists fs (root ++ [req_file])); [|reflexivity].
  match goal with |- assoc k (match ?parsed with _ => _ end) = None =>
    destruct parsed as [[[|d deps]|e]|] end; try reflexivity.
  simpl. apply String.eqb_neq in Hk. now rewrite Hk.
Qed.

(** The dispatch has no branch for the Pipfile. *)
Lemma analyze_manifest_Pipfile (fs : node) (root : path) :
  analyze_manifest fs root "Pipfile" = [].
Proof.
  unfold analyze_manifest.
  destruct (path_exists fs (root ++ ["Pipfile"])); reflexivity.
Qed.

(** C9: [Pipfile] is one of the recognized manifest names, yet the analysis
    never has an entry for it: the result is the one obtained from the five
    other names alone, so the dependency total of the overview, the sum of
    the lengths of the lists of that result, counts nothing for it. *)
Theorem C9_Pipfile_never_analyzed :
  forall (fs : node) (root : path),
    Str.mem "Pipfile" REQUIREMENTS_FILES = true
    /\ analyze_manifest fs root "Pipfile" = []
    /\ assoc "Pipfile" (_analyze_requirement_files fs root) = None
    /\ _analyze_requirement_files fs root
       = analyze_manifests
           ["requirements.txt"; "requirements-dev.txt"; "pyproject.toml"; "setup.py";
            "setup.cfg"] fs root.
Proof.
  intros fs root. split; [reflexivity|]. split; [apply analyze_manifest_Pipfile|].
  unfold _analyze_requirement_files, analyze_manifests, REQUIREMENTS_FILES.
  cbn [flat_map]. rewrite analyze_manifest_Pipfile. split; [|reflexivity].
  repeat (apply assoc_app_none; [apply analyze_manifest_key; discriminate|]).
  reflexivity.
Qed.

(** The Pipfile of [fs_pipfile] declares [requests]; the analysis is empty
    and the overview has no dependency line. *)
Example Pipfile_contributes_nothing :
  path_exists fs_pipfile ["proj"; "Pipfile"] = true
  /\ _analyze_requirement_files fs_pipfile ["proj"] = []
  /\ _analyze_dependencies fs_pipfile {| root_directory := Some ["proj"] |} false
     = "Project Dependencies Analysis" +++ newline +++ Str.repeat_str "=" 35
       +++ newline +++ newline.
Proof. vm_compute. repeat split. Qed.

(** ** Reading a file outside the root *)

Lemma strip_prefix_is_prefix (root p : list string) :
  is_prefix root p = false <-> strip_prefix root p = None.
Proof.
  revert p. induction root as [|x root IH]; intros p; simpl.
  - split; discriminate.
  - destruct p as [|y p]; [tauto|].
    destruct (String.eqb x y); simpl; [apply IH | tauto].
Qed.

Lemma strip_prefix_app (root rel : list string) :
  strip_prefix root (root ++ rel) = Some rel.
Proof.
  induction root as [|x root IH]; simpl; [reflexivity|].
  now rewrite String.eqb_refl.
Qed.

Lemma strip_prefix_spec (root p rel : list string) :
  strip_prefix root p = Some rel -> p = root ++ rel.
Proof.
  revert p. induction root as [|x root IH]; intros p H; simpl in *.
  - now inversion H.
  - destruct p as [|y p]; [discriminate|].
    destruct (String.eqb_spec x y) as [->|]; [|discriminate].
    now rewrite (IH _ H).
Qed.

(** [relative_to] succeeds exactly on the paths written as the root and
    further components. *)
Lemma relative_to_spec (p root rel : list string) :
  relative_to p root = Ok rel <-> p = root ++ rel.
Proof.
  unfold relative_to. split.
  - destruct (strip_prefix root p) as [r|] eqn:E; [|discriminate].
    intros H. inversion H; subst. now apply strip_prefix_spec.
  - intros ->. now rewrite strip_prefix_app.
Qed.

Lemma relative_to_outside (p root : list string) :
  (forall rel, p <> root ++ rel) -> relative_to p root = Raise (not_in_subpath p root).
Proof.
  intros H. unfold relative_to.
  destruct (strip_prefix root p) as [r|] eqn:E; [|reflexivity].
  apply strip_prefix_spec in E. now apply H in E.
Qed.

(** C10, as the code has it: the test is made on the path as it is
    written.  Take an absolute path, rooted at [/] as the root is.  When
    its components do not start with those of the root the answer is an
    error text, never the content: the error of the reader when the file
    cannot be read, and otherwise, the content once read, the error of
    [relative_to].  When it is written as the root and further components
    the content that was read is returned, whatever these components
    are. *)
Theorem C10_read_file_outside_root :
  forall (fs : node) (root : path) (file_path : string) (parts : list string),
    single_root file_path = true ->
    parse_path file_path = Abs parts ->
    let self := {| root_directory := Some root |} in
    ((forall rel, parts <> root ++ rel) ->
       (forall e, _read_file_content fs parts = Raise e ->
          _read_file fs self file_path = "Error reading file: " +++ exn_str e)
       /\ (forall content, _read_file_content fs parts = Ok content ->
           exists e, relative_to parts root = Raise e
                     /\ _read_file fs self file_path = "Error reading file: " +++ exn_str e))
    /\ (forall rel content,
          parts = root ++ rel -> _read_file_content fs parts = Ok content ->
          _read_file fs self file_path
          = "File: " +++ rel_str rel +++ newline +++ newline +++ content).
Proof.
  intros fs root file_path parts _ Hparse self.
  unfold _read_file, self. cbn [root_directory]. rewrite Hparse. split.
  - intros Hout. rewrite (relative_to_outside _ _ Hout). split.
    + intros e He. now rewrite He.
    + intros content Hc. rewrite Hc. exists (not_in_subpath parts root). now split.
  - intros rel content Hrel Hc. rewrite Hc.
    apply relative_to_spec in Hrel. now rewrite Hrel.
Qed.

(** The file [/etc/motd] exists, can be read and is within the cap; with
    the root [/proj] the operation answers with the error of
    [relative_to]. *)
Lemma C10_read_file_outside_root_witness :
  _read_file_content fs_outside ["etc"; "motd"] = Ok "hello"
  /\ exists e, relative_to ["etc"; "motd"] ["proj"] = Raise e
               /\ _read_file fs_outside {| root_directory := Some ["proj"] |} "/etc/motd"
                  = "Error reading file: " +++ exn_str e.
Proof.
  split; [reflexivity|].
  destruct (C10_read_file_outside_root fs_outside ["proj"] "/etc/motd" ["etc"; "motd"]
              eq_refl eq_refl) as [H _].
  destruct H as [_ H].
  - intros rel E. discriminate E.
  - apply (H "hello"). reflexivity.
Defined.

(** C10 as it is worded fails.  With the root [/proj], the absolute path
    [/proj/../etc/motd] denotes the file [/etc/motd], which is not located
    under the root; the operation returns its content under the header
    [File: ../etc/motd], since [relative_to] compares the components as
    they are written.  So it is not true that every absolute path to a
    file outside the root is answered with an error. *)
Lemma C10_counterexample :
  parse_path "/proj/../etc/motd" = Abs ["proj"; ".."; "etc"; "motd"]
  /\ lookup fs_outside ["proj"; ".."; "etc"; "motd"] = Some (File 5 "hello")
  /\ lookup fs_outside ["etc"; "motd"] = Some (File 5 "hello")
  /\ located_under ["proj"] ["proj"; ".."; "etc"; "motd"] = false
  /\ _read_file fs_outside {| root_directory := Some ["proj"] |} "/proj/../etc/motd"
     = "File: ../etc/motd" +++ newline +++ newline +++ "hello"
  /\ ~ (forall (fs : node) (root : path) (file_path : string) (parts : list string),
          single_root file_path = true ->
          parse_path file_path = Abs parts ->
          located_under root parts = false ->
          exists e, _read_file fs {| root_directory := Some root |} file_path
                    = "Error reading file: " +++ exn_str e).
Proof.
  repeat (split; [reflexivity|]).
  intros H.
  destruct (H fs_outside ["proj"] "/proj/../etc/motd" ["proj"; ".."; "etc"; "motd"]
              eq_refl eq_refl eq_refl) as [e He].
  vm_compute in He. discriminate He.
Qed.
(** ** The import tally *)

Lemma count_of_incr (module k : string) (counts : tally) :
  count_of module (incr k counts)
  = count_of module counts + (if String.eqb k module then 1 else 0).
Proof.
  unfold count_of. induction counts as [|[k' v] counts IH]; simpl.
  - rewrite String.eqb_sym. now destruct (String.eqb k module).
  - destruct (String.eqb_spec k k') as [<-|Hk]; simpl.
    + rewrite String.eqb_sym. destruct (String.eqb k module); lia.
    + destruct (String.eqb_spec module k') as [->|Hm].
      * apply String.eqb_neq in Hk. rewrite Hk. lia.
      * exact IH.
Qed.

(** What a line does to the tally: the module token that one of the two
    patterns finds in the trimmed line is counted under its top-level
    component. *)
Lemma tally_line_eq (counts : tally) (line : string) :
  tally_line counts line
  = match import_group (Str.strip line) with
    | Some g => incr (top_level g) counts
    | None => counts
    end.
Proof.
  unfold tally_line, import_group, import_patterns. cbn [fold_left].
  destruct (match_import (Str.strip line)) as [g|] eqn:Hi.
  - now rewrite (match_import_not_from _ _ Hi).
  - reflexivity.
Qed.

(** The module token of a trimmed line, said on the text. *)
Lemma import_group_spec (t g : string) :
  import_group t = Some g <-> import_line t g \/ from_line t g.
Proof.
  unfold import_group. rewrite <- match_import_spec, <- match_from_spec.
  destruct (match_import t) as [g'|] eqn:Hi.
  - rewrite (match_import_not_from _ _ Hi). split; [now left|].
    intros [H | H]; [exact H | discriminate].
  - split; [now right|]. intros [H | H]; [discriminate | exact H].
Qed.

Lemma import_group_none (t : string) :
  import_group t = None <-> forall g, ~ import_line t g /\ ~ from_line t g.
Proof.
  split.
  - intros H g. split; intros Hg;
      assert (E : import_group t = Some g) by (apply import_group_spec; tauto);
      congruence.
  - intros H. destruct (import_group t) as [g|] eqn:E; [|reflexivity].
    apply import_group_spec in E. destruct (H g). tauto.
Qed.

Lemma imports_module_spec (m line : string) :
  imports_module m line = true <->
  exists t g, trimmed line t /\ (import_line t g \/ from_line t g) /\ top_component g m.
Proof.
  unfold imports_module. split.
  - destruct (import_group (Str.strip line)) as [g|] eqn:E; [|discriminate].
    intros H. apply String.eqb_eq in H.
    exists (Str.strip line), g. split; [apply strip_trimmed|].
    split; [now apply import_group_spec | now apply top_level_spec].
  - intros [t [g [Ht [Hg Hm]]]]. apply strip_unique in Ht. subst t.
    apply import_group_spec in Hg. rewrite Hg.
    apply top_level_spec in Hm. subst m. apply String.eqb_refl.
Qed.

(** The effect of one line on the count of [module]. *)
Lemma count_of_tally_line (module : string) (counts : tally) (line : string) :
  count_of module (tally_line counts line)
  = count_of module counts + (if imports_module module line then 1 else 0).
Proof.
  rewrite tally_line_eq. unfold imports_module.
  destruct (import_group (Str.strip line)) as [g|]; [apply count_of_incr | lia].
Qed.

Lemma count_of_tally_lines (module : string) (lines : list string) :
  forall counts,
    count_of module (fold_left tally_line lines counts)
    = count_of module counts + List.length (filter (imports_module module) lines).
Proof.
  induction lines as [|line lines IH]; intros counts; simpl; [lia|].
  rewrite IH, count_of_tally_line.
  destruct (imports_module module line); simpl; lia.
Qed.

Lemma count_of_tally_files (fs : node) (module : string) (files : list path) :
  forall counts,
    count_of module (fold_left (tally_file fs) files counts)
    = count_of module counts
      + List.length (filter (imports_module module)
                       (flat_map (fun file_path =>
                                    match _read_file_content fs file_path with
                                    | Ok content => Str.split newline content
                                    | Raise _ => []
                                    end) files)).
Proof.
  induction files as [|f files IH]; intros counts; simpl; [lia|].
  rewrite IH. unfold tally_file.
  destruct (_read_file_content fs f) as [content|e]; simpl; [|reflexivity].
  rewrite count_of_tally_lines, filter_app, length_app. lia.
Qed.

(** The lines of the source files are the lines of their texts, file
    after file in the order of the index. *)
Lemma source_lines_spec (fs : node) (self : engine) :
  exists per_file,
    source_lines fs self = List.concat per_file
    /\ Forall2 (fun file_path lines =>
                  match _read_file_content fs file_path with
                  | Ok content => lines_of content lines
                  | Raise _ => lines = []
                  end)
               (_get_python_files fs self) per_file.
Proof.
  unfold source_lines. induction (_get_python_files fs self) as [|f files [per [H1 H2]]].
  - exists []. split; [reflexivity | constructor].
  - exists (match _read_file_content fs f with
            | Ok content => Str.split newline content
            | Raise _ => []
            end :: per).
    split; [simpl; now rewrite H1|]. constructor; [|exact H2].
    destruct (_read_file_content fs f); [now apply lines_of_split | reflexivity].
Qed.

(** C5: take a line of a source file and trim it.  When it is [import],
    white space and a module token (the run of characters up to the first
    white space or comma), or [from], white space, a module token, white
    space and [import], the count of the top-level component of the token
    (its text before the first dot) grows by one and no other count
    changes; a line of neither form leaves the tally as it is.  Over a
    project, the count of a module is the number of such lines for it in
    the source files that can be read.  The file with [import os] and
    [from os.path import join] gives [os] the count two. *)
Theorem C5_import_tally :
  forall (fs : node) (self : engine) (counts : tally) (line t g m : string),
    (trimmed line t -> import_line t g \/ from_line t g -> top_component g m ->
       count_of m (tally_line counts line) = count_of m counts + 1
       /\ (forall m', m' <> m ->
             count_of m' (tally_line counts line) = count_of m' counts))
    /\ (trimmed line t -> (forall g', ~ import_line t g' /\ ~ from_line t g') ->
        tally_line counts line = counts)
    /\ (imports_module m line = true <->
        exists t' g', trimmed line t' /\ (import_line t' g' \/ from_line t' g')
                      /\ top_component g' m)
    /\ count_of m (_analyze_imports fs self)
       = List.length (filter (imports_module m) (source_lines fs self))
    /\ (exists per_file,
          source_lines fs self = List.concat per_file
          /\ Forall2 (fun file_path lines =>
                        match _read_file_content fs file_path with
                        | Ok content => lines_of content lines
                        | Raise _ => lines = []
                        end)
                     (_get_python_files fs self) per_file)
    /\ _analyze_imports fs_imports {| root_directory := Some ["proj"] |} = [("os", 2)].
Proof.
  intros fs self counts line t g m. split; [|split; [|split; [|split; [|split]]]].
  - intros Ht Hg Hm. apply strip_unique in Ht. subst t.
    apply import_group_spec in Hg. apply top_level_spec in Hm.
    rewrite tally_line_eq, Hg, Hm. split.
    + rewrite count_of_incr, String.eqb_refl. reflexivity.
    + intros m' Hm'. rewrite count_of_incr.
      replace (String.eqb m m') with false; [lia|].
      symmetry. apply String.eqb_neq. congruence.
  - intros Ht Hnone. apply strip_unique in Ht. subst t.
    apply import_group_none in Hnone. now rewrite tally_line_eq, Hnone.
  - apply imports_module_spec.
  - unfold _analyze_imports, source_lines. now rewrite count_of_tally_files.
  - apply source_lines_spec.
  - reflexivity.
Qed.

(** The line [from os.path import join] of a file whose tally has [os]
    once already: the token is [os.path], its top-level component [os], and
    the count of [os] becomes two. *)
Lemma C5_import_tally_witness :
  trimmed "  from os.path import join" "from os.path import join"
  /\ from_line "from os.path import join" "os.path"
  /\ top_component "os.path" "os"
  /\ count_of "os" (tally_line [("os", 1)] "  from os.path import join") = 2
  /\ count_of "sys" (tally_line [("os", 1); ("sys", 4)] "  from os.path import join") = 4.
Proof.
  assert (H1 : trimmed "  from os.path import join" "from os.path import join")
    by (apply trimmed_iff; reflexivity).
  assert (H2 : from_line "from os.path import join" "os.path")
    by (apply match_from_spec; reflexivity).
  assert (H3 : top_component "os.path" "os") by (apply top_level_spec; reflexivity).
  split; [exact H1|]. split; [exact H2|]. split; [exact H3|].
  destruct (C5_import_tally fs_imports {| root_directory := Some ["proj"] |}
              [("os", 1)] "  from os.path import join" "from os.path import join"
              "os.path" "os") as [Ha _].
  destruct (C5_import_tally fs_imports {| root_directory := Some ["proj"] |}
              [("os", 1); ("sys", 4)] "  from os.path import join"
              "from os.path import join" "os.path" "os") as [Hb _].
  split.
  - apply (Ha H1 (or_intror H2) H3).
  - apply (Hb H1 (or_intror H2) H3). discriminate.
Defined.

(** ** The source file index *)


(** Every path that [rglob] yields below [dir] starts with [dir]. *)
Lemma rglob_node_below (ext : string) (n : node) :
  forall (dir p : path), In p (rglob_node ext dir n) -> exists rel, p = dir ++ rel.
Proof.
  induction n as [sz text | sz listable es IH] using node_induction; intros dir p Hin.
  - destruct Hin.
  - simpl in Hin. destruct listable; [|destruct Hin].
    apply in_app_or in Hin. destruct Hin as [Hin | Hin].
    + apply in_map_iff in Hin. destruct Hin as [e [He _]].
      exists [fst e]. now symmetry.
    + apply in_flat_map in Hin. destruct Hin as [[name child] [He Hin]].
      rewrite Forall_forall in IH. specialize (IH _ He). simpl in IH.
      destruct (IH _ _ Hin) as [rel Hrel].
      exists ([name] ++ rel). now rewrite app_assoc.
Qed.

Lemma has_excluded_part_app (a b : path) :
  has_excluded_part (a ++ b) = has_excluded_part a || has_excluded_part b.
Proof. unfold has_excluded_part. apply existsb_app. Qed.

Lemma filter_none {A : Type} (f : A -> bool) (l : list A) :
  (forall x, In x l -> f x = false) -> filter f l = [].
Proof.
  induction l as [|x l IH]; intros H; simpl; [reflexivity|].
  rewrite (H x (or_introl eq_refl)). apply IH. intros y Hy. apply H. now right.
Qed.

(** C2, on a root with an excluded name among its own components: the
    exclusion test runs over all the components of the absolute path of a
    candidate, those of the root included, so no file of the project is
    returned. *)
Theorem C2_excluded_root_component_empties_index :
  forall (fs : node) (root : path),
    has_excluded_part root = true ->
    _get_python_files fs {| root_directory := Some root |} = [].
Proof.
  intros fs root Hroot. unfold _get_python_files. cbn [root_directory].
  rewrite filter_none; [reflexivity|].
  intros p Hin. apply in_flat_map in Hin. destruct Hin as [ext [_ Hin]].
  unfold rglob in Hin. destruct (lookup fs root) as [n|]; [|destruct Hin].
  destruct (rglob_node_below _ _ _ _ Hin) as [rel ->].
  now rewrite has_excluded_part_app, Hroot.
Qed.

(** The project at [/srv/build/proj]: [main.py] and [pkg/util.py] are found
    below the root, their paths relative to the root have no excluded
    component, and the index is empty. *)
Lemma C2_excluded_root_component_empties_index_witness :
  rglob fs_build ["srv"; "build"; "proj"] ".py"
    = [["srv"; "build"; "proj"; "main.py"]; ["srv"; "build"; "proj"; "pkg"; "util.py"]]
  /\ has_excluded_part ["main.py"] = false
  /\ has_excluded_part ["pkg"; "util.py"] = false
  /\ _get_python_files fs_build {| root_directory := Some ["srv"; "build"; "proj"] |} = [].
Proof.
  split; [reflexivity|]. split; [reflexivity|]. split; [reflexivity|].
  apply (C2_excluded_root_component_empties_index fs_build ["srv"; "build"; "proj"]).
  reflexivity.
Defined.
(** ** The code search *)

(** The matches of the lines of one file: the line at index [i] is recorded,
    with the number [line_num + i] and its trimmed text, exactly when the
    query is found in it. *)
Lemma line_matches_spec (lower : string -> string) (rel query : string) (cs : bool)
    (lines : list string) :
  forall (line_num : nat) (m : SearchMatch),
    In m (line_matches lower rel query cs line_num lines) <->
    exists i line,
      nth_error lines i = Some line /\ line_hits lower query cs line = true
      /\ m = {| match_file := rel; match_line := line_num + i;
                match_content := Str.strip line |}.
Proof.
  induction lines as [|l lines IH]; intros k m; simpl.
  - split; [tauto|]. intros [i [line [H _]]]. now destruct i.
  - rewrite in_app_iff, IH. fold (line_hits lower query cs l). split.
    + intros [H | [i [line [H1 [H2 H3]]]]].
      * destruct (line_hits lower query cs l) eqn:Hl; [|destruct H].
        destruct H as [<-|[]]. exists 0, l. rewrite Nat.add_0_r. now repeat split.
      * exists (S i), line. repeat split; auto. now rewrite Nat.add_succ_r.
    + intros [[|i] [line [H1 [H2 H3]]]]; simpl in H1.
      * left. inversion H1; subst line. rewrite H2. left.
        now rewrite H3, Nat.add_0_r.
      * right. exists i, line. repeat split; auto. now rewrite H3, Nat.add_succ_r.
Qed.

Lemma line_matches_from (lower : string -> string) (rel query : string) (cs : bool)
    (lines : list string) :
  forall line_num,
    Forall (fun m => line_num <= match_line m)
           (line_matches lower rel query cs line_num lines).
Proof.
  induction lines as [|l lines IH]; intros k; simpl; [constructor|].
  apply Forall_app. split.
  - destruct (Str.contains _ _); repeat constructor.
  - eapply Forall_impl; [|apply IH]. simpl. intros m Hm. lia.
Qed.

(** Within a file the matches come by strictly ascending line number. *)
Lemma line_matches_ascending (lower : string -> string) (rel query : string) (cs : bool)
    (lines : list string) :
  forall line_num,
    StronglySorted lt (map match_line (line_matches lower rel query cs line_num lines)).
Proof.
  induction lines as [|l lines IH]; intros k; simpl; [constructor|].
  destruct (Str.contains _ _); simpl; [|apply IH].
  constructor; [apply IH|].
  apply Forall_map. eapply Forall_impl; [|apply line_matches_from]. simpl. intros m Hm. lia.
Qed.

(** The matches of a file that can be read, said on the text. *)
Lemma file_matches_spec (lower : string -> string) (fs : node) (root : path)
    (query : string) (cs : bool) (file_path : path) (content : string)
    (lines : list string) (rel : list string) :
  _read_file_content fs file_path = Ok content -> lines_of content lines ->
  file_path = root ++ rel -> rel <> [] ->
  forall m,
    In m (file_matches lower fs root query cs file_path) <->
    exists i line,
      nth_error lines i = Some line
      /\ substring (if cs then query else lower query) (if cs then line else lower line)
      /\ match_file m = Str.join "/" rel /\ match_line m = i + 1
      /\ trimmed line (match_content m).
Proof.
  intros Hread Hlines Hrel Hne m. apply lines_of_split in Hlines. subst lines.
  apply relative_to_spec in Hrel.
  unfold file_matches. rewrite Hread, Hrel, line_matches_spec.
  assert (Hstr : rel_str rel = Str.join "/" rel) by (now destruct rel).
  rewrite Hstr. unfold line_hits.
  split; intros [i [line [H1 [H2 H3]]]]; exists i, line.
  - apply contains_spec in H2. subst m. cbn [match_file match_line match_content].
    repeat split; auto; [lia | apply strip_trimmed].
  - destruct H3 as [H3 [H4 H5]]. apply contains_spec in H2. apply strip_unique in H5.
    destruct m as [f l c]. cbn [match_file match_line match_content] in *. subst.
    repeat split; auto. f_equal. lia.
Qed.

(** The report: the number of all the matches, a row for each of the
    first fifty, and the number of those left out. *)
Lemma search_report_spec (query : string) (matches : list SearchMatch) :
  (matches = [] -> search_report query matches = "No matches found for '" +++ query +++ "'")
  /\ (matches <> [] ->
      exists shown rest,
        matches = shown ++ rest
        /\ List.length shown = Nat.min 50 (List.length matches)
        /\ search_report query matches
           = "Found " +++ Str.of_nat (List.length matches) +++ " matches for '" +++ query
             +++ "':" +++ newline +++ newline
             +++ concat_str
                   (map (fun m => match_file m +++ ":" +++ Str.of_nat (match_line m)
                                  +++ ": " +++ match_content m +++ newline) shown)
             +++ match rest with
                 | [] => ""
                 | _ :: _ => newline +++ "... and " +++ Str.of_nat (List.length rest)
                             +++ " more matches"
                 end).
Proof.
  split; [now intros ->|]. intros Hne.
  exists (firstn 50 matches), (skipn 50 matches).
  split; [now rewrite firstn_skipn|]. split; [apply length_firstn|].
  unfold search_report. destruct matches as [|m0 ms] eqn:E; [contradiction|].
  rewrite <- E. repeat f_equal.
  rewrite length_skipn.
  destruct (50 <? List.length matches)%nat eqn:H50.
  - apply Nat.ltb_lt in H50. destruct (skipn 50 matches) eqn:Hs; [|reflexivity].
    apply (f_equal (@List.length _)) in Hs. rewrite length_skipn in Hs. simpl in Hs. lia.
  - apply Nat.ltb_ge in H50. rewrite skipn_all2 by exact H50. reflexivity.
Qed.

Lemma todo_matches (lower : string -> string) (fnmatch : string -> string -> bool) :
  lower_on_ascii lower ->
  search_matches lower fnmatch fs_todo {| root_directory := Some ["proj"] |} "TODO" false None
  = [{| match_file := "notes.py"; match_line := 2; match_content := "# todo: fix" |}]
  /\ search_matches lower fnmatch fs_todo {| root_directory := Some ["proj"] |} "TODO" true None
     = [].
Proof.
  intros H. unfold search_matches, filter_pattern, given. cbn [root_directory].
  change (_get_python_files fs_todo {| root_directory := Some ["proj"] |})
    with [["proj"; "notes.py"]].
  cbn [flat_map]. unfold file_matches.
  change (_read_file_content fs_todo ["proj"; "notes.py"])
    with (Ok ("x = 1" +++ newline +++ "    # todo: fix")).
  change (relative_to ["proj"; "notes.py"] ["proj"]) with (Ok ["notes.py"]).
  assert (E : Str.split newline ("x = 1" +++ newline +++ "    # todo: fix")
              = ["x = 1"; "    # todo: fix"]) by reflexivity.
  cbv beta iota. rewrite E. cbn [line_matches]. rewrite !H by reflexivity.
  split; reflexivity.
Qed.

(** C6: a line of a candidate file is a match exactly when the query
    occurs in it, both lower-cased unless the search is case sensitive; a
    match records the path of the file below the root, the number of the
    line counted from one, and the line without the white space at its
    ends.  The matches are those of the candidate files, file after file
    in the order of the index, by ascending line within a file; a file
    that cannot be read gives none.  The report states the number of all
    the matches, shows a row for each of the first fifty, and tells how
    many are left out.  With a [lower] that agrees with the letters of the
    ASCII range, the query [TODO] finds the line [# todo: fix] as line 2
    when case is not regarded, and nothing when it is. *)
Theorem C6_search_code :
  forall (lower : string -> string) (fnmatch : string -> string -> bool)
         (fs : node) (root : path)
         (query : string) (case_sensitive : bool) (file_pattern : option string),
    let self := {| root_directory := Some root |} in
    let index := _get_python_files fs self in
    let matches := search_matches lower fnmatch fs self query case_sensitive file_pattern in
    let of_file := file_matches lower fs root query case_sensitive in
    (forall file_path content lines rel,
        _read_file_content fs file_path = Ok content -> lines_of content lines ->
        file_path = root ++ rel -> rel <> [] ->
        forall m,
          In m (of_file file_path) <->
          exists i line,
            nth_error lines i = Some line
            /\ substring (if case_sensitive then query else lower query)
                         (if case_sensitive then line else lower line)
            /\ match_file m = Str.join "/" rel /\ match_line m = i + 1
            /\ trimmed line (match_content m))
    /\ (forall file_path e, _read_file_content fs file_path = Raise e ->
          of_file file_path = [])
    /\ (forall file_path, StronglySorted lt (map match_line (of_file file_path)))
    /\ (file_pattern = None \/ file_pattern = Some "" -> matches = flat_map of_file index)
    /\ (forall pat, file_pattern = Some pat -> pat <> "" ->
          matches = flat_map of_file (filter (fun f => fnmatch (last f "") pat) index))
    /\ (matches = [] ->
        _search_code lower fnmatch fs self query case_sensitive file_pattern
        = "No matches found for '" +++ query +++ "'")
    /\ (matches <> [] ->
        exists shown rest,
          matches = shown ++ rest
          /\ List.length shown = Nat.min 50 (List.length matches)
          /\ _search_code lower fnmatch fs self query case_sensitive file_pattern
             = "Found " +++ Str.of_nat (List.length matches) +++ " matches for '" +++ query
               +++ "':" +++ newline +++ newline
               +++ concat_str
                     (map (fun m => match_file m +++ ":" +++ Str.of_nat (match_line m)
                                    +++ ": " +++ match_content m +++ newline) shown)
               +++ match rest with
                   | [] => ""
                   | _ :: _ => newline +++ "... and " +++ Str.of_nat (List.length rest)
                               +++ " more matches"
                   end)
    /\ (lower_on_ascii lower ->
        _search_code lower fnmatch fs_todo {| root_directory := Some ["proj"] |}
          "TODO" false None
        = "Found 1 matches for 'TODO':" +++ newline +++ newline
          +++ "notes.py:2: # todo: fix" +++ newline
        /\ _search_code lower fnmatch fs_todo {| root_directory := Some ["proj"] |}
             "TODO" true None
           = "No matches found for 'TODO'").
Proof.
  intros lower fnmatch fs root query cs fp self index matches of_file.
  assert (Hcode : _search_code lower fnmatch fs self query cs fp
                  = search_report query matches) by reflexivity.
  split; [|split; [|split; [|split; [|split; [|split; [|split]]]]]].
  - intros file_path content lines rel. apply file_matches_spec.
  - intros file_path e He. unfold of_file, file_matches. now rewrite He.
  - intros file_path. unfold of_file, file_matches.
    destruct (_read_file_content fs file_path); [|constructor].
    destruct (relative_to file_path root); [|constructor].
    apply line_matches_ascending.
  - intros [-> | ->]; reflexivity.
  - intros pat -> Hpat. unfold matches, search_matches, filter_pattern, given.
    cbn [root_directory]. now destruct pat.
  - intros H. rewrite Hcode. now apply search_report_spec.
  - intros H. rewrite Hcode. now apply search_report_spec.
  - intros H. unfold _search_code. cbn [root_directory].
    destruct (todo_matches lower fnmatch H) as [-> ->]. split; reflexivity.
Qed.

(** With the lower-casing of the ASCII range: the query [FIX] finds the
    second line of [notes.py], trimmed, when case is not regarded. *)
Lemma C6_search_code_witness :
  In {| match_file := "notes.py"; match_line := 2; match_content := "# todo: fix" |}
     (file_matches Str.ascii_lower fs_todo ["proj"] "FIX" false ["proj"; "notes.py"])
  /\ _search_code Str.ascii_lower (fun _ _ => true) fs_todo
       {| root_directory := Some ["proj"] |} "TODO" false None
     = "Found 1 matches for 'TODO':" +++ newline +++ newline
       +++ "notes.py:2: # todo: fix" +++ newline.
Proof.
  pose proof (C6_search_code Str.ascii_lower (fun _ _ => true) fs_todo ["proj"] "FIX"
                false None) as H.
  cbv zeta in H. destruct H as [H1 [_ [_ [_ [_ [_ [_ H8]]]]]]].
  split.
  - apply (H1 ["proj"; "notes.py"] ("x = 1" +++ newline +++ "    # todo: fix")
              ["x = 1"; "    # todo: fix"] ["notes.py"]).
    + reflexivity.
    + apply lines_of_split. reflexivity.
    + reflexivity.
    + discriminate.
    + exists 1, "    # todo: fix". split; [reflexivity|]. split.
      * apply contains_spec. reflexivity.
      * repeat split. apply trimmed_iff. reflexivity.
  - apply H8. intros s _. reflexivity.
Defined.

(** ** The tree walk *)

(** *** The text is the lines joined *)

Lemma join_app (sep : string) (l1 l2 : list string) :
  l1 <> [] -> l2 <> [] ->
  Str.join sep (l1 ++ l2) = Str.join sep l1 +++ sep +++ Str.join sep l2.
Proof.
  induction l1 as [|x l1 IH]; intros H1 H2; [contradiction|].
  destruct l1 as [|y l1].
  - simpl app. rewrite join_cons. destruct l2; [contradiction | reflexivity].
  - change ((x :: y :: l1) ++ l2) with (x :: (y :: l1) ++ l2).
    rewrite join_cons. simpl app at 1. rewrite IH by (auto; discriminate).
    rewrite (join_cons sep x (y :: l1)). now rewrite !append_assoc.
Qed.

Lemma line_text_nonempty (lower : string -> string) (l : tree_line) :
  line_text lower l <> "".
Proof.
  destruct l; unfold line_text, folder_line, file_line, denied_line;
    intros H; apply append_eq_nil in H; destruct H as [_ H].
  - discriminate.
  - apply append_eq_nil in H. destruct H as [_ H]. discriminate.
  - discriminate.
Qed.

Lemma join_lines_nonempty (lower : string -> string) (lines : list tree_line) :
  lines <> [] -> Str.join newline (map (line_text lower) lines) <> "".
Proof.
  destruct lines as [|l lines]; [contradiction|]. intros _.
  simpl map. rewrite join_cons. destruct (map (line_text lower) lines).
  - apply line_text_nonempty.
  - intros H. apply append_eq_nil in H. destruct H as [H _].
    now apply line_text_nonempty in H.
Qed.

Lemma same_block_nil : same_block [] [].
Proof. intros R R' H. exact H. Qed.

Lemma same_block_cons (x : string) (B B' : list string) :
  same_block B B' -> same_block (x :: B) (x :: B').
Proof.
  intros HB R R' H. destruct (HB R R' H) as [H1 H2]. split.
  - split; discriminate.
  - simpl app. rewrite !join_cons.
    destruct (B ++ R) eqn:E1; destruct (B' ++ R') eqn:E2; try reflexivity.
    + destruct H1 as [H1 _]. discriminate (H1 eq_refl).
    + destruct H1 as [_ H1]. discriminate (H1 eq_refl).
    + now rewrite H2.
Qed.

Lemma same_block_join (sub : list string) :
  sub <> [] -> same_block [Str.join newline sub] sub.
Proof.
  intros Hsub R R' [H1 H2]. split.
  - split; [discriminate|]. intros H. apply app_eq_nil in H. tauto.
  - simpl app. rewrite join_cons. destruct R as [|r R].
    + destruct H1 as [H1 _]. rewrite (H1 eq_refl), app_nil_r. reflexivity.
    + rewrite join_app; [now rewrite H2 | assumption |].
      intros E. destruct H1 as [_ H1]. discriminate (H1 E).
Qed.

Lemma same_text_flat_map {A : Type} (f f' : A -> list string) (items : list A) :
  (forall x, same_block (f x) (f' x)) ->
  same_text (flat_map f items) (flat_map f' items).
Proof.
  intros H. induction items as [|x items IH]; simpl.
  - split; [tauto | reflexivity].
  - apply H. exact IH.
Qed.

Lemma map_flat_map {A B C : Type} (h : B -> C) (g : A -> list B) (l : list A) :
  map h (flat_map g l) = flat_map (fun x => map h (g x)) l.
Proof.
  induction l as [|x l IH]; simpl; [reflexivity|]. now rewrite map_app, IH.
Qed.

(** The text that [tree_of_dir] returns is the text of the lines of
    [walk_dir], joined by newlines. *)
Lemma tree_of_dir_lines (lower : string -> string) (max_depth : Z) (include_hidden : bool) :
  forall fuel listable es current_depth dir,
    tree_of_dir lower fuel listable es max_depth include_hidden current_depth
    = Str.join newline
        (map (line_text lower)
             (walk_dir lower fuel listable es max_depth include_hidden current_depth dir)).
Proof.
  induction fuel as [|fuel IH]; intros listable es cd dir; [reflexivity|].
  cbn [tree_of_dir walk_dir].
  destruct (cd >=? max_depth)%Z; [reflexivity|].
  destruct listable; [|reflexivity].
  rewrite map_flat_map. apply same_text_flat_map. intros [name child].
  destruct (skipped include_hidden (name, child)); [apply same_block_nil|].
  cbn [fst snd]. destruct child as [sz text | sz l' es'].
  - cbn [map line_text]. rewrite last_last.
    apply same_block_cons, same_block_nil.
  - cbn [map line_text]. rewrite last_last. apply same_block_cons.
    destruct (cd <? max_depth - 1)%Z; [|apply same_block_nil].
    rewrite (IH l' es' (cd + 1)%Z (dir ++ [name])).
    destruct (walk_dir lower fuel l' es' max_depth include_hidden (cd + 1) (dir ++ [name]))
      as [|l0 sub] eqn:E.
    + apply same_block_nil.
    + assert (Hne : Str.join newline (map (line_text lower) (l0 :: sub)) <> "")
        by (apply join_lines_nonempty; discriminate).
      apply String.eqb_neq in Hne. rewrite Hne.
      apply same_block_join. discriminate.
Qed.

(** The levels still to render bound the recursion: from that amount of
    fuel on, the text does not depend on the fuel. *)
Lemma tree_of_dir_fuel (lower : string -> string) (max_depth : Z) (include_hidden : bool) :
  forall fuel fuel' listable es current_depth,
    (Z.to_nat (max_depth - current_depth) <= fuel)%nat ->
    (Z.to_nat (max_depth - current_depth) <= fuel')%nat ->
    tree_of_dir lower fuel listable es max_depth include_hidden current_depth
    = tree_of_dir lower fuel' listable es max_depth include_hidden current_depth.
Proof.
  induction fuel as [|fuel IH]; intros fuel' listable es cd H H'.
  - destruct fuel' as [|fuel']; [reflexivity|]. cbn [tree_of_dir].
    replace (cd >=? max_depth)%Z with true; [reflexivity|].
    symmetry. rewrite Z.geb_leb. apply Z.leb_le. lia.
  - cbn [tree_of_dir]. destruct (cd >=? max_depth)%Z eqn:Hcd.
    + destruct fuel'; [reflexivity|]. cbn [tree_of_dir]. now rewrite Hcd.
    + rewrite Z.geb_leb in Hcd. apply Z.leb_gt in Hcd.
      destruct fuel' as [|fuel']; [lia|]. cbn [tree_of_dir].
      replace (cd >=? max_depth)%Z with false
        by (symmetry; rewrite Z.geb_leb; apply Z.leb_gt; lia).
      destruct listable; [|reflexivity]. f_equal.
      apply flat_map_ext. intros [name child].
      destruct (skipped include_hidden (name, child)); [reflexivity|]. cbn [fst snd].
      destruct child as [sz text | sz l' es']; [reflexivity|]. f_equal.
      destruct (cd <? max_depth - 1)%Z; [|reflexivity].
      rewrite (IH fuel' l' es' (cd + 1)%Z) by lia. reflexivity.
Qed.

(** *** Sorting keeps the entries *)

Lemma insert_sorted_perm {A : Type} (le : A -> A -> bool) (x : A) (l : list A) :
  Permutation (insert_sorted le x l) (x :: l).
Proof.
  induction l as [|y l IH]; simpl; [reflexivity|].
  destruct (le x y); [reflexivity|].
  rewrite IH. apply perm_swap.
Qed.

Lemma sorted_perm {A : Type} (le : A -> A -> bool) (l : list A) :
  Permutation (sorted le l) l.
Proof.
  induction l as [|x l IH]; simpl; [reflexivity|].
  fold (sorted le l). rewrite insert_sorted_perm. now constructor.
Qed.

Lemma sorted_In {A : Type} (le : A -> A -> bool) (l : list A) (x : A) :
  In x (sorted le l) <-> In x l.
Proof.
  split; apply Permutation_in; [apply sorted_perm | symmetry; apply sorted_perm].
Qed.

(** *** Where the lines of a walk lie *)

Lemma walk_dir_below (lower : string -> string) (max_depth : Z) (include_hidden : bool) :
  forall fuel listable es current_depth dir,
    Forall (line_below max_depth current_depth dir)
           (walk_dir lower fuel listable es max_depth include_hidden current_depth dir).
Proof.
  induction fuel as [|fuel IH]; intros listable es cd dir; [constructor|].
  cbn [walk_dir].
  destruct (cd >=? max_depth)%Z eqn:Hcd; [constructor|].
  rewrite Z.geb_leb in Hcd. apply Z.leb_gt in Hcd.
  destruct listable.
  - apply Forall_flat_map, Forall_forall. intros [name child] _.
    destruct (skipped include_hidden (name, child)); [constructor|]. cbn [fst snd].
    destruct child as [sz text | sz l' es'].
    + constructor; [|constructor]. exists [name]. simpl. repeat split; lia.
    + constructor.
      * exists [name]. simpl. repeat split; lia.
      * destruct (cd <? max_depth - 1)%Z; [|constructor].
        eapply Forall_impl; [|apply IH]. intros l [rel [H1 [H2 H3]]].
        exists (name :: rel). rewrite H1, <- app_assoc. simpl List.length.
        repeat split; lia.
  - constructor; [|constructor]. exists []. simpl. rewrite app_nil_r. repeat split; lia.
Qed.

(** *** No line comes twice *)

Lemma mem_In (x : string) (l : list string) : Str.mem x l = true <-> In x l.
Proof.
  unfold Str.mem. rewrite existsb_exists. split.
  - intros [y [Hy E]]. apply String.eqb_eq in E. now subst.
  - intros H. exists x. split; [assumption | apply String.eqb_refl].
Qed.

Lemma nodupb_NoDup (l : list string) : nodupb l = true -> NoDup l.
Proof.
  induction l as [|x l IH]; simpl; intros H; constructor.
  - apply andb_prop in H. destruct H as [H _]. intros Hin. apply mem_In in Hin.
    now rewrite Hin in H.
  - apply IH. apply andb_prop in H. tauto.
Qed.

Lemma unique_names_Dir (sz : N) (listable : bool) (es : list (string * node)) :
  unique_names (Dir sz listable es) = true ->
  NoDup (map fst es) /\ Forall (fun e => unique_names (snd e) = true) es.
Proof.
  simpl. intros H. apply andb_prop in H. destruct H as [H1 H2]. split.
  - now apply nodupb_NoDup.
  - apply Forall_forall. now apply forallb_forall.
Qed.

Lemma NoDup_flat_map_keys {A B : Type} (g : string * A -> list B)
    (items : list (string * A)) :
  NoDup (map fst items) ->
  (forall x, In x items -> NoDup (g x)) ->
  (forall x y l, In x items -> In y items -> In l (g x) -> In l (g y) -> fst x = fst y) ->
  NoDup (flat_map g items).
Proof.
  induction items as [|x items IH]; intros Hk Hg Hd; simpl; [constructor|].
  inversion Hk as [|k ks Hx Hks]; subst.
  apply NoDup_app.
  - apply Hg. now left.
  - apply IH; [assumption | |].
    + intros y Hy. apply Hg. now right.
    + intros y z l Hy Hz. apply Hd; now right.
  - intros l Hl Hl'. apply in_flat_map in Hl'. destruct Hl' as [y [Hy Hly]].
    apply Hx. rewrite (Hd x y l); [now apply in_map | now left | now right | | ]; assumption.
Qed.

Lemma walk_dir_NoDup (lower : string -> string) (max_depth : Z) (include_hidden : bool) :
  forall fuel listable es current_depth dir,
    NoDup (map fst es) ->
    Forall (fun e => unique_names (snd e) = true) es ->
    NoDup (walk_dir lower fuel listable es max_depth include_hidden current_depth dir).
Proof.
  induction fuel as [|fuel IH]; intros listable es cd dir Hk Hu; [constructor|].
  cbn [walk_dir].
  destruct (cd >=? max_depth)%Z; [constructor|].
  destruct listable; [|repeat constructor; intros []].
  apply NoDup_flat_map_keys.
  - eapply Permutation_NoDup; [|exact Hk].
    apply Permutation_map. symmetry. apply sorted_perm.
  - intros [name child] Hin. apply sorted_In in Hin.
    destruct (skipped include_hidden (name, child)); [constructor|]. cbn [fst snd].
    destruct child as [sz text | sz l' es'].
    + repeat constructor. intros [].
    + constructor.
      * destruct (cd <? max_depth - 1)%Z; [|intros []].
        intros Hin'.
        pose proof (walk_dir_below lower max_depth include_hidden fuel l' es' (cd + 1)%Z
                      (dir ++ [name])) as Hb.
        rewrite Forall_forall in Hb. destruct (Hb _ Hin') as [rel [_ [Hd _]]].
        simpl in Hd. lia.
      * destruct (cd <? max_depth - 1)%Z; [|constructor].
        rewrite Forall_forall in Hu. specialize (Hu _ Hin). cbn [snd] in Hu.
        apply unique_names_Dir in Hu. destruct Hu as [Hk' Hu']. now apply IH.
  - assert (Hblock : forall x l,
      In l (if skipped include_hidden x then []
            else match snd x with
                 | Dir _ l' es' =>
                     FolderLine cd (dir ++ [fst x]) ::
                     (if (cd <? max_depth - 1)%Z
                      then walk_dir lower fuel l' es' max_depth include_hidden (cd + 1)
                             (dir ++ [fst x])
                      else [])
                 | File sz _ => [FileLine cd (dir ++ [fst x]) sz]
                 end) ->
      exists rel, line_path l = dir ++ fst x :: rel).
    { intros [name child] l Hl.
      destruct (skipped include_hidden (name, child)); [destruct Hl|]. cbn [fst snd] in Hl.
      destruct child as [sz text | sz l' es'].
      - destruct Hl as [<-|[]]. exists []. reflexivity.
      - destruct Hl as [<-|Hl]; [exists []; reflexivity|].
        destruct (cd <? max_depth - 1)%Z; [|destruct Hl].
        pose proof (walk_dir_below lower max_depth include_hidden fuel l' es' (cd + 1)%Z
                      (dir ++ [name])) as Hb.
        rewrite Forall_forall in Hb. destruct (Hb _ Hl) as [rel [Hp _]].
        exists rel. now rewrite Hp, <- app_assoc. }
    intros x y l _ _ Hx Hy.
    destruct (Hblock x l Hx) as [rel Hrel]. destruct (Hblock y l Hy) as [rel' Hrel'].
    rewrite Hrel in Hrel'. apply app_inv_head in Hrel'. now inversion Hrel'.
Qed.

(** *** The lines and the entries of the tree *)

Lemma find_entry_In (name : string) (es : list (string * node)) (n : node) :
  find_entry name es = Some n -> In (name, n) es.
Proof.
  induction es as [|[k m] es IH]; simpl; [discriminate|].
  destruct (String.eqb_spec name k) as [->|_].
  - intros H. inversion H. now left.
  - intros H. right. now apply IH.
Qed.

Lemma find_entry_unique (name : string) (es : list (string * node)) (n : node) :
  NoDup (map fst es) -> In (name, n) es -> find_entry name es = Some n.
Proof.
  induction es as [|[k m] es IH]; simpl; intros Hk Hin; [destruct Hin|].
  inversion Hk as [|? ? Hx Hks]; subst.
  destruct Hin as [E | Hin].
  - inversion E; subst. now rewrite String.eqb_refl.
  - destruct (String.eqb_spec name k) as [->|_]; [|now apply IH].
    exfalso. apply Hx. change k with (fst (k, n)). now apply in_map.
Qed.

Lemma find_rel_nil (es : list (string * node)) : find_rel es [] = None.
Proof. reflexivity. Qed.

Lemma find_rel_cons (es : list (string * node)) (c : string) (p : list string) :
  p <> [] ->
  find_rel es (c :: p)
  = match find_entry c es with
    | Some (Dir _ _ es') => find_rel es' p
    | _ => None
    end.
Proof. destruct p; [contradiction | reflexivity]. Qed.

(** A file line of the walk is the line of a file of the tree. *)
Lemma walk_dir_file_sound (lower : string -> string) (max_depth : Z) (include_hidden : bool) :
  forall fuel listable es current_depth dir d p sz,
    NoDup (map fst es) ->
    Forall (fun e => unique_names (snd e) = true) es ->
    In (FileLine d p sz)
       (walk_dir lower fuel listable es max_depth include_hidden current_depth dir) ->
    exists rel text, p = dir ++ rel /\ find_rel es rel = Some (File sz text).
Proof.
  induction fuel as [|fuel IH]; intros listable es cd dir d p sz Hk Hu Hin;
    [destruct Hin|].
  cbn [walk_dir] in Hin.
  destruct (cd >=? max_depth)%Z; [destruct Hin|].
  destruct listable; [|destruct Hin as [E|[]]; discriminate].
  apply in_flat_map in Hin. destruct Hin as [[name child] [Hitem Hin]].
  apply sorted_In in Hitem.
  destruct (skipped include_hidden (name, child)); [destruct Hin|]. cbn [fst snd] in Hin.
  pose proof (find_entry_unique _ _ _ Hk Hitem) as Hfind.
  destruct child as [sz' text | sz' l' es'].
  - destruct Hin as [E|[]]. inversion E; subst.
    exists [name], text. split; [reflexivity | exact Hfind].
  - destruct Hin as [E|Hin]; [discriminate|].
    destruct (cd <? max_depth - 1)%Z; [|destruct Hin].
    rewrite Forall_forall in Hu. specialize (Hu _ Hitem). cbn [snd] in Hu.
    apply unique_names_Dir in Hu. destruct Hu as [Hk' Hu'].
    destruct (IH _ _ _ _ _ _ _ Hk' Hu' Hin) as [rel [text [Hp Hrel]]].
    exists (name :: rel), text. split; [now rewrite Hp, <- app_assoc|].
    rewrite find_rel_cons, Hfind; [exact Hrel|].
    intros ->. discriminate.
Qed.

(** A directory with a file somewhere below it. *)
Lemma find_rel_has_file (p : list string) :
  forall es n, find_rel es p = Some n -> has_file n = true ->
               existsb (fun e => has_file (snd e)) es = true.
Proof.
  induction p as [|c p IH]; intros es n Hfind Hn; [discriminate|].
  destruct p as [|c' p].
  - simpl in Hfind. apply find_entry_In in Hfind.
    apply existsb_exists. now exists (c, n).
  - rewrite find_rel_cons in Hfind by discriminate.
    destruct (find_entry c es) as [[|sz l es']|] eqn:Hc; try discriminate.
    apply find_entry_In in Hc. apply existsb_exists.
    exists (c, Dir sz l es'). split; [assumption|]. simpl. now apply (IH es' n).
Qed.

Lemma files_shown_entry (ih : bool) (levels : nat) (sz : N) (listable : bool)
    (es : list (string * node)) (e : string * node) :
  files_shown ih levels (Dir sz listable es) = true ->
  In e es -> has_file (snd e) = true ->
  listable = true /\ (0 < levels)%nat /\ skipped ih e = false
  /\ files_shown ih (levels - 1) (snd e) = true.
Proof.
  simpl. intros H Hin He. rewrite forallb_forall in H. specialize (H _ Hin).
  rewrite He in H. simpl in H.
  repeat (apply andb_prop in H; destruct H as [H ?]).
  repeat split; auto.
  - now apply Nat.ltb_lt.
  - now apply negb_true_iff.
Qed.

(** Under [files_shown], the walk has the line of every file and of every
    directory with a file below it. *)
Lemma walk_dir_complete (lower : string -> string) (max_depth : Z) (include_hidden : bool) (p : list string) :
  forall fuel sz listable es current_depth dir n,
    find_rel es p = Some n -> has_file n = true ->
    files_shown include_hidden fuel (Dir sz listable es) = true ->
    Z.of_nat fuel = (max_depth - current_depth)%Z ->
    In (line_at n (current_depth + Z.of_nat (List.length p) - 1) (dir ++ p))
       (walk_dir lower fuel listable es max_depth include_hidden current_depth dir).
Proof.
  induction p as [|c p IH]; intros fuel sz listable es cd dir n Hfind Hn Hshown Hfuel;
    [discriminate|].
  assert (Hstep : forall child,
            In (c, child) es -> has_file child = true ->
            exists fuel',
              fuel = S fuel' /\ listable = true /\ (cd >=? max_depth)%Z = false
              /\ skipped include_hidden (c, child) = false
              /\ files_shown include_hidden fuel' child = true).
  { intros child Hin Hc.
    destruct (files_shown_entry _ _ _ _ _ _ Hshown Hin Hc) as [Hl [Hlev [Hsk Hsh]]].
    destruct fuel as [|fuel']; [lia|]. exists fuel'.
    repeat split; auto.
    - rewrite Z.geb_leb. apply Z.leb_gt. lia.
    - cbn [snd] in Hsh. now replace (S fuel' - 1) with fuel' in Hsh by lia. }
  destruct p as [|c' p].
  - simpl in Hfind. apply find_entry_In in Hfind.
    destruct (Hstep n Hfind Hn) as [fuel' [-> [-> [Hcd [Hsk _]]]]].
    cbn [walk_dir]. rewrite Hcd. apply in_flat_map. exists (c, n).
    split; [now apply sorted_In|]. rewrite Hsk. cbn [fst snd].
    replace (cd + Z.of_nat (List.length [c]) - 1)%Z with cd by (simpl; lia).
    destruct n; now left.
  - rewrite find_rel_cons in Hfind by discriminate.
    destruct (find_entry c es) as [[|sz' l' es']|] eqn:Hc; try discriminate.
    apply find_entry_In in Hc.
    assert (Hsub : existsb (fun e => has_file (snd e)) es' = true)
      by (now apply (find_rel_has_file _ _ _ Hfind)).
    destruct (Hstep (Dir sz' l' es') Hc Hsub) as [fuel' [-> [-> [Hcd [Hsk Hsh]]]]].
    assert (Hfuel' : (0 < fuel')%nat).
    { apply existsb_exists in Hsub. destruct Hsub as [e [He1 He2]].
      now destruct (files_shown_entry _ _ _ _ _ _ Hsh He1 He2) as [_ [H _]]. }
    cbn [walk_dir]. rewrite Hcd. apply in_flat_map. exists (c, Dir sz' l' es').
    split; [now apply sorted_In|]. rewrite Hsk. cbn [fst snd]. right.
    replace (cd <? max_depth - 1)%Z with true by (symmetry; apply Z.ltb_lt; lia).
    specialize (IH fuel' sz' l' es' (cd + 1)%Z (dir ++ [c]) n Hfind Hn Hsh).
    rewrite <- app_assoc in IH. simpl app in IH.
    replace (cd + Z.of_nat (List.length (c :: c' :: p)) - 1)%Z
      with (cd + 1 + Z.of_nat (List.length (c' :: p)) - 1)%Z
      by (simpl List.length; lia).
    apply IH. lia.
Qed.

(** The directories on the way to an entry. *)
Lemma find_rel_app (p q : list string) :
  forall es n,
    p <> [] -> q <> [] -> find_rel es (p ++ q) = Some n ->
    exists sz listable es',
      find_rel es p = Some (Dir sz listable es') /\ find_rel es' q = Some n.
Proof.
  induction p as [|c p IH]; intros es n Hp Hq Hfind; [contradiction|].
  simpl app in Hfind. rewrite find_rel_cons in Hfind
    by (destruct p; [assumption | discriminate]).
  destruct (find_entry c es) as [[|sz l es']|] eqn:Hc; try discriminate.
  destruct p as [|c' p].
  - exists sz, l, es'. simpl. now rewrite Hc.
  - destruct (IH es' n) as [sz' [l' [es'' [H1 H2]]]]; [discriminate | assumption | assumption |].
    exists sz', l', es''. rewrite find_rel_cons by discriminate. now rewrite Hc.
Qed.

(** *** The lines are those of the visible entries *)

Lemma skipped_spec (include_hidden : bool) (name : string) (n : node) :
  skipped include_hidden (name, n) = true <-> is_skipped include_hidden name n.
Proof.
  unfold skipped, is_skipped. cbn [fst snd].
  rewrite orb_true_iff, !andb_true_iff, negb_true_iff, startswith_iff, mem_In.
  reflexivity.
Qed.

Lemma skipped_false (include_hidden : bool) (name : string) (n : node) :
  skipped include_hidden (name, n) = false <-> ~ is_skipped include_hidden name n.
Proof.
  rewrite <- skipped_spec. now destruct (skipped include_hidden (name, n)).
Qed.

(** The lines of the entry [item] of a directory walked with [S fuel]
    levels left. *)
Lemma walk_dir_step (lower : string -> string) (max_depth : Z) (include_hidden : bool)
    (fuel : nat) (es : list (string * node)) (current_depth : Z) (dir : list string) :
  Z.of_nat (S fuel) = (max_depth - current_depth)%Z ->
  walk_dir lower (S fuel) true es max_depth include_hidden current_depth dir
  = flat_map
      (fun item =>
         if skipped include_hidden item then []
         else match snd item with
              | Dir _ l' es' =>
                  FolderLine current_depth (dir ++ [fst item])
                  :: walk_dir lower fuel l' es' max_depth include_hidden
                       (current_depth + 1) (dir ++ [fst item])
              | File sz _ => [FileLine current_depth (dir ++ [fst item]) sz]
              end)
      (sorted (tree_key_le lower) es).
Proof.
  intros Hfuel. cbn [walk_dir].
  replace (current_depth >=? max_depth)%Z with false
    by (symmetry; rewrite Z.geb_leb; apply Z.leb_gt; lia).
  apply flat_map_ext. intros [name child].
  destruct (skipped include_hidden (name, child)); [reflexivity|]. cbn [fst snd].
  destruct child as [sz text | sz l' es']; [reflexivity|]. f_equal.
  destruct (current_depth <? max_depth - 1)%Z eqn:H; [reflexivity|].
  apply Z.ltb_ge in H. now replace fuel with 0%nat by lia.
Qed.

(** The walk of a directory that cannot be listed. *)
Lemma walk_dir_denied (lower : string -> string) (max_depth : Z) (include_hidden : bool)
    (fuel : nat) (es : list (string * node)) (current_depth : Z) (dir : list string) :
  Z.of_nat fuel = (max_depth - current_depth)%Z ->
  walk_dir lower fuel false es max_depth include_hidden current_depth dir
  = match fuel with
    | O => []
    | S _ => [DeniedLine current_depth dir]
    end.
Proof.
  intros Hfuel. destruct fuel as [|fuel]; [reflexivity|]. cbn [walk_dir].
  now replace (current_depth >=? max_depth)%Z with false
    by (symmetry; rewrite Z.geb_leb; apply Z.leb_gt; lia).
Qed.

(** The lines of a walk are exactly the lines of the visible entries and
    the denial lines of the visible directories that cannot be listed. *)
Lemma walk_dir_lines (lower : string -> string) (max_depth : Z) (include_hidden : bool) :
  forall fuel es current_depth dir l,
    Z.of_nat fuel = (max_depth - current_depth)%Z ->
    In l (walk_dir lower fuel true es max_depth include_hidden current_depth dir) <->
    (exists p n, visible include_hidden fuel es p n
                 /\ l = line_at n (current_depth + Z.of_nat (List.length p) - 1) (dir ++ p))
    \/ (exists p sz es', visible include_hidden fuel es p (Dir sz false es')
                         /\ (List.length p < fuel)%nat
                         /\ l = DeniedLine (current_depth + Z.of_nat (List.length p))
                                           (dir ++ p)).
Proof.
  induction fuel as [|fuel IH]; intros es cd dir l Hfuel.
  - simpl. split; [tauto|].
    intros [[p [n [H _]]] | [p [sz [es' [H _]]]]]; inversion H.
  - rewrite walk_dir_step by exact Hfuel. rewrite in_flat_map.
    assert (Hsub : Z.of_nat fuel = (max_depth - (cd + 1))%Z) by lia.
    split.
    + intros [[name child] [Hitem Hin]]. apply sorted_In in Hitem.
      destruct (skipped include_hidden (name, child)) eqn:Hsk; [destruct Hin|].
      apply skipped_false in Hsk. cbn [fst snd] in Hin.
      destruct child as [sz text | sz l' es'].
      * destruct Hin as [<-|[]]. left. exists [name], (File sz text).
        split; [now constructor|]. simpl. f_equal. lia.
      * destruct Hin as [<-|Hin].
        -- left. exists [name], (Dir sz l' es'). split; [now constructor|].
           simpl. f_equal. lia.
        -- destruct l'.
           ++ apply (IH es' (cd + 1)%Z (dir ++ [name]) l Hsub) in Hin.
              destruct Hin as [[p [n [Hv ->]]] | [p [sz' [es'' [Hv [Hlen ->]]]]]].
              ** left. exists (name :: p), n.
                 split; [now apply (visible_below _ _ _ _ sz es')|].
                 rewrite <- app_assoc. simpl app. f_equal. simpl List.length. lia.
              ** right. exists (name :: p), sz', es''.
                 split; [now apply (visible_below _ _ _ _ sz es')|].
                 split; [simpl; lia|].
                 rewrite <- app_assoc. simpl app. f_equal. simpl List.length. lia.
           ++ rewrite walk_dir_denied in Hin by exact Hsub.
              destruct fuel as [|fuel]; [destruct Hin|]. destruct Hin as [<-|[]].
              right. exists [name], sz, es'. split; [now constructor|].
              split; [simpl; lia|]. simpl. f_equal; lia.
    + intros [[p [n [Hv ->]]] | [p [sz' [es'' [Hv [Hlen ->]]]]]].
      * inversion Hv as [lv es0 name n0 Hin Hsk | lv es0 name sz es' p' n0 Hin Hsk Hv'];
          subst.
        -- exists (name, n). split; [now apply sorted_In|].
           apply skipped_false in Hsk. rewrite Hsk. cbn [fst snd].
           replace (cd + Z.of_nat (List.length [name]) - 1)%Z with cd by (simpl; lia).
           destruct n; now left.
        -- exists (name, Dir sz true es'). split; [now apply sorted_In|].
           apply skipped_false in Hsk. rewrite Hsk. cbn [fst snd]. right.
           apply (IH es' (cd + 1)%Z (dir ++ [name]) _ Hsub). left. exists p', n.
           split; [exact Hv'|]. rewrite <- app_assoc. simpl app. f_equal.
           simpl List.length. lia.
      * inversion Hv as [lv es0 name n0 Hin Hsk | lv es0 name sz es' p' n0 Hin Hsk Hv'];
          subst.
        -- exists (name, Dir sz' false es''). split; [now apply sorted_In|].
           apply skipped_false in Hsk. rewrite Hsk. cbn [fst snd]. right.
           rewrite walk_dir_denied by exact Hsub.
           destruct fuel as [|fuel]; [simpl in Hlen; lia|]. left.
           simpl. f_equal; lia.
        -- exists (name, Dir sz true es'). split; [now apply sorted_In|].
           apply skipped_false in Hsk. rewrite Hsk. cbn [fst snd]. right.
           apply (IH es' (cd + 1)%Z (dir ++ [name]) _ Hsub). right. exists p', sz', es''.
           split; [exact Hv'|]. split; [simpl in Hlen; lia|].
           rewrite <- app_assoc. simpl app. f_equal. simpl List.length. lia.
Qed.

(** *** The rendered tree *)

(** C7, as the code has it.  The text rendered is made of the lines of
    the walk.  For a root that can be listed these are exactly: the line of
    every visible entry, that is of every entry at most [max_depth] levels
    down that is reached through directories that can be listed and
    through entries that are not passed over as hidden or excluded, a file
    line for a file and a directory line for a directory, whether it holds
    a file or not; and a denial line for every visible directory above the
    last level that cannot be listed, whose entries have no line.  A root
    that cannot be listed gives the denial line alone.  When the names in
    each directory are distinct no line comes twice.  No line belongs to an
    entry more than [max_depth] levels down.  When every file lies within
    [max_depth] levels on a way of listable directories and of entries not
    passed over, the file lines are exactly the lines of the files, and
    every directory that contains a file has its line.  With [max_depth]
    zero the answer is the empty text, whatever the root. *)
Theorem C7_tree_walk :
  forall (lower : string -> string) (fs : node) (root : path) (sz : N) (listable : bool)
         (es : list (string * node)) (max_depth : Z) (include_hidden : bool),
    lookup fs root = Some (Dir sz listable es) ->
    let levels := Z.to_nat max_depth in
    let lines := walk_dir lower levels listable es max_depth include_hidden 0 [] in
    _build_directory_tree lower fs root max_depth include_hidden 0
      = Ok (Str.join newline (map (line_text lower) lines))
    /\ (listable = true ->
        forall l, In l lines <-> expected_line include_hidden levels es l)
    /\ (listable = false -> (0 < max_depth)%Z -> lines = [DeniedLine 0 []])
    /\ (unique_names (Dir sz listable es) = true -> NoDup lines)
    /\ (forall l, In l lines -> (Z.of_nat (List.length (line_path l)) <= max_depth)%Z)
    /\ (unique_names (Dir sz listable es) = true ->
        files_shown include_hidden levels (Dir sz listable es) = true ->
        (forall p sz',
            (exists text, find_rel es p = Some (File sz' text))
            <-> In (FileLine (Z.of_nat (List.length p) - 1) p sz') lines)
        /\ (forall p q sz' text,
              p <> [] -> q <> [] -> find_rel es (p ++ q) = Some (File sz' text) ->
              In (FolderLine (Z.of_nat (List.length p) - 1) p) lines))
    /\ (forall fs' root', _build_directory_tree lower fs' root' 0 include_hidden 0 = Ok "").
Proof.
  intros lower fs root sz listable es max_depth ih Hroot levels lines.
  assert (Hbelow : forall l, In l lines -> line_below max_depth 0 [] l).
  { apply Forall_forall. apply walk_dir_below. }
  split; [|split; [|split; [|split; [|split; [|split]]]]].
  - unfold _build_directory_tree. rewrite Z.geb_leb.
    destruct (max_depth <=? 0)%Z eqn:Hmd.
    + apply Z.leb_le in Hmd. unfold lines, levels.
      replace (Z.to_nat max_depth) with 0%nat by lia. reflexivity.
    + rewrite Hroot. f_equal. rewrite Z.sub_0_r.
      apply tree_of_dir_lines.
  - intros -> l. unfold lines, expected_line.
    destruct (Z.leb_spec max_depth 0) as [Hmd | Hmd].
    + unfold levels. replace (Z.to_nat max_depth) with 0%nat by lia. simpl.
      split; [tauto|].
      intros [[p [n [H _]]] | [p [sz' [es' [H _]]]]]; inversion H.
    + rewrite (walk_dir_lines lower max_depth ih levels es 0 [] l) by (unfold levels; lia).
      simpl app. reflexivity.
  - intros -> Hmd. unfold lines. rewrite walk_dir_denied by (unfold levels; lia).
    destruct levels eqn:E; [unfold levels in E; lia | reflexivity].
  - intros Hnames. destruct (unique_names_Dir _ _ _ Hnames) as [Hk Hu].
    now apply walk_dir_NoDup.
  - intros l Hin. destruct (Hbelow _ Hin) as [rel [Hp [Hd Hlen]]].
    simpl in Hp. rewrite Hp. destruct l; simpl in *; lia.
  - intros Hnames Hshown. destruct (unique_names_Dir _ _ _ Hnames) as [Hk Hu].
    assert (Hlevels : forall p n, find_rel es p = Some n -> has_file n = true ->
                                  Z.of_nat levels = (max_depth - 0)%Z).
    { intros p n Hfind Hn.
      pose proof (find_rel_has_file _ _ _ Hfind Hn) as Hex.
      apply existsb_exists in Hex. destruct Hex as [e [He1 He2]].
      destruct (files_shown_entry _ _ _ _ _ _ Hshown He1 He2) as [_ [H _]].
      unfold levels in *. lia. }
    assert (Hcomplete : forall p n, find_rel es p = Some n -> has_file n = true ->
                                    In (line_of n p) lines).
    { intros p n Hfind Hn.
      exact (walk_dir_complete lower max_depth ih p levels sz listable es 0 []
               n Hfind Hn Hshown (Hlevels p n Hfind Hn)). }
    split.
    + intros p sz'. split.
      * intros [text Hfind]. apply (Hcomplete p (File sz' text) Hfind eq_refl).
      * intros Hin. apply walk_dir_file_sound in Hin; [|assumption|assumption].
        destruct Hin as [rel [text [Hp Hrel]]]. simpl in Hp. subst rel. now exists text.
    + intros p q sz' text Hp Hq Hfind.
      destruct (find_rel_app p q es _ Hp Hq Hfind) as [sz1 [l1 [es1 [H1 H2]]]].
      apply (Hcomplete p (Dir sz1 l1 es1) H1). simpl.
      now apply (find_rel_has_file q es1 (File sz' text)).
  - intros fs' root'. reflexivity.
Qed.

(** The project of [fs_tree] rendered two levels deep: the two files, the
    directory of the second one and the empty directory have their lines,
    and the walk has no line but these. *)
Lemma C7_tree_walk_witness :
  let es := [("README.md", File 120 "readme");
             ("src", Dir 4096 true [("app.py", File 2048 "import os")]);
             ("empty", Dir 4096 true []);
             (".git", Dir 4096 true [])] in
  let lines := walk_dir Str.ascii_lower 2 true es 2 false 0 [] in
  _build_directory_tree Str.ascii_lower fs_tree ["proj"] 2 false 0
    = Ok (Str.join newline (map (line_text Str.ascii_lower) lines))
  /\ In (FileLine 0 ["README.md"] 120) lines
  /\ In (FileLine 1 ["src"; "app.py"] 2048) lines
  /\ In (FolderLine 0 ["src"]) lines
  /\ expected_line false 2 es (FolderLine 0 ["empty"])
  /\ NoDup lines.
Proof.
  intros es lines.
  pose proof (C7_tree_walk Str.ascii_lower fs_tree ["proj"] 4096 true es 2 false eq_refl)
    as H.
  cbv zeta in H. destruct H as [H1 [H2 [_ [H4 [_ [H6 _]]]]]].
  destruct (H6 eq_refl eq_refl) as [H6a H6b].
  split; [exact H1|]. split; [|split; [|split; [|split]]].
  - apply (H6a ["README.md"] 120%N). now exists "readme".
  - apply (H6a ["src"; "app.py"] 2048%N). now exists "import os".
  - apply (H6b ["src"] ["app.py"] 2048%N "import os");
      [discriminate | discriminate | reflexivity].
  - apply (H2 eq_refl (FolderLine 0 ["empty"])). vm_compute. tauto.
  - apply H4. reflexivity.
Defined.

(** C7 as it is worded fails.  In the project of [fs_three] every file
    lies within two levels of the root and none is hidden or excluded.
    Rendered two levels deep, the tree has four lines: a directory line
    for [empty], which contains no file; a directory line for [locked] and
    under it a denial line, since [locked] cannot be listed; and the file
    line of [a.txt].  The file [locked/b.txt] has no line: the lines are
    not one line for each file and one for each directory that contains a
    file. *)
Lemma C7_counterexample :
  lookup fs_three ["proj"] = Some (Dir 4096 true es_three)
  /\ files_within false 2 (Dir 4096 true es_three) = true
  /\ find_rel es_three ["locked"; "b.txt"] = Some (File 1 "y")
  /\ find_rel es_three ["empty"] = Some (Dir 4096 true [])
  /\ has_file (Dir 4096 true []) = false
  /\ exists lines,
       _build_directory_tree Str.ascii_lower fs_three ["proj"] 2 false 0
       = Ok (Str.join newline lines)
       /\ lines = [folder_line "" "empty"; folder_line "" "locked"; denied_line "  ";
                   file_line Str.ascii_lower "" "a.txt" 1]
       /\ ~ In (file_line Str.ascii_lower "  " "b.txt" 1) lines
       /\ Forall (fun line => ~ substring "b.txt" line) lines.
Proof.
  repeat (split; [reflexivity|]).
  exists [folder_line "" "empty"; folder_line "" "locked"; denied_line "  ";
          file_line Str.ascii_lower "" "a.txt" 1].
  split; [reflexivity|]. split; [reflexivity|]. split.
  - intros [H|[H|[H|[H|[]]]]]; vm_compute in H; discriminate H.
  - apply Forall_not_substring. repeat constructor.
Qed.

(** What the walk gives there, line by line. *)
Example tree_walk_lines :
  walk_dir Str.ascii_lower 2 true es_three 2 false 0 []
  = [FolderLine 0 ["empty"]; FolderLine 0 ["locked"]; DeniedLine 1 ["locked"];
     FileLine 0 ["a.txt"] 1]
  /\ tree_of_dir Str.ascii_lower 2 true es_three 2 false 0
     = ICON_FOLDER +++ " empty/" +++ newline
       +++ ICON_FOLDER +++ " locked/" +++ newline
       +++ "  " +++ ICON_DENIED +++ " Permission denied" +++ newline
       +++ ICON_DOC +++ " a.txt (1.0B)".
Proof. repeat split. Qed.

(** * Further properties of the engine *)

(** ** Orders and sorting *)

Section SortedBy.
Context {A : Type} (le : A -> A -> bool).
Hypothesis le_total : forall x y, le x y = false -> le y x = true.
Hypothesis le_trans : forall x y z, le x y = true -> le y z = true -> le x z = true.

Lemma insert_sorted_ordered (x : A) (l : list A) :
  StronglySorted (fun a b => le a b = true) l ->
  StronglySorted (fun a b => le a b = true) (insert_sorted le x l).
Proof.
  induction 1 as [|y l Hl IH Hy]; simpl.
  - repeat constructor.
  - destruct (le x y) eqn:Hxy.
    + constructor; [now constructor|]. constructor; [assumption|].
      eapply Forall_impl; [|exact Hy]. intros z Hz. now apply (le_trans x y z).
    + constructor; [assumption|].
      eapply Permutation_Forall; [symmetry; apply insert_sorted_perm|].
      constructor; [now apply le_total | assumption].
Qed.

Lemma sorted_ordered (l : list A) :
  StronglySorted (fun a b => le a b = true) (sorted le l).
Proof.
  induction l as [|x l IH]; simpl; [constructor|]. now apply insert_sorted_ordered.
Qed.
End SortedBy.

Lemma ascii_compare_refl (a : ascii) : Ascii.compare a a = Eq.
Proof. apply N.compare_refl. Qed.

Lemma ascii_compare_lt_trans (a b c : ascii) :
  Ascii.compare a b = Lt -> Ascii.compare b c = Lt -> Ascii.compare a c = Lt.
Proof. unfold Ascii.compare. rewrite !N.compare_lt_iff. apply N.lt_trans. Qed.

Lemma string_compare_refl (s : string) : String.compare s s = Eq.
Proof. induction s as [|c s IH]; simpl; [reflexivity|]. now rewrite ascii_compare_refl. Qed.

Lemma string_compare_lt_trans (a : string) :
  forall b c, String.compare a b = Lt -> String.compare b c = Lt -> String.compare a c = Lt.
Proof.
  induction a as [|x a IH]; intros [|y b] [|z c]; simpl; try discriminate; auto.
  destruct (Ascii.compare x y) eqn:Hxy; try discriminate.
  - apply Ascii.compare_eq_iff in Hxy. subst y.
    destruct (Ascii.compare x z); try discriminate; auto. apply IH.
  - intros _. destruct (Ascii.compare y z) eqn:Hyz; try discriminate.
    + apply Ascii.compare_eq_iff in Hyz. subst z. now rewrite Hxy.
    + now rewrite (ascii_compare_lt_trans _ _ _ Hxy Hyz).
Qed.

Lemma list_compare_refl (a : list string) : Str.list_compare a a = Eq.
Proof. induction a as [|x a IH]; simpl; [reflexivity|]. now rewrite string_compare_refl. Qed.

Lemma list_compare_eq (a : list string) :
  forall b, Str.list_compare a b = Eq -> a = b.
Proof.
  induction a as [|x a IH]; intros [|y b]; simpl; try discriminate; auto.
  destruct (String.compare x y) eqn:Hxy; try discriminate.
  apply String.compare_eq_iff in Hxy. subst y. intros H. now rewrite (IH b H).
Qed.

Lemma list_compare_antisym (a : list string) :
  forall b, Str.list_compare a b = CompOpp (Str.list_compare b a).
Proof.
  induction a as [|x a IH]; intros [|y b]; simpl; auto.
  rewrite (String.compare_antisym x y).
  destruct (String.compare y x); simpl; auto.
Qed.

Lemma list_compare_lt_trans (a : list string) :
  forall b c, Str.list_compare a b = Lt -> Str.list_compare b c = Lt ->
              Str.list_compare a c = Lt.
Proof.
  induction a as [|x a IH]; intros [|y b] [|z c]; simpl; try discriminate; auto.
  destruct (String.compare x y) eqn:Hxy; try discriminate.
  - apply String.compare_eq_iff in Hxy. subst y.
    destruct (String.compare x z); try discriminate; auto. apply IH.
  - intros _. destruct (String.compare y z) eqn:Hyz; try discriminate.
    + apply String.compare_eq_iff in Hyz. subst z. now rewrite Hxy.
    + now rewrite (string_compare_lt_trans _ _ _ Hxy Hyz).
Qed.

Lemma path_le_total (x y : path) : path_le x y = false -> path_le y x = true.
Proof.
  unfold path_le, path_lt. rewrite (list_compare_antisym x y).
  destruct (Str.list_compare y x); simpl; auto.
Qed.

Lemma path_le_trans (x y z : path) :
  path_le x y = true -> path_le y z = true -> path_le x z = true.
Proof.
  unfold path_le, path_lt.
  rewrite (list_compare_antisym y x), (list_compare_antisym z y),
          (list_compare_antisym z x).
  destruct (Str.list_compare x y) eqn:Hxy; simpl; try discriminate; intros _.
  - apply list_compare_eq in Hxy. subst y. auto.
  - destruct (Str.list_compare y z) eqn:Hyz; simpl; try discriminate; intros _.
    + apply list_compare_eq in Hyz. subst z. now rewrite Hxy.
    + now rewrite (list_compare_lt_trans _ _ _ Hxy Hyz).
Qed.

(** ** The source file index, where it does return files *)

(** Every path that [rglob] yields is below [dir], by one component at
    least, and its name ends with the extension asked for. *)
Lemma rglob_node_sound (ext : string) (n : node) :
  forall (dir p : path),
    In p (rglob_node ext dir n) ->
    exists rel, p = dir ++ rel /\ rel <> [] /\ Str.endswith ext (last rel "") = true.
Proof.
  induction n as [sz text | sz listable es IH] using node_induction; intros dir p Hin.
  - destruct Hin.
  - simpl in Hin. destruct listable; [|destruct Hin].
    apply in_app_or in Hin. destruct Hin as [Hin | Hin].
    + apply in_map_iff in Hin. destruct Hin as [e [He Hf]].
      apply filter_In in Hf. destruct Hf as [_ Hf].
      exists [fst e]. repeat split; [now symmetry | discriminate | exact Hf].
    + apply in_flat_map in Hin. destruct Hin as [[name child] [He Hin]].
      rewrite Forall_forall in IH. specialize (IH _ He). simpl in IH.
      destruct (IH _ _ Hin) as [rel [Hrel [Hne Hend]]].
      exists (name :: rel). repeat split.
      * now rewrite Hrel, <- app_assoc.
      * discriminate.
      * destruct rel; [contradiction | exact Hend].
Qed.

Lemma last_app_nonempty (a b : list string) :
  b <> [] -> last (a ++ b) "" = last b "".
Proof.
  intros Hb. induction a as [|x a IH]; [reflexivity|].
  simpl app. simpl last. destruct (a ++ b) eqn:E; [|exact IH].
  apply app_eq_nil in E. tauto.
Qed.

(** X1: every path of the index lies below the root, none of its
    components (those of the root included) is an excluded name, and its
    file name ends in [.py], [.pyx] or [.pyi]. *)
Theorem get_python_files_sound :
  forall (fs : node) (root p : path),
    In p (_get_python_files fs {| root_directory := Some root |}) ->
    (exists rel, p = root ++ rel /\ rel <> [])
    /\ has_excluded_part p = false
    /\ (exists ext, In ext PYTHON_EXTENSIONS /\ Str.endswith ext (path_name p) = true).
Proof.
  intros fs root p Hin. unfold _get_python_files in Hin. cbn [root_directory] in Hin.
  apply sorted_In, filter_In in Hin. destruct Hin as [Hin Hex].
  apply negb_true_iff in Hex.
  apply in_flat_map in Hin. destruct Hin as [ext [Hext Hin]].
  unfold rglob in Hin. destruct (lookup fs root) as [n|]; [|destruct Hin].
  destruct (rglob_node_sound _ _ _ _ Hin) as [rel [Hp [Hne Hend]]].
  split; [now exists rel|]. split; [assumption|].
  exists ext. split; [assumption|].
  unfold path_name. now rewrite Hp, last_app_nonempty.
Qed.

Lemma get_python_files_sound_witness :
  (exists rel, ["proj"; "app.py"] = ["proj"] ++ rel /\ rel <> [])
  /\ has_excluded_part ["proj"; "app.py"] = false
  /\ (exists ext, In ext PYTHON_EXTENSIONS
                  /\ Str.endswith ext (path_name ["proj"; "app.py"]) = true).
Proof.
  apply (get_python_files_sound fs_imports ["proj"] ["proj"; "app.py"]).
  vm_compute. now left.
Defined.

(** X2: the index is in ascending order of paths, compared component by
    component; with no root it is empty. *)
Theorem get_python_files_ordered :
  forall (fs : node) (self : engine),
    StronglySorted (fun a b => path_le a b = true) (_get_python_files fs self)
    /\ (root_directory self = None -> _get_python_files fs self = []).
Proof.
  intros fs self. unfold _get_python_files. destruct (root_directory self).
  - split; [|discriminate].
    apply sorted_ordered; [apply path_le_total | apply path_le_trans].
  - split; [constructor | reflexivity].
Qed.

Lemma get_python_files_ordered_witness :
  _get_python_files fs_imports {| root_directory := None |} = [].
Proof.
  apply (get_python_files_ordered fs_imports {| root_directory := None |}). reflexivity.
Defined.

Lemma endswith_last_char (p s : string) :
  Str.endswith p s = true -> p <> "" -> last_char s = last_char p.
Proof.
  intros H Hp. induction s as [|c s IH]; simpl in H.
  - rewrite orb_false_r in H. apply String.eqb_eq in H. now subst.
  - apply orb_prop in H. destruct H as [H | H].
    + apply String.eqb_eq in H. now subst.
    + rewrite <- (IH H). simpl. rewrite (IH H).
      destruct p as [|a p]; [contradiction|]. simpl. now destruct (last_char p).
Qed.

Lemma NoDup_map_names (dir : path) (names : list string) :
  NoDup names -> NoDup (map (fun name => dir ++ [name]) names).
Proof.
  induction 1 as [|x l Hx Hl IH]; simpl; constructor; [|assumption].
  intros Hin. apply in_map_iff in Hin. destruct Hin as [y [Hy Hin]].
  apply app_inv_head in Hy. inversion Hy. now subst.
Qed.

Lemma NoDup_names_filter {A : Type} (f : string * A -> bool) (es : list (string * A)) :
  NoDup (map fst es) -> NoDup (map fst (filter f es)).
Proof.
  induction es as [|e es IH]; simpl; intros H; [constructor|].
  inversion H as [|? ? Hx Hl]; subst. destruct (f e); simpl; [|now apply IH].
  constructor; [|now apply IH]. intros Hin. apply Hx.
  apply in_map_iff in Hin. destruct Hin as [y [Hy Hin]].
  apply filter_In in Hin. rewrite <- Hy. apply in_map. tauto.
Qed.

(** In a tree whose directories have distinct names, [rglob] yields no
    path twice. *)
Lemma rglob_node_NoDup (ext : string) (n : node) :
  unique_names n = true -> forall dir, NoDup (rglob_node ext dir n).
Proof.
  induction n as [sz text | sz listable es IH] using node_induction; intros Hu dir.
  - constructor.
  - apply unique_names_Dir in Hu. destruct Hu as [Hk Hu].
    simpl. destruct listable; [|constructor].
    apply NoDup_app.
    + rewrite <- (map_map fst (fun name => dir ++ [name])).
      apply NoDup_map_names. now apply NoDup_names_filter.
    + apply NoDup_flat_map_keys; [assumption | |].
      * intros [name child] Hin. rewrite Forall_forall in IH, Hu.
        apply (IH _ Hin). apply (Hu _ Hin).
      * intros [x cx] [y cy] p _ _ Hx Hy. simpl.
        destruct (rglob_node_sound _ _ _ _ Hx) as [rel [Hp _]].
        destruct (rglob_node_sound _ _ _ _ Hy) as [rel' [Hp' _]].
        rewrite Hp, <- !app_assoc in Hp'. apply app_inv_head in Hp'. now inversion Hp'.
    + intros p Hown Hsub.
      apply in_map_iff in Hown. destruct Hown as [e [He _]].
      apply in_flat_map in Hsub. destruct Hsub as [[name child] [_ Hsub]].
      destruct (rglob_node_sound _ _ _ _ Hsub) as [rel [Hp [Hne _]]].
      rewrite Hp, <- app_assoc in He. apply app_inv_head in He.
      inversion He. now subst.
Qed.

(** X3: when the names in each directory below the root are distinct, as a
    filesystem has them, no path comes twice in the index, although the
    three collections, one per extension, are appended without a test. *)
Theorem get_python_files_NoDup :
  forall (fs : node) (root : path) (n : node),
    lookup fs root = Some n -> unique_names n = true ->
    NoDup (_get_python_files fs {| root_directory := Some root |}).
Proof.
  intros fs root n Hroot Hu. unfold _get_python_files. cbn [root_directory].
  eapply Permutation_NoDup; [symmetry; apply sorted_perm|].
  apply NoDup_filter.
  assert (Hone : forall ext, NoDup (rglob fs root ext)).
  { intros ext. unfold rglob. rewrite Hroot. now apply rglob_node_NoDup. }
  assert (Hlast : forall ext p, ext <> "" -> In p (rglob fs root ext) ->
                                last_char (path_name p) = last_char ext).
  { intros ext p Hext Hin. unfold rglob in Hin. rewrite Hroot in Hin.
    destruct (rglob_node_sound _ _ _ _ Hin) as [rel [Hp [Hne Hend]]].
    unfold path_name. rewrite Hp, last_app_nonempty by assumption.
    now apply endswith_last_char. }
  unfold PYTHON_EXTENSIONS. cbn [flat_map]. rewrite app_nil_r.
  apply NoDup_app; [apply Hone | apply NoDup_app; [apply Hone | apply Hone |] |].
  - intros p H1 H2. apply Hlast in H1; [|discriminate]. apply Hlast in H2; [|discriminate].
    rewrite H1 in H2. discriminate.
  - intros p H1 H2. apply Hlast in H1; [|discriminate].
    apply in_app_or in H2. destruct H2 as [H2 | H2];
      (apply Hlast in H2; [|discriminate]); rewrite H1 in H2; discriminate.
Qed.

Lemma get_python_files_NoDup_witness :
  NoDup (_get_python_files fs_tree {| root_directory := Some ["proj"] |}).
Proof.
  apply (get_python_files_NoDup fs_tree ["proj"]
           (Dir 4096 true
              [("README.md", File 120 "readme");
               ("src", Dir 4096 true [("app.py", File 2048 "import os")]);
               ("empty", Dir 4096 true []);
               (".git", Dir 4096 true [])])); reflexivity.
Defined.

(** ** Manifests *)

Lemma REQUIREMENTS_FILES_NoDup : NoDup REQUIREMENTS_FILES.
Proof. apply nodupb_NoDup. reflexivity. Qed.

(** The entries of [analyze_manifest] for [req_file]. *)
Lemma analyze_manifest_entry (fs : node) (root : path) (req_file name : string)
    (deps : list string) :
  In (name, deps) (analyze_manifest fs root req_file) ->
  name = req_file /\ deps <> [] /\ path_exists fs (root ++ [req_file]) = true
  /\ analyze_manifest fs root req_file = [(req_file, deps)].
Proof.
  unfold analyze_manifest.
  destruct (path_exists fs (root ++ [req_file])); [|intros []].
  match goal with |- In _ (match ?parsed with _ => _ end) -> _ =>
    destruct parsed as [[[|d ds]|e]|] end; try (intros H; now destruct H).
  intros [E|[]]. inversion E; subst. repeat split. discriminate.
Qed.

Lemma analyze_manifests_keys (fs : node) (root : path) (names : list string) :
  map fst (analyze_manifests names fs root)
  = filter (fun name => match analyze_manifest fs root name with
                        | [] => false
                        | _ :: _ => true
                        end) names.
Proof.
  induction names as [|name names IH]; [reflexivity|].
  unfold analyze_manifests in *. simpl flat_map. rewrite map_app, IH. simpl filter.
  destruct (analyze_manifest fs root name) as [|[k deps] rest] eqn:E; [reflexivity|].
  assert (Hin : In (k, deps) (analyze_manifest fs root name)) by (rewrite E; now left).
  destruct (analyze_manifest_entry _ _ _ _ _ Hin) as [-> [_ [_ Hone]]].
  rewrite E in Hone. inversion Hone; subst. reflexivity.
Qed.

(** X4: an entry of the manifest analysis is a recognized manifest other
    than the Pipfile, present at the root, with at least one dependency; and
    no manifest has two entries. *)
Theorem analyze_requirement_files_entries :
  forall (fs : node) (root : path),
    NoDup (map fst (_analyze_requirement_files fs root))
    /\ (forall name deps,
          In (name, deps) (_analyze_requirement_files fs root) ->
          In name REQUIREMENTS_FILES /\ name <> "Pipfile" /\ deps <> []
          /\ path_exists fs (root ++ [name]) = true).
Proof.
  intros fs root. split.
  - unfold _analyze_requirement_files. rewrite analyze_manifests_keys.
    apply NoDup_filter, REQUIREMENTS_FILES_NoDup.
  - intros name deps Hin. unfold _analyze_requirement_files, analyze_manifests in Hin.
    apply in_flat_map in Hin. destruct Hin as [req_file [Hreq Hin]].
    destruct (analyze_manifest_entry _ _ _ _ _ Hin) as [-> [Hd [He _]]].
    repeat split; auto. intros ->. now rewrite analyze_manifest_Pipfile in Hin.
Qed.

Lemma analyze_requirement_files_entries_witness :
  In "requirements.txt" REQUIREMENTS_FILES /\ "requirements.txt" <> "Pipfile"
  /\ ["requests>=2.0"] <> []
  /\ path_exists fs_requirements (["srv"; "proj"] ++ ["requirements.txt"]) = true.
Proof.
  destruct (analyze_requirement_files_entries fs_requirements ["srv"; "proj"]) as [_ H].
  apply H. vm_compute. now left.
Defined.

(** *** The declarative block format *)

Lemma pyproject_step_no_python (st : bool * list string) (line : string) :
  ~ In "python" (snd st) -> ~ In "python" (snd (pyproject_step st line)).
Proof.
  destruct st as [b deps]. unfold pyproject_step. simpl snd. intros H.
  destruct (_ || _); [exact H|].
  destruct (_ && b); [exact H|].
  destruct (b && _); [|exact H].
  match goal with |- context [String.eqb ?d "python"] =>
    destruct (String.eqb_spec d "python") as [E|E] end; simpl; [exact H|].
  intros Hin. apply in_app_or in Hin. destruct Hin as [Hin|[Hin|[]]]; auto.
Qed.

Lemma pyproject_fold_no_python (lines : list string) :
  forall st, ~ In "python" (snd st) ->
             ~ In "python" (snd (fold_left pyproject_step lines st)).
Proof.
  induction lines as [|line lines IH]; intros st H; simpl; [exact H|].
  apply IH. now apply pyproject_step_no_python.
Qed.

Lemma pyproject_fold_outside (lines : list string) :
  forall deps,
    Forall (fun line => is_deps_header (Str.strip line) = false) lines ->
    fold_left pyproject_step lines (false, deps) = (false, deps).
Proof.
  induction lines as [|line lines IH]; intros deps H; cbn [fold_left]; [reflexivity|].
  inversion H as [|? ? Hl Hls]; subst.
  replace (pyproject_step (false, deps) line) with (false, deps); [now apply IH|].
  unfold pyproject_step. unfold is_deps_header in Hl. rewrite Hl.
  now rewrite andb_false_r.
Qed.

(** X5: the dependencies read from a [pyproject.toml] never include the
    name [python]; and a file none of whose lines, trimmed, starts with one
    of the two section headers gives no dependency at all. *)
Theorem parse_pyproject_toml_python_and_headers :
  forall (fs : node) (file_path : path) (content : string) (lines deps : list string),
    _read_file_content fs file_path = Ok content -> lines_of content lines ->
    _parse_pyproject_toml fs file_path = Ok deps ->
    ~ In "python" deps
    /\ ((forall line t r,
           In line lines -> trimmed line t ->
           t <> "[tool.poetry.dependencies]" +++ r /\ t <> "dependencies = [" +++ r) ->
        deps = []).
Proof.
  intros fs file_path content lines deps Hread Hlines Hparse.
  apply lines_of_split in Hlines. subst lines.
  unfold _parse_pyproject_toml in Hparse. rewrite Hread in Hparse. simpl in Hparse.
  inversion Hparse as [Hdeps]. split.
  - apply pyproject_fold_no_python. simpl. tauto.
  - intros H. rewrite pyproject_fold_outside; [reflexivity|].
    apply Forall_forall. intros line Hin. unfold is_deps_header.
    apply orb_false_intro.
    + destruct (Str.startswith "[tool.poetry.dependencies]" (Str.strip line)) eqn:E;
        [|reflexivity].
      apply startswith_spec in E. destruct E as [r E].
      now destruct (H line (Str.strip line) r Hin (strip_trimmed line)) as [H1 _].
    + destruct (Str.startswith "dependencies = [" (Str.strip line)) eqn:E; [|reflexivity].
      apply startswith_spec in E. destruct E as [r E].
      now destruct (H line (Str.strip line) r Hin (strip_trimmed line)) as [_ H2].
Qed.

Lemma parse_pyproject_toml_python_and_headers_witness :
  ~ In "python" ["requests"]
  /\ _parse_pyproject_toml fs_plain ["proj"; "pyproject.toml"] = Ok [].
Proof.
  split.
  - apply (parse_pyproject_toml_python_and_headers fs_pyproject ["proj"; "pyproject.toml"]
             pyproject_text (Str.split newline pyproject_text) ["requests"]);
      [reflexivity | now apply lines_of_split | reflexivity].
  - destruct (_parse_pyproject_toml fs_plain ["proj"; "pyproject.toml"]) as [deps|e] eqn:E;
      [|discriminate E].
    destruct (parse_pyproject_toml_python_and_headers fs_plain ["proj"; "pyproject.toml"]
                plain_text (Str.split newline plain_text) deps eq_refl
                (proj2 (lines_of_split _ _) eq_refl) E) as [_ H].
    rewrite H; [reflexivity|].
    intros line t r [<-|[<-|[]]] Ht; apply strip_unique in Ht; subst t;
      split; discriminate.
Defined.

(** *** The extraction from a build script *)

Lemma startswith_refl (s : string) : Str.startswith s s = true.
Proof. induction s as [|c s IH]; simpl; [reflexivity|]. now rewrite Ascii.eqb_refl. Qed.

Lemma startswith_trans (a : string) :
  forall b c, Str.startswith a b = true -> Str.startswith b c = true ->
              Str.startswith a c = true.
Proof.
  induction a as [|x a IH]; intros b c Hab Hbc; [reflexivity|].
  destruct b as [|y b]; [discriminate|]. destruct c as [|z c]; [discriminate|].
  simpl in *. apply andb_prop in Hab. destruct Hab as [Hxy Hab].
  apply andb_prop in Hbc. destruct Hbc as [Hyz Hbc].
  apply Ascii.eqb_eq in Hxy. apply Ascii.eqb_eq in Hyz. subst.
  rewrite Ascii.eqb_refl. simpl. now apply (IH b c).
Qed.

(** The first piece of [s.split(sep)] is a prefix of [s]. *)
Lemma split_head_prefix (sep s : string) :
  Str.startswith (hd "" (Str.split sep s)) s = true.
Proof.
  unfold Str.split. induction s as [|c s IH]; simpl; [reflexivity|].
  destruct (Str.startswith sep (String c s)); [reflexivity|].
  destruct (Str.split_aux sep 0 s) as [|h t] eqn:E.
  - now apply split_aux_nonempty in E.
  - simpl in *. now rewrite Ascii.eqb_refl.
Qed.

(** The first piece of [s.split(sep)] has no occurrence of [sep]. *)
Lemma split_head_no_sep (sep s : string) :
  sep <> "" -> Str.contains sep (hd "" (Str.split sep s)) = false.
Proof.
  intros Hsep. unfold Str.split. induction s as [|c s IH]; simpl.
  - destruct sep; [contradiction | reflexivity].
  - destruct (Str.startswith sep (String c s)) eqn:Hs.
    + simpl. destruct sep; [contradiction | reflexivity].
    + pose proof (split_head_prefix sep s) as Hp. unfold Str.split in Hp.
      destruct (Str.split_aux sep 0 s) as [|h t] eqn:E.
      * now apply split_aux_nonempty in E.
      * simpl in IH, Hp. simpl hd. cbn [Str.contains]. rewrite IH, orb_false_r.
        destruct (Str.startswith sep (String c h)) eqn:Hh; [|reflexivity].
        rewrite <- Hs. symmetry. apply (startswith_trans _ _ _ Hh).
        simpl. now rewrite Ascii.eqb_refl.
Qed.

Lemma contains_prefix (sub : string) (h : string) :
  forall x, Str.startswith h x = true -> Str.contains sub h = true ->
            Str.contains sub x = true.
Proof.
  induction h as [|c h IH]; intros x Hp Hc.
  - simpl in Hc. rewrite orb_false_r in Hc. destruct sub; [|discriminate].
    destruct x; reflexivity.
  - destruct x as [|d x]; [discriminate|]. simpl in Hp.
    apply andb_prop in Hp. destruct Hp as [Hcd Hp]. apply Ascii.eqb_eq in Hcd. subst d.
    cbn [Str.contains] in *. apply orb_prop in Hc. destruct Hc as [Hc | Hc].
    + replace (Str.startswith sub (String c x)) with true; [reflexivity|].
      symmetry. apply (startswith_trans _ _ _ Hc). simpl. now rewrite Ascii.eqb_refl.
    + rewrite (IH x Hp Hc). apply orb_true_r.
Qed.

Lemma contains_lstrip (sub s : string) :
  Str.contains sub (Str.lstrip s) = true -> Str.contains sub s = true.
Proof.
  rewrite !contains_spec. intros [a [b H]].
  destruct (lstrip_spec s) as [ws [E _]]. rewrite E, H.
  exists (ws +++ a), b. now rewrite append_assoc.
Qed.

Lemma contains_strip (sub s : string) :
  Str.contains sub (Str.strip s) = true -> Str.contains sub s = true.
Proof.
  unfold Str.strip. intros H. apply contains_lstrip.
  apply (contains_prefix sub _ _ (rstrip_prefix _) H).
Qed.

Lemma not_contains_prefix (sub h x : string) :
  Str.startswith h x = true -> Str.contains sub x = false -> Str.contains sub h = false.
Proof.
  intros Hp Hx. destruct (Str.contains sub h) eqn:E; [|reflexivity].
  now rewrite (contains_prefix _ _ _ Hp E) in Hx.
Qed.

(** What is left of a requirement has none of the three operators. *)
Lemma strip_version_no_operator (pkg : string) :
  Str.contains ">=" (strip_version pkg) = false
  /\ Str.contains "==" (strip_version pkg) = false
  /\ Str.contains "<" (strip_version pkg) = false.
Proof.
  unfold strip_version.
  set (a := hd "" (Str.split ">=" pkg)).
  set (b := hd "" (Str.split "==" a)).
  set (c := hd "" (Str.split "<" b)).
  assert (Ha : Str.contains ">=" a = false) by (apply split_head_no_sep; discriminate).
  assert (Hb : Str.contains "==" b = false) by (apply split_head_no_sep; discriminate).
  assert (Hc : Str.contains "<" c = false) by (apply split_head_no_sep; discriminate).
  assert (Hba : Str.startswith b a = true) by apply split_head_prefix.
  assert (Hcb : Str.startswith c b = true) by apply split_head_prefix.
  assert (Hb' : Str.contains ">=" b = false) by (apply (not_contains_prefix _ _ _ Hba Ha)).
  assert (Hc1 : Str.contains ">=" c = false) by (apply (not_contains_prefix _ _ _ Hcb Hb')).
  assert (Hc2 : Str.contains "==" c = false) by (apply (not_contains_prefix _ _ _ Hcb Hb)).
  repeat split.
  - destruct (Str.contains ">=" (Str.strip c)) eqn:E; [|reflexivity].
    now rewrite (contains_strip _ _ E) in Hc1.
  - destruct (Str.contains "==" (Str.strip c)) eqn:E; [|reflexivity].
    now rewrite (contains_strip _ _ E) in Hc2.
  - destruct (Str.contains "<" (Str.strip c)) eqn:E; [|reflexivity].
    now rewrite (contains_strip _ _ E) in Hc.
Qed.

(** X6: a dependency read from [setup.py] or [setup.cfg] never carries a
    [>=], [==] or [<] constraint. *)
Theorem parse_setup_file_no_operator :
  forall (fs : node) (file_path : path) (deps : list string) (dep : string),
    _parse_setup_file fs file_path = Ok deps -> In dep deps ->
    Str.contains ">=" dep = false /\ Str.contains "==" dep = false
    /\ Str.contains "<" dep = false.
Proof.
  intros fs file_path deps dep Hparse Hin. unfold _parse_setup_file in Hparse.
  destruct (_read_file_content fs file_path) as [content|e]; [|discriminate].
  cbn [bind] in Hparse.
  assert (E : deps = flat_map (fun kw =>
                flat_map (fun m => map strip_version (findall match_quoted m))
                         (findall (match_requires kw) content)) setup_patterns)
    by (now inversion Hparse).
  subst deps. clear Hparse.
  apply in_flat_map in Hin. destruct Hin as [kw [_ Hin]].
  apply in_flat_map in Hin. destruct Hin as [m [_ Hin]].
  apply in_map_iff in Hin. destruct Hin as [pkg [<- _]].
  apply strip_version_no_operator.
Qed.

Lemma parse_setup_file_no_operator_witness :
  Str.contains ">=" "requests" = false /\ Str.contains "==" "requests" = false
  /\ Str.contains "<" "requests" = false.
Proof.
  apply (parse_setup_file_no_operator fs_setup ["proj"; "setup.py"]
           ["requests"; "flask"; "requests"; "flask"] "requests");
    [reflexivity | now left].
Defined.

(** ** The tally and its report *)

Lemma incr_keys (module : string) (counts : tally) :
  map fst (incr module counts)
  = if Str.mem module (map fst counts) then map fst counts
    else map fst counts ++ [module].
Proof.
  induction counts as [|[k v] counts IH]; [reflexivity|].
  simpl. destruct (String.eqb module k); simpl; [reflexivity|].
  rewrite IH. fold (Str.mem module (map fst counts)).
  now destruct (Str.mem module (map fst counts)).
Qed.

Lemma incr_NoDup (module : string) (counts : tally) :
  NoDup (map fst counts) -> NoDup (map fst (incr module counts)).
Proof.
  intros H. rewrite incr_keys. destruct (Str.mem module (map fst counts)) eqn:E; [exact H|].
  apply NoDup_app; [exact H | repeat constructor; intros [] |].
  intros a Ha [<-|[]]. apply mem_In in Ha. now rewrite Ha in E.
Qed.

Lemma incr_positive (module : string) (counts : tally) :
  Forall (fun kv => 1 <= snd kv) counts ->
  Forall (fun kv => 1 <= snd kv) (incr module counts).
Proof.
  induction 1 as [|[k v] counts Hk Hc IH]; simpl.
  - repeat constructor.
  - destruct (String.eqb module k); constructor; simpl in *; auto; lia.
Qed.

Lemma incr_sum (module : string) (counts : tally) :
  sum_nat (map snd (incr module counts)) = S (sum_nat (map snd counts)).
Proof.
  unfold sum_nat. induction counts as [|[k v] counts IH]; [reflexivity|].
  cbn [incr]. destruct (String.eqb module k); cbn [map snd fold_right].
  - lia.
  - rewrite IH. lia.
Qed.

Lemma tally_line_ok (counts : tally) (line : string) :
  tally_ok counts ->
  tally_ok (tally_line counts line)
  /\ sum_nat (map snd (tally_line counts line))
     = sum_nat (map snd counts) + (if is_import line then 1 else 0).
Proof.
  intros [H1 H2]. rewrite tally_line_eq. unfold is_import, tally_ok.
  destruct (import_group (Str.strip line)) as [g|].
  - rewrite incr_sum. repeat split; [now apply incr_NoDup | now apply incr_positive | lia].
  - repeat split; auto.
Qed.

(** An import line, said on the text. *)
Lemma is_import_spec (line : string) :
  is_import line = true <->
  exists t g, trimmed line t /\ (import_line t g \/ from_line t g).
Proof.
  unfold is_import. split.
  - destruct (import_group (Str.strip line)) as [g|] eqn:E; [|discriminate].
    intros _. exists (Str.strip line), g. split; [apply strip_trimmed|].
    now apply import_group_spec.
  - intros [t [g [Ht Hg]]]. apply strip_unique in Ht. subst t.
    apply import_group_spec in Hg. now rewrite Hg.
Qed.

Lemma tally_lines_ok (lines : list string) :
  forall counts,
    tally_ok counts ->
    tally_ok (fold_left tally_line lines counts)
    /\ sum_nat (map snd (fold_left tally_line lines counts))
       = sum_nat (map snd counts) + List.length (filter is_import lines).
Proof.
  induction lines as [|line lines IH]; intros counts H; simpl; [split; [exact H | lia]|].
  destruct (tally_line_ok counts line H) as [H1 H2].
  destruct (IH _ H1) as [H3 H4]. split; [exact H3|].
  rewrite H4, H2. destruct (is_import line); simpl; lia.
Qed.

Lemma tally_files_ok (fs : node) (files : list path) :
  forall counts,
    tally_ok counts ->
    tally_ok (fold_left (tally_file fs) files counts)
    /\ sum_nat (map snd (fold_left (tally_file fs) files counts))
       = sum_nat (map snd counts)
         + List.length (filter is_import
                          (flat_map (fun file_path =>
                                       match _read_file_content fs file_path with
                                       | Ok content => Str.split newline content
                                       | Raise _ => []
                                       end) files)).
Proof.
  induction files as [|f files IH]; intros counts H; simpl; [split; [exact H | lia]|].
  unfold tally_file at 2 4.
  destruct (_read_file_content fs f) as [content|e]; simpl.
  - destruct (tally_lines_ok (Str.split newline content) counts H) as [H1 H2].
    destruct (IH _ H1) as [H3 H4]. split; [exact H3|].
    rewrite H4, H2, filter_app, length_app. lia.
  - apply IH, H.
Qed.

(** X7: in the tally of a project every module has one entry, every count
    is one at least, and the counts add up to the number of import lines in
    the source files that can be read, an import line being one that,
    trimmed, is [import] or [from], white space and a module token
    (followed, for [from], by white space and [import]). *)
Theorem analyze_imports_invariants :
  forall (fs : node) (self : engine),
    NoDup (map fst (_analyze_imports fs self))
    /\ Forall (fun kv => 1 <= snd kv) (_analyze_imports fs self)
    /\ sum_nat (map snd (_analyze_imports fs self))
       = List.length (filter is_import (source_lines fs self))
    /\ (forall line,
          is_import line = true <->
          exists t g, trimmed line t /\ (import_line t g \/ from_line t g)).
Proof.
  intros fs self. unfold _analyze_imports, source_lines.
  destruct (tally_files_ok fs (_get_python_files fs self) [])
    as [[H1 H2] H3]; [split; constructor|].
  repeat split; try assumption; apply is_import_spec.
Qed.

Lemma StronglySorted_app_inv {A : Type} (R : A -> A -> Prop) (l1 l2 : list A) :
  StronglySorted R (l1 ++ l2) -> forall a b, In a l1 -> In b l2 -> R a b.
Proof.
  induction l1 as [|x l1 IH]; intros H a b Ha Hb; [destruct Ha|].
  simpl in H. inversion H as [|? ? Hs Hf]; subst. destruct Ha as [<-|Ha].
  - rewrite Forall_forall in Hf. apply Hf, in_or_app. now right.
  - now apply IH.
Qed.

Lemma StronglySorted_weaken {A : Type} (R R' : A -> A -> Prop) (l : list A) :
  (forall a b, R a b -> R' a b) -> StronglySorted R l -> StronglySorted R' l.
Proof.
  intros HR. induction 1 as [|x l Hl IH Hx]; constructor; [assumption|].
  eapply Forall_impl; [|exact Hx]. intros b. apply HR.
Qed.

(** X8: the report of the imports rearranges the tally by descending count,
    and a module among the twenty shown is used at least as often as any
    module left out. *)
Theorem sorted_imports_descending :
  forall (imports : tally),
    Permutation (sorted_imports imports) imports
    /\ StronglySorted (fun a b => snd b <= snd a) (sorted_imports imports)
    /\ (forall a b, In a (firstn 20 (sorted_imports imports)) ->
                    In b (skipn 20 (sorted_imports imports)) -> snd b <= snd a).
Proof.
  intros imports.
  assert (Hs : StronglySorted (fun a b => snd b <= snd a) (sorted_imports imports)).
  { unfold sorted_imports.
    apply (StronglySorted_weaken (fun a b => (snd b <=? snd a)%nat = true)).
    - intros a b Hab. now apply Nat.leb_le in Hab.
    - apply sorted_ordered.
      + intros x y Hxy. apply Nat.leb_gt in Hxy. apply Nat.leb_le. lia.
      + intros x y z Hxy Hyz. apply Nat.leb_le in Hxy, Hyz. apply Nat.leb_le. lia. }
  split; [apply sorted_perm|]. split; [exact Hs|].
  intros a b Ha Hb. rewrite <- (firstn_skipn 20 (sorted_imports imports)) in Hs.
  apply (StronglySorted_app_inv _ _ _ Hs a b Ha Hb).
Qed.

Lemma sorted_imports_descending_witness :
  snd ("re", 1) <= snd ("os", 3).
Proof.
  destruct (sorted_imports_descending
              (repeat ("re", 1) 20 ++ [("os", 3)])) as [_ [_ H]].
  apply H; vm_compute; tauto.
Defined.
(** ** More on the code search *)

Lemma contains_empty (s : string) : Str.contains "" s = true.
Proof. destruct s; reflexivity. Qed.

Lemma line_matches_all (lower : string -> string) (rel : string) (cs : bool)
    (lines : list string) :
  (cs = false -> lower "" = "") ->
  forall line_num,
    map match_line (line_matches lower rel "" cs line_num lines)
    = seq line_num (List.length lines).
Proof.
  intros Hlower. induction lines as [|l lines IH]; intros k; [reflexivity|].
  cbn [line_matches]. replace (Str.contains _ _) with true.
  - simpl. now rewrite IH.
  - symmetry. destruct cs; [|rewrite (Hlower eq_refl)]; apply contains_empty.
Qed.

(** X9: the empty query matches every line: a file that can be read gives
    one match per line, numbered from one to the number of its lines,
    whether case is regarded or not.  All that is asked of [lower], when
    case is not regarded, is to leave the empty text empty, as
    [str.lower] does. *)
Theorem search_empty_query_matches_every_line :
  forall (lower : string -> string) (fs : node) (root file_path : path)
         (rel : list string) (content : string) (case_sensitive : bool),
    (case_sensitive = false -> lower "" = "") ->
    _read_file_content fs file_path = Ok content ->
    relative_to file_path root = Ok rel ->
    map match_line (file_matches lower fs root "" case_sensitive file_path)
    = seq 1 (List.length (Str.split newline content)).
Proof.
  intros lower fs root file_path rel content cs Hlower Hread Hrel.
  unfold file_matches. rewrite Hread, Hrel. now apply line_matches_all.
Qed.

Lemma search_empty_query_matches_every_line_witness :
  map match_line (file_matches Str.ascii_lower fs_todo ["proj"] "" false
                    ["proj"; "notes.py"]) = [1; 2]
  /\ map match_line (file_matches Str.ascii_lower fs_todo ["proj"] "" true
                       ["proj"; "notes.py"]) = [1; 2].
Proof.
  split.
  - apply (search_empty_query_matches_every_line Str.ascii_lower fs_todo ["proj"]
             ["proj"; "notes.py"] ["notes.py"] ("x = 1" +++ newline +++ "    # todo: fix")
             false); reflexivity.
  - apply (search_empty_query_matches_every_line Str.ascii_lower fs_todo ["proj"]
             ["proj"; "notes.py"] ["notes.py"] ("x = 1" +++ newline +++ "    # todo: fix")
             true); [discriminate | reflexivity | reflexivity].
Defined.

(** ** Setting the root *)

Lemma path_is_dir_exists (fs : node) (p : path) :
  path_is_dir fs p = true -> path_exists fs p = true.
Proof. unfold path_is_dir, path_exists. now destruct (lookup fs p). Qed.

(** X11: for a path argument that the system takes as written, and
    resolves to a path within its limits, the root changes exactly when
    the path, resolved, is an existing directory, and then it becomes that
    directory; a path that does not exist, or is not a directory, leaves
    the engine as it was and is answered with the matching error. *)
Theorem set_project_root_outcome :
  forall (cwd : path) (fs : node) (self : engine) (p : string),
    let r := resolve cwd (parse_path p) in
    plain_argument p = true -> names_fit r = true ->
    (path_is_dir fs r = true ->
       root_directory (fst (_set_project_root cwd fs self p)) = Some r)
    /\ (path_exists fs r = false ->
       _set_project_root cwd fs self p = (self, "Error: Path does not exist: " +++ p))
    /\ (path_exists fs r = true -> path_is_dir fs r = false ->
       _set_project_root cwd fs self p = (self, "Error: Path is not a directory: " +++ p)).
Proof.
  intros cwd fs self p r _ _. repeat split.
  - intros H. rewrite set_project_root_state. fold r.
    now rewrite (path_is_dir_exists _ _ H), H.
  - intros H. unfold _set_project_root. fold r. now rewrite H.
  - intros H1 H2. unfold _set_project_root. fold r. now rewrite H1, H2.
Qed.

Lemma set_project_root_outcome_witness :
  root_directory (fst (_set_project_root [] fs_locked {| root_directory := None |}
                         "fresh/../fresh")) = Some ["fresh"]
  /\ _set_project_root [] fs_locked {| root_directory := None |} "/missing"
     = ({| root_directory := None |}, "Error: Path does not exist: /missing")
  /\ _set_project_root [] fs_locked {| root_directory := None |} "/notes.txt"
     = ({| root_directory := None |}, "Error: Path is not a directory: /notes.txt").
Proof.
  destruct (set_project_root_outcome [] fs_locked {| root_directory := None |}
              "fresh/../fresh" eq_refl eq_refl) as [H1 _].
  destruct (set_project_root_outcome [] fs_locked {| root_directory := None |}
              "/missing" eq_refl eq_refl) as [_ [H2 _]].
  destruct (set_project_root_outcome [] fs_locked {| root_directory := None |}
              "/notes.txt" eq_refl eq_refl) as [_ [_ H3]].
  split; [apply H1; reflexivity|]. split; [apply H2; reflexivity|].
  apply H3; reflexivity.
Defined.

(** ** Reading by a relative path *)

(** X13: a file named by a path relative to the root, and readable, is
    answered with a header that gives that relative path back, a blank
    line, and the content. *)
Theorem read_file_relative :
  forall (fs : node) (root : path) (file_path : string) (rel : list string)
         (content : string),
    parse_path file_path = Rel rel ->
    _read_file_content fs (root ++ rel) = Ok content ->
    _read_file fs {| root_directory := Some root |} file_path
    = "File: " +++ rel_str rel +++ newline +++ newline +++ content.
Proof.
  intros fs root file_path rel content Hparse Hread.
  unfold _read_file. cbn [root_directory]. rewrite Hparse, Hread.
  unfold relative_to. rewrite strip_prefix_app. reflexivity.
Qed.

Lemma read_file_relative_witness :
  _read_file fs_tree {| root_directory := Some ["proj"] |} "src/./app.py"
  = "File: src/app.py" +++ newline +++ newline +++ "import os".
Proof.
  apply (read_file_relative fs_tree ["proj"] "src/./app.py" ["src"; "app.py"] "import os");
    reflexivity.
Defined.

(** ** The overview of an empty project *)

Lemma resolve_from_snoc (c : string) (p : list string) :
  String.eqb c ".." = false ->
  forall up cur n,
    resolve_from up cur p = Some n ->
    resolve_from up cur (p ++ [c])
    = match n with
      | Dir _ _ es => find_entry c es
      | File _ _ => None
      end.
Proof.
  intros Hc. induction p as [|d p IH]; intros up cur n H.
  - simpl in H. inversion H; subst n. simpl. destruct cur as [|sz l es]; [reflexivity|].
    rewrite Hc. now destruct (find_entry c es).
  - simpl app. simpl in *. destruct cur as [|sz l es]; [discriminate|].
    destruct (String.eqb d "..").
    + destruct up; now apply IH.
    + destruct (find_entry d es); [now apply IH | discriminate].
Qed.

Lemma path_exists_in_dir (fs : node) (root : path) (sz : N) (listable : bool)
    (es : list (string * node)) (name : string) :
  lookup fs root = Some (Dir sz listable es) -> String.eqb name ".." = false ->
  path_exists fs (root ++ [name])
  = match find_entry name es with Some _ => true | None => false end.
Proof.
  intros Hroot Hname. unfold path_exists, lookup in *.
  now rewrite (resolve_from_snoc name root Hname _ _ _ Hroot).
Qed.

(** X14: for a root that is an empty directory the overview is produced,
    not an error: the title, the root, zero Python files, and none of the
    lines for packages, configuration files, documentation or
    dependencies. *)
Theorem overview_of_empty_project :
  forall (fs : node) (root : path) (sz : N),
    lookup fs root = Some (Dir sz true []) ->
    _generate_project_overview fs {| root_directory := Some root |}
    = Ok ("Python Project Overview: " +++ path_name root +++ newline
          +++ Str.repeat_str "=" (25 + Str.len (path_name root))
          +++ newline +++ newline
          +++ ICON_FOLDER +++ " Project Root: " +++ path_str root +++ newline
          +++ ICON_PYTHON +++ " Python Files: 0" +++ newline
          +++ newline +++ Str.repeat_str "=" 50 +++ newline
          +++ "Use other tools to explore specific aspects of the project!").
Proof.
  intros fs root sz Hroot.
  assert (Hex : forall name, String.eqb name ".." = false ->
                             path_exists fs (root ++ [name]) = false).
  { intros name Hn. now rewrite (path_exists_in_dir _ _ _ _ _ _ Hroot Hn). }
  unfold _generate_project_overview. cbn [root_directory].
  assert (Hfiles : _get_python_files fs {| root_directory := Some root |} = []).
  { unfold _get_python_files, rglob. cbn [root_directory]. rewrite Hroot. reflexivity. }
  assert (Hdeps : _analyze_requirement_files fs root = []).
  { unfold _analyze_requirement_files, analyze_manifests, REQUIREMENTS_FILES, analyze_manifest.
    cbn [flat_map]. rewrite !Hex by reflexivity. reflexivity. }
  assert (Hdocs : flat_map (glob fs root) DOC_EXTENSIONS = []).
  { unfold glob. rewrite Hroot. reflexivity. }
  rewrite Hfiles, Hdeps, Hdocs. unfold iterdir. rewrite Hroot.
  unfold REQUIREMENTS_FILES. cbn [filter bind]. rewrite !Hex by reflexivity.
  cbn [packages_section List.length]. f_equal.
  change (Str.of_nat 0) with "0".
  rewrite !append_nil_r, !append_assoc. reflexivity.
Qed.

Lemma overview_of_empty_project_witness :
  _generate_project_overview fs_locked {| root_directory := Some ["fresh"] |}
  = Ok ("Python Project Overview: fresh" +++ newline
        +++ Str.repeat_str "=" 30 +++ newline +++ newline
        +++ ICON_FOLDER +++ " Project Root: /fresh" +++ newline
        +++ ICON_PYTHON +++ " Python Files: 0" +++ newline
        +++ newline +++ Str.repeat_str "=" 50 +++ newline
        +++ "Use other tools to explore specific aspects of the project!").
Proof.
  exact (overview_of_empty_project fs_locked ["fresh"] 4096 eq_refl).
Defined.

(** ** Finding files without the tests *)

Lemma get_python_files_below (fs : node) (root p : path) :
  In p (_get_python_files fs {| root_directory := Some root |}) ->
  exists rel, p = root ++ rel.
Proof.
  unfold _get_python_files. cbn [root_directory]. intros Hin.
  apply sorted_In, filter_In in Hin. destruct Hin as [Hin _].
  apply in_flat_map in Hin. destruct Hin as [ext [_ Hin]].
  unfold rglob in Hin. destruct (lookup fs root) as [n|]; [|destruct Hin].
  apply (rglob_node_below _ _ _ _ Hin).
Qed.

(** X15: the test for test files runs over all the components of the
    absolute path: when a component of the root itself starts with [test],
    asking for the files without the tests finds no file at all. *)
Theorem find_python_files_without_tests_under_test_root :
  forall (fnmatch : string -> string -> bool) (fs : node) (root : path)
         (pattern : option string),
    existsb (Str.startswith "test") root = true ->
    _find_python_files fnmatch fs {| root_directory := Some root |} pattern false
    = "No Python files found matching criteria".
Proof.
  intros fnmatch fs root pattern Hroot. unfold _find_python_files.
  cbn [root_directory negb].
  rewrite filter_none; [reflexivity|].
  intros p Hin. apply negb_false_iff.
  assert (Hp : In p (_get_python_files fs {| root_directory := Some root |})).
  { unfold filter_pattern in Hin. destruct (given pattern); [|assumption].
    apply filter_In in Hin. tauto. }
  destruct (get_python_files_below _ _ _ Hp) as [rel ->].
  now rewrite existsb_app, Hroot.
Qed.

Lemma find_python_files_without_tests_under_test_root_witness :
  _get_python_files fs_testdir {| root_directory := Some ["tests"; "proj"] |}
    = [["tests"; "proj"; "main.py"]]
  /\ _find_python_files (fun _ _ => true) fs_testdir
       {| root_directory := Some ["tests"; "proj"] |} None false
     = "No Python files found matching criteria".
Proof.
  split; [reflexivity|].
  apply (find_python_files_without_tests_under_test_root (fun _ _ => true) fs_testdir
           ["tests"; "proj"] None).
  reflexivity.
Defined.

(** ** Sizes and icons *)

Lemma fmt_1f_exact (k den : N) :
  (0 < den)%N -> fmt_1f (k * den) den = Str.of_N k +++ ".0".
Proof.
  intros Hden. unfold fmt_1f.
  replace (k * den * 10)%N with (k * 10 * den)%N by lia.
  rewrite N.div_mul by lia. rewrite N.Div0.mod_mul.
  replace (den <? 2 * 0)%N with false by (symmetry; apply N.ltb_ge; lia).
  replace (2 * 0 =? den)%N with false by (symmetry; apply N.eqb_neq; lia).
  rewrite N.div_mul by lia. rewrite N.Div0.mod_mul. reflexivity.
Qed.

Lemma fmt_1f_rounds_up (num : N) :
  (1048525 <= num < 1048576)%N -> fmt_1f num 1024 = "1024.0".
Proof.
  intros H. unfold fmt_1f.
  assert (Hq : (num * 10 / 1024 = 10239)%N).
  { symmetry. apply (N.div_unique _ _ _ (num * 10 - 10484736)%N); lia. }
  assert (Hr : (num * 10 mod 1024 = num * 10 - 10484736)%N).
  { symmetry. apply (N.mod_unique _ _ 10239%N); lia. }
  rewrite Hq, Hr.
  replace (1024 <? 2 * (num * 10 - 10484736))%N with true
    by (symmetry; apply N.ltb_lt; lia).
  reflexivity.
Qed.

(** X16: a size below 1024 bytes prints as the whole number with [.0B]; a
    whole number of kilobytes below 1024 prints as that number with
    [.0KB]; and the fifty-one sizes just below one megabyte, from 1,048,525
    bytes on, print as [1024.0KB], since the unit is chosen before the
    value is rounded. *)
Theorem format_file_size_units :
  forall (size k : N),
    ((size < 1024)%N -> _format_file_size size = Str.of_N size +++ ".0B")
    /\ ((1 <= k < 1024)%N -> _format_file_size (k * 1024) = Str.of_N k +++ ".0KB")
    /\ ((1048525 <= size < 1048576)%N -> _format_file_size size = "1024.0KB").
Proof.
  intros size k. unfold _format_file_size. repeat split.
  - intros H. rewrite float_of_N_small by lia. cbn [_format_file_size_loop].
    replace (size <? 1024 * 1)%N with true by (symmetry; apply N.ltb_lt; lia).
    rewrite <- (N.mul_1_r size) at 1. rewrite fmt_1f_exact by lia.
    now rewrite append_assoc.
  - intros H. rewrite float_of_N_small by lia. cbn [_format_file_size_loop].
    replace (k * 1024 <? 1024 * 1)%N with false by (symmetry; apply N.ltb_ge; lia).
    replace (k * 1024 <? 1024 * (1 * 1024))%N with true by (symmetry; apply N.ltb_lt; lia).
    change (1 * 1024)%N with 1024%N. rewrite fmt_1f_exact by lia.
    now rewrite append_assoc.
  - intros H. rewrite float_of_N_small by lia. cbn [_format_file_size_loop].
    replace (size <? 1024 * 1)%N with false by (symmetry; apply N.ltb_ge; lia).
    replace (size <? 1024 * (1 * 1024))%N with true by (symmetry; apply N.ltb_lt; lia).
    change (1 * 1024)%N with 1024%N.
    rewrite (fmt_1f_rounds_up size) by lia. reflexivity.
Qed.

Lemma format_file_size_units_witness :
  _format_file_size 512 = "512.0B" /\ _format_file_size (3 * 1024) = "3.0KB"
  /\ _format_file_size 1048575 = "1024.0KB".
Proof.
  destruct (format_file_size_units 512 3) as [H1 [H2 _]].
  destruct (format_file_size_units 1048575 3) as [_ [_ H3]].
  split; [apply H1; reflexivity|]. split; [apply H2; split; [discriminate | reflexivity]|].
  apply H3. split; [discriminate | reflexivity].
Defined.

(** X17: of the six recognized manifest names only [Pipfile] is drawn with
    the package icon: the five others have an extension that the tests
    before it already recognize as source, configuration or
    documentation. *)
Theorem package_icon_only_for_Pipfile :
  forall (lower : string -> string) (name : string),
    lower_on_ascii lower ->
    (_get_file_icon lower name = ICON_PACKAGE <-> name = "Pipfile").
Proof.
  intros lower name Hlower. unfold _get_file_icon. split.
  - destruct (Str.mem (lower (path_suffix name)) PYTHON_EXTENSIONS) eqn:Hp;
      [discriminate|].
    destruct (Str.mem (lower (path_suffix name)) CONFIG_EXTENSIONS) eqn:Hc;
      [discriminate|].
    destruct (Str.mem (lower (path_suffix name)) DOC_EXTENSIONS) eqn:Hd; [discriminate|].
    destruct (Str.mem name REQUIREMENTS_FILES) eqn:Hr; [|discriminate].
    intros _. apply mem_In in Hr.
    destruct Hr as [<-|[<-|[<-|[<-|[<-|[<-|[]]]]]]]; try reflexivity;
      match type of Hp with
      | Str.mem (lower (path_suffix ?n)) _ = _ =>
          let v := eval vm_compute in (path_suffix n) in
          change (path_suffix n) with v in Hp, Hc, Hd
      end;
      rewrite Hlower in Hp, Hc, Hd by reflexivity;
      try discriminate Hp; try discriminate Hc; discriminate Hd.
  - intros ->. change (path_suffix "Pipfile") with "".
    rewrite (Hlower "" eq_refl). reflexivity.
Qed.

Lemma package_icon_only_for_Pipfile_witness :
  _get_file_icon Str.ascii_lower "Pipfile" = ICON_PACKAGE
  /\ _get_file_icon Str.ascii_lower "setup.py" <> ICON_PACKAGE.
Proof.
  destruct (package_icon_only_for_Pipfile Str.ascii_lower "Pipfile"
              (fun s _ => eq_refl)) as [_ H1].
  destruct (package_icon_only_for_Pipfile Str.ascii_lower "setup.py"
              (fun s _ => eq_refl)) as [H2 _].
  split; [now apply H1|]. intros E. apply H2 in E. discriminate E.
Defined.

(** ** The order and the choice of the entries of a directory *)

Lemma string_ltb_asym (a b : string) : String.ltb a b = true -> String.ltb b a = false.
Proof.
  unfold String.ltb. rewrite (String.compare_antisym b a).
  now destruct (String.compare a b).
Qed.

Lemma string_not_ltb_trans (a b c : string) :
  String.ltb b a = false -> String.ltb c b = false -> String.ltb c a = false.
Proof.
  unfold String.ltb.
  rewrite (String.compare_antisym b a), (String.compare_antisym c b),
          (String.compare_antisym c a).
  destruct (String.compare a b) eqn:Hab; simpl; try discriminate; intros _.
  - apply String.compare_eq_iff in Hab. subst b. auto.
  - destruct (String.compare b c) eqn:Hbc; simpl; try discriminate; intros _.
    + apply String.compare_eq_iff in Hbc. subst c. now rewrite Hab.
    + now rewrite (string_compare_lt_trans _ _ _ Hab Hbc).
Qed.

Lemma tree_key_le_total (lower : string -> string) (x y : string * node) :
  tree_key_le lower x y = false -> tree_key_le lower y x = true.
Proof.
  unfold tree_key_le, tree_key_lt.
  destruct (node_is_file (snd x)), (node_is_file (snd y)); simpl; try discriminate; auto.
  - intros H. apply negb_false_iff in H. now rewrite (string_ltb_asym _ _ H).
  - intros H. apply negb_false_iff in H. now rewrite (string_ltb_asym _ _ H).
Qed.

Lemma tree_key_le_trans (lower : string -> string) (x y z : string * node) :
  tree_key_le lower x y = true -> tree_key_le lower y z = true ->
  tree_key_le lower x z = true.
Proof.
  unfold tree_key_le, tree_key_lt.
  destruct (node_is_file (snd x)), (node_is_file (snd y)), (node_is_file (snd z));
    simpl; try discriminate; auto;
    intros H1 H2; apply negb_true_iff in H1; apply negb_true_iff in H2;
    apply negb_true_iff; now apply (string_not_ltb_trans _ _ _ H1 H2).
Qed.

(** X18: the entries of a directory are visited with the directories
    first and the files after them, and within each kind by ascending
    lower-cased name, whatever [str.lower] makes of a name; the visit
    rearranges the listing, losing and adding nothing. *)
Theorem tree_entries_folders_first :
  forall (lower : string -> string) (es : list (string * node)),
    Permutation (sorted (tree_key_le lower) es) es
    /\ StronglySorted
         (fun a b =>
            (node_is_file (snd a) = true -> node_is_file (snd b) = true)
            /\ (node_is_file (snd a) = node_is_file (snd b) ->
                String.ltb (lower (fst b)) (lower (fst a)) = false))
         (sorted (tree_key_le lower) es).
Proof.
  intros lower es. split; [apply sorted_perm|].
  apply (StronglySorted_weaken (fun a b => tree_key_le lower a b = true)).
  - intros a b. unfold tree_key_le, tree_key_lt.
    destruct (node_is_file (snd a)), (node_is_file (snd b)); simpl;
      intros H; split; auto; try discriminate; intros _; now apply negb_true_iff.
  - apply sorted_ordered; [apply tree_key_le_total | apply tree_key_le_trans].
Qed.

(** With the lower-casing of the ASCII range: the directory comes first,
    and the files follow by lower-cased name. *)
Example tree_entries_order :
  sorted (tree_key_le Str.ascii_lower)
    [("b.py", File 1 ""); ("Zoo", Dir 1 true []); ("a.py", File 1 ""); ("B.txt", File 1 "")]
  = [("Zoo", Dir 1 true []); ("a.py", File 1 ""); ("b.py", File 1 ""); ("B.txt", File 1 "")].
Proof. reflexivity. Qed.

(** The lines of a walk never belong to a skipped entry: with hidden
    entries left out no component starts with a dot, and no directory on
    the path of a line is an excluded directory. *)
Lemma walk_dir_never_skipped (lower : string -> string) (max_depth : Z) (include_hidden : bool) :
  forall fuel listable es current_depth dir line,
    In line (walk_dir lower fuel listable es max_depth include_hidden current_depth dir) ->
    exists rel,
      line_path line = dir ++ rel
      /\ (include_hidden = false -> Forall (fun c => Str.startswith "." c = false) rel)
      /\ Forall (fun c => Str.mem c EXCLUDE_DIRS = false)
                (match line with FileLine _ _ _ => removelast rel | _ => rel end).
Proof.
  induction fuel as [|fuel IH]; intros listable es cd dir line Hin; [destruct Hin|].
  cbn [walk_dir] in Hin.
  destruct (cd >=? max_depth)%Z; [destruct Hin|].
  destruct listable.
  - apply in_flat_map in Hin. destruct Hin as [[name child] [_ Hin]].
    destruct (skipped include_hidden (name, child)) eqn:Hsk; [destruct Hin|].
    unfold skipped in Hsk. cbn [fst snd] in Hsk, Hin.
    apply orb_false_elim in Hsk. destruct Hsk as [Hhid Hexc].
    assert (Hdot : include_hidden = false -> Str.startswith "." name = false).
    { intros ->. exact Hhid. }
    destruct child as [sz text | sz l' es'].
    + destruct Hin as [<-|[]]. exists [name]. repeat split.
      * intros Hih. constructor; [auto | constructor].
      * constructor.
    + simpl in Hexc.
      destruct Hin as [<-|Hin].
      * exists [name]. repeat split.
        -- intros Hih. constructor; [auto | constructor].
        -- constructor; [assumption | constructor].
      * destruct (cd <? max_depth - 1)%Z; [|destruct Hin].
        destruct (IH _ _ _ _ _ Hin) as [rel [Hp [Hh He]]].
        exists (name :: rel). split; [now rewrite Hp, <- app_assoc|]. split.
        -- intros Hih. constructor; auto.
        -- destruct line; try (constructor; assumption).
           destruct rel as [|c rel]; [constructor|].
           change (removelast (name :: c :: rel)) with (name :: removelast (c :: rel)).
           constructor; assumption.
  - destruct Hin as [<-|[]]. exists []. rewrite app_nil_r. repeat split; constructor.
Qed.

(** X19: the text of a walk from the root is made of its lines, and
    whatever the tree, these show no hidden entry unless asked to, and
    never a directory of the exclusion list nor anything below one: no
    component of the path of a line starts with a dot (when hidden entries
    are left out), and no directory on the path of a line has an excluded
    name. *)
Theorem tree_walk_never_shows_skipped :
  forall (lower : string -> string) (fuel : nat) (listable : bool) (es : list (string * node)) (max_depth : Z)
         (include_hidden : bool),
    let lines := walk_dir lower fuel listable es max_depth include_hidden 0 [] in
    tree_of_dir lower fuel listable es max_depth include_hidden 0
    = Str.join newline (map (line_text lower) lines)
    /\ (forall line,
          In line lines ->
          (include_hidden = false ->
             Forall (fun c => Str.startswith "." c = false) (line_path line))
          /\ Forall (fun c => Str.mem c EXCLUDE_DIRS = false)
                    (match line with
                     | FileLine _ p _ => removelast p
                     | _ => line_path line
                     end)).
Proof.
  intros lower fuel listable es max_depth ih lines. split; [apply tree_of_dir_lines|].
  intros line Hin.
  destruct (walk_dir_never_skipped _ _ _ _ _ _ _ _ _ Hin) as [rel [Hp [Hh He]]].
  simpl in Hp. rewrite Hp. split; [assumption|].
  destruct line; simpl in *; subst; assumption.
Qed.

Lemma tree_walk_never_shows_skipped_witness :
  (false = false -> Forall (fun c => Str.startswith "." c = false) ["src"; "app.py"])
  /\ Forall (fun c => Str.mem c EXCLUDE_DIRS = false) (removelast ["src"; "app.py"]).
Proof.
  destruct (tree_walk_never_shows_skipped Str.ascii_lower 2 true
              [("README.md", File 120 "readme");
               ("src", Dir 4096 true [("app.py", File 2048 "import os")]);
               ("empty", Dir 4096 true []);
               (".git", Dir 4096 true [])] 2 false) as [_ H].
  apply (H (FileLine 1 ["src"; "app.py"] 2048)).
  vm_compute. tauto.
Defined.

(** ** What the safe reader returns *)

(** X21: a text that the safe reader returns is the text of a file that
    exists at the path and is no larger than the cap; a directory, a
    missing path or a larger file never gives a text. *)
Theorem read_file_content_sound :
  forall (fs : node) (p : path) (text : string),
    _read_file_content fs p = Ok text ->
    exists sz, lookup fs p = Some (File sz text) /\ (sz <= MAX_FILE_SIZE)%N.
Proof.
  intros fs p text. unfold _read_file_content.
  destruct (lookup fs p) as [n|]; [|discriminate].
  destruct (MAX_FILE_SIZE <? st_size n)%N eqn:Hsz; [discriminate|].
  apply N.ltb_ge in Hsz. destruct n as [sz t | sz l es]; [|discriminate].
  intros H. inversion H; subst. now exists sz.
Qed.

Lemma read_file_content_sound_witness :
  exists sz, lookup fs_cap ["at_cap"] = Some (File sz "text at the cap")
             /\ (sz <= MAX_FILE_SIZE)%N.
Proof.
  apply (read_file_content_sound fs_cap ["at_cap"] "text at the cap"). reflexivity.
Defined.

(** ** What a requirements list yields *)

(** The first piece of [s.split()] is the run of [s] up to the first white
    space, when [s] does not start with white space. *)
Lemma split_ws_head (s : string) :
  starts_with_space s = false ->
  hd "" (Str.split_ws s) = fst (run_until starts_with_space s).
Proof.
  unfold Str.split_ws. induction s as [|c s IH]; intros Hs; [reflexivity|].
  cbn [Str.split_ws_aux run_until]. rewrite Hs.
  assert (Hw : Str.space_width (String c s) = 0).
  { unfold starts_with_space in Hs. apply negb_false_iff in Hs. now apply Nat.eqb_eq. }
  rewrite Hw. destruct s as [|d s]; [reflexivity|].
  destruct (Str.space_width (String d s)) as [|k] eqn:Hd.
  - assert (Hs' : starts_with_space (String d s) = false)
      by (unfold starts_with_space; now rewrite Hd).
    specialize (IH Hs').
    destruct (run_until starts_with_space (String d s)) as [run rest].
    destruct (Str.split_ws_aux 0 (String d s)) as [|h t]; simpl in *; now subst.
  - cbn [run_until]. unfold starts_with_space at 1. rewrite Hd. reflexivity.
Qed.

(** X22: a dependency read from a requirements list is the first token
    of a line of the file, trimmed: the text of the trimmed line up to its
    first white space.  It is not empty, no white space starts in it, and
    it does not start with [#] or [-]. *)
Theorem parse_requirements_txt_tokens :
  forall (fs : node) (file_path : path) (content : string) (lines deps : list string)
         (dep : string),
    _read_file_content fs file_path = Ok content -> lines_of content lines ->
    _parse_requirements_txt fs file_path = Ok deps -> In dep deps ->
    (exists line t rest,
        In line lines /\ trimmed line t /\ t = dep +++ rest
        /\ (rest = "" \/ starts_space rest))
    /\ dep <> ""
    /\ (forall a b, dep = a +++ b -> ~ starts_space b)
    /\ (forall r, dep <> "#" +++ r) /\ (forall r, dep <> "-" +++ r).
Proof.
  intros fs file_path content lines deps dep Hread Hlines Hparse Hin.
  apply lines_of_split in Hlines. subst lines.
  unfold _parse_requirements_txt in Hparse. rewrite Hread in Hparse.
  cbn [bind] in Hparse. inversion Hparse; subst deps. clear Hparse.
  apply in_flat_map in Hin. destruct Hin as [line [Hline Hin]].
  unfold requirement_of_line in Hin.
  pose proof (strip_trimmed line) as Htrim.
  set (t := Str.strip line) in *.
  destruct (String.eqb_spec t "") as [Ht | Ht]; [destruct Hin|].
  destruct (Str.startswith "#" t) eqn:H1; [destruct Hin|].
  destruct (Str.startswith "-" t) eqn:H2; [destruct Hin|].
  cbn [negb andb] in Hin. destruct Hin as [<-|[]].
  assert (Hns : starts_with_space t = false).
  { apply starts_with_space_false. now destruct Htrim as [l [r [_ [_ [_ [H _]]]]]]. }
  rewrite (split_ws_head _ Hns).
  destruct (run_until starts_with_space t) as [g rest] eqn:Hrun. cbn [fst].
  destruct (run_until_spec _ _ _ _ Hrun) as [Ht' [Hg Hrest]].
  assert (Hne : g <> "").
  { intros ->. simpl in Ht'. subst rest. destruct Hrest as [Hr | Hr]; congruence. }
  split; [|split; [exact Hne|split; [|split]]].
  - exists line, t, rest. repeat split; auto.
    destruct Hrest as [Hr | Hr]; [now left | right; now apply starts_with_space_spec].
  - intros a b E Hb. destruct b as [|c b].
    + destruct Hb as [w [x [Hw Hx]]]. symmetry in Hx. apply append_eq_nil in Hx.
      destruct Hx as [-> _]. now apply (whitespace_nonempty _ Hw).
    + assert (Hb' : starts_space (String c b +++ rest)).
      { destruct Hb as [w [x [Hw ->]]]. rewrite append_assoc. now exists w, (x +++ rest). }
      apply starts_with_space_spec in Hb'. rewrite (Hg a (String c b) E) in Hb';
        [discriminate Hb' | discriminate].
  - intros r ->. rewrite Ht' in H1. discriminate H1.
  - intros r ->. rewrite Ht' in H2. discriminate H2.
Qed.

Lemma parse_requirements_txt_tokens_witness :
  "requests>=2.0" <> ""
  /\ (forall a b, "requests>=2.0" = a +++ b -> ~ starts_space b)
  /\ (forall r, "requests>=2.0" <> "#" +++ r) /\ (forall r, "requests>=2.0" <> "-" +++ r).
Proof.
  apply (parse_requirements_txt_tokens fs_requirements ["srv"; "proj"; "requirements.txt"]
           requirements_text (Str.split newline requirements_text)
           ["requests>=2.0"] "requests>=2.0");
    [reflexivity | now apply lines_of_split | reflexivity | now left].
Defined.

(** ** The index finds what is there *)

Lemma rglob_node_complete (ext : string) (rel : list string) :
  forall (n m : node) (dir : path),
    rel <> [] -> reach n rel = Some m ->
    Str.endswith ext (last rel "") = true ->
    In (dir ++ rel) (rglob_node ext dir n).
Proof.
  induction rel as [|c rel IH]; intros n m dir Hne Hreach Hend; [contradiction|].
  simpl in Hreach. destruct n as [|sz listable es]; [discriminate|].
  destruct listable; [|discriminate].
  destruct (find_entry c es) as [child|] eqn:Hc; [|discriminate].
  apply find_entry_In in Hc. cbn [rglob_node]. apply in_or_app.
  destruct rel as [|c' rel].
  - left. apply in_map_iff. exists (c, child). split; [reflexivity|].
    apply filter_In. split; [assumption | exact Hend].
  - right. apply in_flat_map. exists (c, child). split; [assumption|].
    replace (dir ++ c :: c' :: rel) with ((dir ++ [c]) ++ c' :: rel)
      by (now rewrite <- app_assoc).
    apply (IH child m); [discriminate | assumption | exact Hend].
Qed.

(** X23: an entry below the root, reached through directories that can be
    listed, whose name ends in one of the three extensions and whose
    absolute path has no excluded component, is in the index. *)
Theorem get_python_files_complete :
  forall (fs : node) (root : path) (n m : node) (rel : list string) (ext : string),
    lookup fs root = Some n -> rel <> [] -> reach n rel = Some m ->
    In ext PYTHON_EXTENSIONS -> Str.endswith ext (last rel "") = true ->
    has_excluded_part (root ++ rel) = false ->
    In (root ++ rel) (_get_python_files fs {| root_directory := Some root |}).
Proof.
  intros fs root n m rel ext Hroot Hne Hreach Hext Hend Hexc.
  unfold _get_python_files. cbn [root_directory].
  apply sorted_In, filter_In. split; [|now rewrite Hexc].
  apply in_flat_map. exists ext. split; [assumption|].
  unfold rglob. rewrite Hroot. now apply (rglob_node_complete ext rel n m).
Qed.

Lemma get_python_files_complete_witness :
  In (["proj"] ++ ["src"; "app.py"])
     (_get_python_files fs_tree {| root_directory := Some ["proj"] |}).
Proof.
  apply (get_python_files_complete fs_tree ["proj"]
           (Dir 4096 true
              [("README.md", File 120 "readme");
               ("src", Dir 4096 true [("app.py", File 2048 "import os")]);
               ("empty", Dir 4096 true []);
               (".git", Dir 4096 true [])])
           (File 2048 "import os") ["src"; "app.py"] ".py");
    try reflexivity; [discriminate | now left].
Defined.
